(** * The plugin registry: a shallow embedding and its properties

    The development follows [PluginRegistry] (registration in two phases,
    the transactional bootstrap check, deletion, capability lookups and
    the start/stop of plugin services) and [RerankerPluginInstance].

    Host-side state (the registry tables, the [pluginState] collection)
    is threaded explicitly through a small state-and-exception monad.
    Everything a plugin module, the plugin runner, the configuration
    loader or the uuid library decides is read from an environment
    [Env], over which all theorems quantify. *)

From Stdlib Require Import String Ascii List Bool Arith NArith Lia.
Import ListNotations.
Local Open Scope string_scope.
Local Open Scope list_scope.

Set Implicit Arguments.

(* ===================================================================== *)
(** ** JavaScript objects used as string-keyed tables *)
(* ===================================================================== *)

(** A [Record<string, V>] is a plain object created by [{}]: its
    prototype is [Object.prototype].  The table is the list of the
    bindings the code made by [o[k] = v], in creation order.  A binding
    is an own property of the object, with one exception: an assignment
    to [__proto__] runs the setter inherited from [Object.prototype],
    which creates no property and makes the value the prototype of the
    object; the binding of [__proto__] records that prototype.

    A read [o[k]] finds the own property, or else what the prototype
    chain holds under the name: a property of the object made the
    prototype, a function of [Object.prototype], or nothing ([lookup]).
    Enumeration ([Object.values], [Object.entries]) lists the own
    properties only: the keys that are array indices first, in ascending
    numeric order, and then the other keys in creation order. *)
Module JsObject.

Definition t (V : Type) : Type := list (string * V).

Definition empty {V : Type} : t V := [].

(** The value the code stored under [k], as [o[k]] reads it back: the
    own property [k], or, under [__proto__], the object that was made
    the prototype (the getter returns it).  It is [None] when the code
    stored nothing under [k]; what [o[k]] finds then is [lookup]'s. *)
Fixpoint stored {V : Type} (k : string) (o : t V) : option V :=
  match o with
  | [] => None
  | (k', v) :: rest => if String.eqb k' k then Some v else stored k rest
  end.

(** [o[k] = v]: an existing property keeps its place, a new one comes
    last.  Under [__proto__] no property is created: the binding is the
    prototype, and a later assignment replaces it. *)
Fixpoint set {V : Type} (k : string) (v : V) (o : t V) : t V :=
  match o with
  | [] => [(k, v)]
  | (k', v') :: rest =>
      if String.eqb k' k then (k', v) :: rest else (k', v') :: set k v rest
  end.

(** The bindings without those of the key. *)
Fixpoint remove {V : Type} (k : string) (o : t V) : t V :=
  match o with
  | [] => []
  | (k', v') :: rest =>
      if String.eqb k' k then remove k rest else (k', v') :: remove k rest
  end.

(** [delete o[k]]: the own property is removed.  [__proto__] is no own
    property: deleting it changes nothing and the prototype stays. *)
Definition delete {V : Type} (k : string) (o : t V) : t V :=
  if String.eqb k "__proto__" then o else remove k o.

(** The own properties, in creation order. *)
Definition own {V : Type} (o : t V) : list (string * V) :=
  filter (fun e => negb (String.eqb (fst e) "__proto__")) o.

(** The object that was made the prototype, if one was. *)
Definition proto {V : Type} (o : t V) : option V := stored "__proto__" o.

Definition digit_of (c : ascii) : option N :=
  let n := N_of_ascii c in
  if ((48 <=? n) && (n <=? 57))%N then Some (n - 48)%N else None.

Fixpoint digits_value (s : string) (acc : N) : option N :=
  match s with
  | EmptyString => Some acc
  | String c s' =>
      match digit_of c with
      | Some d => digits_value s' (10 * acc + d)%N
      | None => None
      end
  end.

(** A key is an array index when it is the canonical decimal form of an
    integer in [0, 2^32 - 2]. *)
Definition array_index (s : string) : option N :=
  match s with
  | EmptyString => None
  | String c EmptyString => digit_of c
  | String c _ =>
      if Ascii.eqb c "0"%char then None
      else match digits_value s 0 with
           | Some n => if (n <=? 4294967294)%N then Some n else None
           | None => None
           end
  end.

Fixpoint insert_index {V : Type} (i : N) (e : string * V)
    (l : list (N * (string * V))) : list (N * (string * V)) :=
  match l with
  | [] => [(i, e)]
  | (j, e') :: rest =>
      if (i <? j)%N then (i, e) :: (j, e') :: rest
      else (j, e') :: insert_index i e rest
  end.

(** Splits the properties into the index-keyed ones, sorted, and the
    others, kept in creation order. *)
Fixpoint partition_keys {V : Type} (o : t V)
    : list (N * (string * V)) * list (string * V) :=
  match o with
  | [] => ([], [])
  | (k, v) :: rest =>
      let (idx, str) := partition_keys rest in
      match array_index k with
      | Some i => (insert_index i (k, v) idx, str)
      | None => (idx, (k, v) :: str)
      end
  end.

(** [Object.entries(o)]: the own properties. *)
Definition entries {V : Type} (o : t V) : list (string * V) :=
  let (idx, str) := partition_keys (own o) in map snd idx ++ str.

(** [Object.values(o)] *)
Definition values {V : Type} (o : t V) : list V := map snd (entries o).

(** The functions every object inherits from [Object.prototype], each
    with its [length]; [__proto__] is the accessor beside them. *)
Definition object_prototype_functions : list (string * nat) :=
  [("constructor", 1); ("__defineGetter__", 2); ("__defineSetter__", 2);
   ("hasOwnProperty", 1); ("__lookupGetter__", 1); ("__lookupSetter__", 1);
   ("isPrototypeOf", 1); ("propertyIsEnumerable", 1); ("toString", 0);
   ("valueOf", 0); ("toLocaleString", 0)].

(** The [length] of the function [Object.prototype] holds under the
    name, if it holds one. *)
Definition function_length (name : string) : option nat :=
  stored name object_prototype_functions.

(** A name under which [Object.prototype] holds nothing: neither
    [__proto__] nor one of its functions. *)
Definition plain (name : string) : bool :=
  negb (String.eqb name "__proto__")
  && match function_length name with
     | Some _ => false
     | None => true
     end.

(** What a read [o[k]] evaluates to: a value the code stored ([Found]),
    a property of the object made the prototype ([Field]), a function of
    [Object.prototype] ([Builtin]), [Object.prototype] itself (read as
    [__proto__] of an object whose prototype was not replaced), or
    [undefined]. *)
Inductive Lookup (V F : Type) : Type :=
| Found (v : V)
| Field (f : F)
| Builtin (name : string)
| ObjectPrototype
| Undefined.
Arguments Found {V F} v.
Arguments Field {V F} f.
Arguments Builtin {V F} name.
Arguments ObjectPrototype {V F}.
Arguments Undefined {V F}.

Section Reads.

Variables V F : Type.

(** The properties of a stored object, read when it is the prototype:
    it is itself a plain object, so the chain goes on to
    [Object.prototype]. *)
Variable fields : V -> string -> option F.

(** What the prototype chain holds under the name, past the own
    properties. *)
Definition inherited (k : string) (o : t V) : Lookup V F :=
  match match proto o with
        | Some p => fields p k
        | None => None
        end with
  | Some f => Field f
  | None =>
      if String.eqb k "__proto__" then
        match proto o with
        | Some p => Found p
        | None => ObjectPrototype
        end
      else match function_length k with
           | Some _ => Builtin k
           | None => Undefined
           end
  end.

(** [o[k]] *)
Definition lookup (k : string) (o : t V) : Lookup V F :=
  match stored k o with
  | Some v => Found v
  | None => inherited k o
  end.

(** Whether the value is truthy: an object or a function is, a field is
    when its own value is. *)
Definition truthy (field_truthy : F -> bool) (found : Lookup V F) : bool :=
  match found with
  | Found _ | Builtin _ | ObjectPrototype => true
  | Field f => field_truthy f
  | Undefined => false
  end.

End Reads.

End JsObject.

(* ===================================================================== *)
(** ** Data model *)
(* ===================================================================== *)

(** [Record<string, any>]: plugin configuration, opaque to the registry. *)
Definition Config : Type := list (string * string).

(** [PluginManifest]; [manifest_type] is the raw string the registry
    switches on, [manifest_runtime] is absent or a string. *)
Record PluginManifest : Type := mkManifest {
  manifest_name : string;
  manifest_displayName : string;
  manifest_description : option string;
  manifest_version : string;
  manifest_type : string;
  manifest_runtime : option string
}.

(** The properties of a manifest, read when a manifest is the prototype
    of the manifest cache: those of [PluginManifest], all strings; an
    absent [description] or [runtime] is no property. *)
Definition manifest_fields (m : PluginManifest) (k : string) : option string :=
  if String.eqb k "name" then Some (manifest_name m)
  else if String.eqb k "displayName" then Some (manifest_displayName m)
  else if String.eqb k "description" then manifest_description m
  else if String.eqb k "version" then Some (manifest_version m)
  else if String.eqb k "type" then Some (manifest_type m)
  else if String.eqb k "runtime" then manifest_runtime m
  else None.

(** A string is truthy unless it is empty. *)
Definition nonempty (s : string) : bool := negb (String.eqb s "").

(** What a read of the manifest cache evaluates to. *)
Definition ManifestLookup : Type := JsObject.Lookup PluginManifest string.

(** [this._manifests[alias]] *)
Definition manifest_lookup (alias : string)
    (cache : JsObject.t PluginManifest) : ManifestLookup :=
  JsObject.lookup manifest_fields alias cache.

(** [value || undefined] *)
Definition or_undefined (found : ManifestLookup) : ManifestLookup :=
  if JsObject.truthy nonempty found then found else JsObject.Undefined.

(** What is thrown.  [RegistryError] is [PluginRegistry.Error]: a message,
    the plugin details [{alias, path, manifest?}] and the cause; the
    manifest of the details is a manifest or what a read of the manifest
    cache gave.  [ZodError] carries its issues already rendered.
    [OtherError] stands for every other thrown value. *)
Record ErrorDetails : Type := mkDetails {
  details_alias : string;
  details_path : string;
  details_manifest : ManifestLookup
}.

Inductive Exn : Type :=
| OtherError (message : string)
| ZodError (issues : list string)
| RegistryError (message : string) (pluginDetails : ErrorDetails)
                (causedBy : Exn).

(** [e instanceof PluginRegistry.Error] *)
Definition instanceof_RegistryError (e : Exn) : bool :=
  match e with
  | RegistryError _ _ _ => true
  | _ => false
  end.

(** The outcome of a call that may throw. *)
Inductive Res (A : Type) : Type :=
| Ok (a : A)
| Throw (e : Exn).
Arguments Ok {A} a.
Arguments Throw {A} e.

(** The [config] of a declaration: absent, a static value, or a function
    whose call yields the recorded outcome ([None] for a falsy result). *)
Inductive RegistrationConfig : Type :=
| ConfigAbsent
| ConfigValue (c : Config)
| ConfigFunction (result : Res (option Config)).

(** [UnbodyPlugins.Registration] *)
Record Registration : Type := mkRegistration {
  reg_alias : string;
  reg_path : string;
  reg_config : RegistrationConfig
}.

(** A [PluginRunner], identified by the configuration it was built with:
    [{pluginId, pluginPath, pluginConfig}]. *)
Record PluginRunner : Type := mkRunner {
  pluginId : string;
  pluginPath : string;
  pluginConfig : Config
}.

(** [LoadedPlugin] *)
Record LoadedPlugin : Type := mkLoaded {
  loaded_id : string;
  loaded_alias : string;
  loaded_runner : PluginRunner;
  loaded_manifest : PluginManifest
}.

(** The properties of a loaded plugin, read when a loaded plugin is the
    prototype of a table: [{ id, alias, runner, manifest }]. *)
Inductive PluginField : Type :=
| StringField (s : string)
| RunnerField (runner : PluginRunner)
| ManifestField (manifest : PluginManifest).

Definition plugin_fields (plugin : LoadedPlugin) (k : string)
    : option PluginField :=
  if String.eqb k "id" then Some (StringField (loaded_id plugin))
  else if String.eqb k "alias" then Some (StringField (loaded_alias plugin))
  else if String.eqb k "runner" then Some (RunnerField (loaded_runner plugin))
  else if String.eqb k "manifest" then
    Some (ManifestField (loaded_manifest plugin))
  else None.

(** A string is truthy unless it is empty, an object is truthy. *)
Definition field_truthy (f : PluginField) : bool :=
  match f with
  | StringField s => nonempty s
  | RunnerField _ | ManifestField _ => true
  end.

(** What a read of the flat table or of a capability table evaluates
    to. *)
Definition PluginLookup : Type := JsObject.Lookup LoadedPlugin PluginField.

(** [table[alias]] *)
Definition plugin_lookup (alias : string) (table : JsObject.t LoadedPlugin)
    : PluginLookup :=
  JsObject.lookup plugin_fields alias table.

(** A document of the [pluginState] collection. *)
Record PluginStateDocument : Type := mkState {
  state_id : string;
  state_manifest : PluginManifest;
  state_alias : string
}.

(** A config schema, as far as the registry uses it: [parse]. *)
Definition Schema : Type := Config -> Res Config.

(** [PluginRegistryConfig.configLoader]: called with the declaration, the
    manifest and the manifest lookup ([getManifest], bound to the
    registry); [None] is a falsy result. *)
Definition ConfigLoader : Type :=
  Registration -> PluginManifest -> (string -> ManifestLookup) ->
  Res (option Config).

(** The classes [getInstance] constructs; [BasePluginInstance] is
    [PluginInstance] itself. *)
Inductive InstanceClass : Type :=
| FileParserPluginInstance
| ProviderPluginInstance
| StoragePluginInstance
| TextVectorizerPluginInstance
| ImageVectorizerPluginInstance
| MultimodalVectorizerPluginInstance
| RerankerPluginInstance
| DatabasePluginInstance
| EnhancerPluginInstance
| GenerativePluginInstance
| BasePluginInstance.

(** The environment: the uuid library ([uuid.v5(name, uuid.v5.URL)]), the
    plugin modules seen through their runner, the registry's own
    [config], and the static [methods] of the instance classes defined in
    other files of the library.  The outcome of a call is a function of
    the runner it is made on and of its arguments: a plugin answers the
    same call in the same way.  [destroy_on_runner] is the outcome of
    [getInstance(runner)] followed by the destroy task, which
    [deletePlugin] runs when the flat table yields the runner of the
    plugin that is its prototype: it is decided by the class
    [PluginRunner], which is not at hand. *)
Record Env : Type := mkEnv {
  uuid_v5_URL : string -> string;
  runner_getManifest : PluginRunner -> Res PluginManifest;
  runner_load : PluginRunner -> Res unit;
  runner_getSchema : PluginRunner -> string -> Res (option Schema);
  runner_initialize : PluginRunner -> Res unit;
  runner_runTask : PluginRunner -> string -> Res unit;
  configLoader : option ConfigLoader;
  absent_methods : InstanceClass -> list string;
  destroy_on_runner : PluginRunner -> Res unit
}.

(** The registry object. *)
Record PluginRegistry : Type := mkRegistry {
  _manifests : JsObject.t PluginManifest;
  plugins : JsObject.t LoadedPlugin;
  providers : JsObject.t LoadedPlugin;
  fileParsers : JsObject.t LoadedPlugin;
  storage : JsObject.t LoadedPlugin;
  database : JsObject.t LoadedPlugin;
  enhancers : JsObject.t LoadedPlugin;
  generative : JsObject.t LoadedPlugin;
  rerankers : JsObject.t LoadedPlugin;
  textVectorizers : JsObject.t LoadedPlugin;
  imageVectorizers : JsObject.t LoadedPlugin;
  multimodalVectorizers : JsObject.t LoadedPlugin
}.

Definition new_PluginRegistry : PluginRegistry :=
  mkRegistry [] [] [] [] [] [] [] [] [] [] [] [].

(** An entry of the catalog [getPlugins] returns. *)
Record PluginInfo : Type := mkInfo {
  info_alias : string;
  info_id : string;
  info_type : string;
  info_name : string;
  info_displayName : string;
  info_description : string;
  info_version : string
}.

(** One invocation of a task on a plugin, with whether it returned. *)
Record TaskCall : Type := mkCall {
  call_alias : string;
  call_task : string;
  call_returned : bool
}.

(** A transaction that was started and not awaited: its body runs after
    the caller has moved on. *)
Inductive DetachedTransaction : Type :=
| DeleteOneByAlias (alias : string).

(** The host: the registry, the [pluginState] collection (committed
    documents, and the documents written in the open transaction of the
    current session), the detached transactions still to run, and the
    trace of task invocations. *)
Record Host : Type := mkHost {
  registry : PluginRegistry;
  pluginState : list PluginStateDocument;
  uncommitted : list PluginStateDocument;
  detached : list DetachedTransaction;
  trace : list TaskCall
}.

Definition new_Host : Host := mkHost new_PluginRegistry [] [] [] [].

(** Field updates. *)
Definition with_registry (r : PluginRegistry) (h : Host) : Host :=
  mkHost r (pluginState h) (uncommitted h) (detached h) (trace h).
Definition with_pluginState (s : list PluginStateDocument) (h : Host) : Host :=
  mkHost (registry h) s (uncommitted h) (detached h) (trace h).
Definition with_uncommitted (s : list PluginStateDocument) (h : Host) : Host :=
  mkHost (registry h) (pluginState h) s (detached h) (trace h).
Definition with_detached (d : list DetachedTransaction) (h : Host) : Host :=
  mkHost (registry h) (pluginState h) (uncommitted h) d (trace h).
Definition with_trace (t : list TaskCall) (h : Host) : Host :=
  mkHost (registry h) (pluginState h) (uncommitted h) (detached h) t.

Definition with_manifests (m : JsObject.t PluginManifest)
    (r : PluginRegistry) : PluginRegistry :=
  mkRegistry m (plugins r) (providers r) (fileParsers r) (storage r)
    (database r) (enhancers r) (generative r) (rerankers r)
    (textVectorizers r) (imageVectorizers r) (multimodalVectorizers r).
Definition with_plugins (t : JsObject.t LoadedPlugin)
    (r : PluginRegistry) : PluginRegistry :=
  mkRegistry (_manifests r) t (providers r) (fileParsers r) (storage r)
    (database r) (enhancers r) (generative r) (rerankers r)
    (textVectorizers r) (imageVectorizers r) (multimodalVectorizers r).
Definition with_providers (t : JsObject.t LoadedPlugin)
    (r : PluginRegistry) : PluginRegistry :=
  mkRegistry (_manifests r) (plugins r) t (fileParsers r) (storage r)
    (database r) (enhancers r) (generative r) (rerankers r)
    (textVectorizers r) (imageVectorizers r) (multimodalVectorizers r).
Definition with_fileParsers (t : JsObject.t LoadedPlugin)
    (r : PluginRegistry) : PluginRegistry :=
  mkRegistry (_manifests r) (plugins r) (providers r) t (storage r)
    (database r) (enhancers r) (generative r) (rerankers r)
    (textVectorizers r) (imageVectorizers r) (multimodalVectorizers r).
Definition with_storage (t : JsObject.t LoadedPlugin)
    (r : PluginRegistry) : PluginRegistry :=
  mkRegistry (_manifests r) (plugins r) (providers r) (fileParsers r) t
    (database r) (enhancers r) (generative r) (rerankers r)
    (textVectorizers r) (imageVectorizers r) (multimodalVectorizers r).
Definition with_database (t : JsObject.t LoadedPlugin)
    (r : PluginRegistry) : PluginRegistry :=
  mkRegistry (_manifests r) (plugins r) (providers r) (fileParsers r)
    (storage r) t (enhancers r) (generative r) (rerankers r)
    (textVectorizers r) (imageVectorizers r) (multimodalVectorizers r).
Definition with_enhancers (t : JsObject.t LoadedPlugin)
    (r : PluginRegistry) : PluginRegistry :=
  mkRegistry (_manifests r) (plugins r) (providers r) (fileParsers r)
    (storage r) (database r) t (generative r) (rerankers r)
    (textVectorizers r) (imageVectorizers r) (multimodalVectorizers r).
Definition with_generative (t : JsObject.t LoadedPlugin)
    (r : PluginRegistry) : PluginRegistry :=
  mkRegistry (_manifests r) (plugins r) (providers r) (fileParsers r)
    (storage r) (database r) (enhancers r) t (rerankers r)
    (textVectorizers r) (imageVectorizers r) (multimodalVectorizers r).
Definition with_rerankers (t : JsObject.t LoadedPlugin)
    (r : PluginRegistry) : PluginRegistry :=
  mkRegistry (_manifests r) (plugins r) (providers r) (fileParsers r)
    (storage r) (database r) (enhancers r) (generative r) t
    (textVectorizers r) (imageVectorizers r) (multimodalVectorizers r).
Definition with_textVectorizers (t : JsObject.t LoadedPlugin)
    (r : PluginRegistry) : PluginRegistry :=
  mkRegistry (_manifests r) (plugins r) (providers r) (fileParsers r)
    (storage r) (database r) (enhancers r) (generative r) (rerankers r)
    t (imageVectorizers r) (multimodalVectorizers r).
Definition with_imageVectorizers (t : JsObject.t LoadedPlugin)
    (r : PluginRegistry) : PluginRegistry :=
  mkRegistry (_manifests r) (plugins r) (providers r) (fileParsers r)
    (storage r) (database r) (enhancers r) (generative r) (rerankers r)
    (textVectorizers r) t (multimodalVectorizers r).
Definition with_multimodalVectorizers (t : JsObject.t LoadedPlugin)
    (r : PluginRegistry) : PluginRegistry :=
  mkRegistry (_manifests r) (plugins r) (providers r) (fileParsers r)
    (storage r) (database r) (enhancers r) (generative r) (rerankers r)
    (textVectorizers r) (imageVectorizers r) t.

(* ===================================================================== *)
(** ** The state-and-exception monad of host operations *)
(* ===================================================================== *)

(** An [async] method of the registry: from the host before the call to
    its outcome and the host after it.  What was written before a throw
    stays written. *)
Definition M (A : Type) : Type := Host -> Res A * Host.

Definition ret {A : Type} (a : A) : M A := fun h => (Ok a, h).

Definition throw {A : Type} (e : Exn) : M A := fun h => (Throw e, h).

Definition bind {A B : Type} (m : M A) (k : A -> M B) : M B :=
  fun h =>
    match m h with
    | (Ok a, h') => k a h'
    | (Throw e, h') => (Throw e, h')
    end.

(** [try { m } catch (e) { handler e }] *)
Definition try_catch {A : Type} (m : M A) (handler : Exn -> M A) : M A :=
  fun h =>
    match m h with
    | (Ok a, h') => (Ok a, h')
    | (Throw e, h') => handler e h'
    end.

(** The outcome of a call into the environment. *)
Definition lift {A : Type} (r : Res A) : M A := fun h => (r, h).

Definition gets {A : Type} (f : Host -> A) : M A := fun h => (Ok (f h), h).

Definition modify (f : Host -> Host) : M unit := fun h => (Ok tt, f h).

Definition modify_registry (f : PluginRegistry -> PluginRegistry) : M unit :=
  modify (fun h => with_registry (f (registry h)) h).

Declare Scope host_scope.
Delimit Scope host_scope with host.
Notation "x <- m ;; k" := (bind m (fun x => k))
  (at level 100, m at next level, right associativity) : host_scope.
Notation "m ;; k" := (bind m (fun _ => k))
  (at level 100, right associativity) : host_scope.
Local Open Scope host_scope.

(** [for (const x of xs) { body x }] *)
Fixpoint for_of {A : Type} (xs : list A) (body : A -> M unit) : M unit :=
  match xs with
  | [] => ret tt
  | x :: rest => body x ;; for_of rest body
  end.

(* ===================================================================== *)
(** ** The [pluginState] collection *)
(* ===================================================================== *)

(** [pluginState.findOne({ alias }, {})]: not bound to a session, it reads
    the committed documents. *)
Definition findOne (alias : string) : M (option PluginStateDocument) :=
  gets (fun h => find (fun d => String.eqb (state_alias d) alias)
                      (pluginState h)).

(** [state.save({ session })] of a new document: an insert in the open
    transaction of the session; [_id] is unique in the collection. *)
Definition save (doc : PluginStateDocument) : M unit :=
  fun h =>
    if existsb (fun d => String.eqb (state_id d) (state_id doc))
               (pluginState h ++ uncommitted h)
    then (Throw (OtherError "E11000 duplicate key error"), h)
    else (Ok tt, with_uncommitted (uncommitted h ++ [doc]) h).

(** Removes the first document with the alias. *)
Fixpoint remove_first (alias : string) (docs : list PluginStateDocument)
    : list PluginStateDocument :=
  match docs with
  | [] => []
  | d :: rest =>
      if String.eqb (state_alias d) alias then rest
      else d :: remove_first alias rest
  end.

(** [pluginState.deleteOne({ alias })]: not bound to a session, it acts on
    the committed documents at once. *)
Definition deleteOne (alias : string) (h : Host) : Host :=
  with_pluginState (remove_first alias (pluginState h)) h.

(** [session.withTransaction(body)], awaited: the documents written in the
    session are committed when [body] returns and dropped when it throws;
    the error of [body] is rethrown. *)
Definition withTransaction {A : Type} (body : M A) : M A :=
  fun h =>
    match body (with_uncommitted [] h) with
    | (Ok a, h') =>
        (Ok a, with_uncommitted []
                 (with_pluginState (pluginState h' ++ uncommitted h') h'))
    | (Throw e, h') => (Throw e, with_uncommitted [] h')
    end.

(** [session.withTransaction(body)] without [await]: the caller goes on
    and the transaction runs later. *)
Definition withTransaction_detached (t : DetachedTransaction) : M unit :=
  modify (fun h => with_detached (detached h ++ [t]) h).

Definition run_detached (t : DetachedTransaction) (h : Host) : Host :=
  match t with
  | DeleteOneByAlias alias => deleteOne alias h
  end.

(** The host once the detached transactions have run. *)
Definition settle (h : Host) : Host :=
  with_detached [] (fold_left (fun h' t => run_detached t h') (detached h) h).

(* ===================================================================== *)
(** ** Plugin instances *)
(* ===================================================================== *)

(** An instance: its class, the instance configuration, the plugin it
    wraps and the capability methods handed to the base constructor. *)
Record PluginInstance : Type := mkInstance {
  inst_class : InstanceClass;
  inst_config : Config;
  inst_plugin : LoadedPlugin;
  inst_methods : list string
}.

(** [RerankerPluginInstance.methods] *)
Definition RerankerPluginInstance_methods : list string := ["rerank"].

(** Modelled from the spec: [ProviderPluginInstance] is defined in a file
    of the library that is not at hand; the capability table gives its
    methods as connect, verifyConnection, listEntrypointOptions and
    handleEntrypointUpdate. *)
Definition ProviderPluginInstance_methods : list string :=
  ["connect"; "verifyConnection"; "listEntrypointOptions";
   "handleEntrypointUpdate"].

(** The four lifecycle hooks. *)
Definition lifecycle_hooks : list string :=
  ["bootstrap"; "destroy"; "startService"; "stopService"].

(** Modelled from the spec: the constructor of the base class
    [PluginInstance] is not at hand; the public method set of an instance
    is exactly the capability methods it was constructed with. *)
Definition exposes (inst : PluginInstance) (method : string) : bool :=
  existsb (String.eqb method) (inst_methods inst).

Section Registry.

Variable env : Env.

(** [RerankerPluginInstance]'s constructor passes its static [methods] to
    the base class; the other classes are taken to do the same. *)
Definition static_methods (c : InstanceClass) : list string :=
  match c with
  | RerankerPluginInstance => RerankerPluginInstance_methods
  | ProviderPluginInstance => ProviderPluginInstance_methods
  | BasePluginInstance => []
  | _ => absent_methods env c
  end.

Definition new_instance (c : InstanceClass) (plugin : LoadedPlugin)
    (config : Config) : PluginInstance :=
  mkInstance c config plugin (static_methods c).

(** [getInstance(plugin)] *)
Definition getInstance (plugin : LoadedPlugin) : PluginInstance :=
  let type := manifest_type (loaded_manifest plugin) in
  if String.eqb type "file_parser" then
    new_instance FileParserPluginInstance plugin []
  else if String.eqb type "provider" then
    new_instance ProviderPluginInstance plugin []
  else if String.eqb type "storage" then
    new_instance StoragePluginInstance plugin []
  else if String.eqb type "text_vectorizer" then
    new_instance TextVectorizerPluginInstance plugin []
  else if String.eqb type "image_vectorizer" then
    new_instance ImageVectorizerPluginInstance plugin []
  else if String.eqb type "multimodal_vectorizer" then
    new_instance MultimodalVectorizerPluginInstance plugin []
  else if String.eqb type "reranker" then
    new_instance RerankerPluginInstance plugin []
  else if String.eqb type "database" then
    new_instance DatabasePluginInstance plugin []
  else if String.eqb type "enhancer" then
    new_instance EnhancerPluginInstance plugin []
  else if String.eqb type "generative" then
    new_instance GenerativePluginInstance plugin []
  else
    new_instance BasePluginInstance plugin [].

(** Modelled from the spec: [PluginInstance.runTask] is not at hand; it
    is the generic task invocation, [instance.runTask(task)({})], and
    delegates to the runner of the wrapped plugin.  The invocation is
    recorded in the trace. *)
Definition runTask (inst : PluginInstance) (task : string) : M unit :=
  let plugin := inst_plugin inst in
  let outcome := runner_runTask env (loaded_runner plugin) task in
  let returned := match outcome with Ok _ => true | Throw _ => false end in
  modify (fun h =>
    with_trace (trace h ++ [mkCall (loaded_alias plugin) task returned]) h) ;;
  lift outcome.

(** Modelled from the spec: a call [instance.method(input)]; an exposed
    method delegates to the task of the same name, a name that is not
    exposed is not a function of the instance. *)
Definition call_method (inst : PluginInstance) (method : string) : M unit :=
  if exposes inst method then runTask inst method
  else throw (OtherError "TypeError: not a function").

(* ===================================================================== *)
(** ** The registry operations *)
(* ===================================================================== *)

Definition newline : string := String (ascii_of_nat 10) EmptyString.

(** [defaultConfigLoader(plugin, manifest)] *)
Definition defaultConfigLoader (plugin : Registration)
    (manifest : PluginManifest) : Res Config :=
  match reg_config plugin with
  | ConfigFunction (Ok (Some c)) => Ok c
  | ConfigFunction (Ok None) => Ok []
  | ConfigFunction (Throw e) => Throw e
  | ConfigValue c => Ok c
  | ConfigAbsent => Ok []
  end.

(** [getManifest(alias)] *)
Definition getManifest (alias : string) : M ManifestLookup :=
  gets (fun h => manifest_lookup alias (_manifests (registry h))).

(** [plugin.alias || manifest.name] *)
Definition alias_or_name (plugin : Registration) (manifest : PluginManifest)
    : string :=
  if String.eqb (reg_alias plugin) "" then manifest_name manifest
  else reg_alias plugin.

(** The chain of [if (manifest.type === ...) this.<table>[alias] = loaded]
    that closes [registerPlugin]. *)
Definition index_by_type (alias : string) (loaded : LoadedPlugin)
    (r : PluginRegistry) : PluginRegistry :=
  let type := manifest_type (loaded_manifest loaded) in
  if String.eqb type "provider" then
    with_providers (JsObject.set alias loaded (providers r)) r
  else if String.eqb type "file_parser" then
    with_fileParsers (JsObject.set alias loaded (fileParsers r)) r
  else if String.eqb type "storage" then
    with_storage (JsObject.set alias loaded (storage r)) r
  else if String.eqb type "database" then
    with_database (JsObject.set alias loaded (database r)) r
  else if String.eqb type "text_vectorizer" then
    with_textVectorizers (JsObject.set alias loaded (textVectorizers r)) r
  else if String.eqb type "image_vectorizer" then
    with_imageVectorizers (JsObject.set alias loaded (imageVectorizers r)) r
  else if String.eqb type "multimodal_vectorizer" then
    with_multimodalVectorizers
      (JsObject.set alias loaded (multimodalVectorizers r)) r
  else if String.eqb type "reranker" then
    with_rerankers (JsObject.set alias loaded (rerankers r)) r
  else if String.eqb type "generative" then
    with_generative (JsObject.set alias loaded (generative r)) r
  else if String.eqb type "enhancer" then
    with_enhancers (JsObject.set alias loaded (enhancers r)) r
  else r.

(** [registerPlugin(plugin)] *)
Definition registerPlugin (plugin : Registration) : M unit :=
  let id := uuid_v5_URL env (reg_alias plugin) in
  manifest <- lift (runner_getManifest env
                      (mkRunner id (reg_path plugin) [])) ;;
  modify_registry (fun r =>
    with_manifests
      (JsObject.set (reg_alias plugin) manifest (_manifests r)) r) ;;
  config <-
    match configLoader env with
    | Some loader =>
        lookup <- gets (fun h a =>
                          manifest_lookup a (_manifests (registry h))) ;;
        custom <- lift (loader plugin manifest lookup) ;;
        match custom with
        | Some c => ret c
        | None => lift (defaultConfigLoader plugin manifest)
        end
    | None => lift (defaultConfigLoader plugin manifest)
    end ;;
  let runner := mkRunner id (reg_path plugin) config in
  lift (runner_load env runner) ;;
  let alias := alias_or_name plugin manifest in
  let details :=
    mkDetails alias (reg_path plugin) (JsObject.Found manifest) in
  runner <-
    try_catch
      (configSchema <- lift (runner_getSchema env runner "config") ;;
       match configSchema with
       | Some schema =>
           parsed <- lift (schema config) ;;
           ret (mkRunner id (reg_path plugin) parsed)
       | None => ret runner
       end)
      (fun e =>
         match e with
         | ZodError issues =>
             throw (RegistryError
                      ("Invalid plugin config: " ++ newline
                         ++ String.concat newline issues)
                      details e)
         | _ => throw (RegistryError "Failed to parse plugin config"
                         details e)
         end) ;;
  let loaded := mkLoaded id alias runner manifest in
  try_catch
    (lift (runner_initialize env runner))
    (fun e =>
       throw (RegistryError
                ("Failed to initialize plugin '" ++ manifest_name manifest
                   ++ "'")
                details e)) ;;
  let instance := getInstance loaded in
  withTransaction
    (state <- findOne alias ;;
     match state with
     | Some _ => ret tt
     | None =>
         save (mkState id manifest (loaded_alias loaded)) ;;
         runTask instance "bootstrap"
     end) ;;
  modify_registry (fun r =>
    index_by_type alias loaded
      (with_plugins (JsObject.set alias loaded (plugins r)) r)).

(** What [getInstance] throws on a value without a [manifest]: the read
    of [plugin.manifest.type]. *)
Definition TypeError_manifest_type : Exn :=
  OtherError
    "TypeError: Cannot read properties of undefined (reading 'type')".

(** [deletePlugin(alias)]: the transaction that deletes the state
    document is started and not awaited.  A falsy read returns at once.
    A truthy value that is not a loaded plugin goes to [getInstance]
    like one: a string, a manifest, [Object.prototype] and its functions
    have no [manifest], and the read of its [type] throws. *)
Definition deletePlugin (alias : string) : M unit :=
  plugin <- gets (fun h => plugin_lookup alias (plugins (registry h))) ;;
  let finish :=
    withTransaction_detached (DeleteOneByAlias alias) ;;
    modify_registry (fun r =>
      with_plugins (JsObject.delete alias (plugins r)) r) in
  match plugin with
  | JsObject.Undefined => ret tt
  | JsObject.Found plugin =>
      let instance := getInstance plugin in
      runTask instance "destroy" ;;
      finish
  | JsObject.Field (StringField s) =>
      if nonempty s then throw TypeError_manifest_type else ret tt
  | JsObject.Field (RunnerField runner) =>
      lift (destroy_on_runner env runner) ;;
      finish
  | JsObject.Field (ManifestField _) | JsObject.Builtin _
  | JsObject.ObjectPrototype =>
      throw TypeError_manifest_type
  end.

(** [getPlugins(type?)]; an empty [type] is falsy and filters nothing. *)
Definition getPlugins (type : option string) : M (list PluginInfo) :=
  all <- gets (fun h =>
    map (fun entry =>
           let plugin := snd entry in
           let manifest := loaded_manifest plugin in
           mkInfo (fst entry) (loaded_id plugin) (manifest_type manifest)
             (manifest_name manifest) (manifest_displayName manifest)
             match manifest_description manifest with
             | Some d => d
             | None => ""
             end
             (manifest_version manifest))
        (JsObject.entries (plugins (registry h)))) ;;
  match type with
  | Some t =>
      if String.eqb t "" then ret all
      else ret (filter (fun info => String.eqb (info_type info) t) all)
  | None => ret all
  end.

(** [getPluginById(id)] *)
Definition getPluginById (id : string) : M (option LoadedPlugin) :=
  gets (fun h =>
    find (fun plugin => String.eqb (loaded_id plugin) id)
         (JsObject.values (plugins (registry h)))).

(** [getStorage()] and [getDatabase()]: the first value of the table. *)
Definition getStorage : M (option LoadedPlugin) :=
  gets (fun h => hd_error (JsObject.values (storage (registry h)))).

Definition getDatabase : M (option LoadedPlugin) :=
  gets (fun h => hd_error (JsObject.values (database (registry h)))).

(** The capability lookups: [return this.<table>[alias]]. *)
Definition getProvider (alias : string) : M PluginLookup :=
  gets (fun h => plugin_lookup alias (providers (registry h))).

Definition getFileParser (alias : string) : M PluginLookup :=
  gets (fun h => plugin_lookup alias (fileParsers (registry h))).

Definition getEnhancer (alias : string) : M PluginLookup :=
  gets (fun h => plugin_lookup alias (enhancers (registry h))).

Definition getGenerative (alias : string) : M PluginLookup :=
  gets (fun h => plugin_lookup alias (generative (registry h))).

Definition getTextVectorizer (alias : string) : M PluginLookup :=
  gets (fun h => plugin_lookup alias (textVectorizers (registry h))).

Definition getImageVectorizer (alias : string) : M PluginLookup :=
  gets (fun h => plugin_lookup alias (imageVectorizers (registry h))).

Definition getMultimodalVectorizer (alias : string) : M PluginLookup :=
  gets (fun h => plugin_lookup alias (multimodalVectorizers (registry h))).

Definition getReranker (alias : string) : M PluginLookup :=
  gets (fun h => plugin_lookup alias (rerankers (registry h))).

(** [plugin.manifest.runtime === 'service'] *)
Definition is_service (plugin : LoadedPlugin) : bool :=
  match manifest_runtime (loaded_manifest plugin) with
  | Some r => String.eqb r "service"
  | None => false
  end.

Definition service_details (plugin : LoadedPlugin) : ErrorDetails :=
  mkDetails (loaded_alias plugin) (pluginPath (loaded_runner plugin))
    (JsObject.Found (loaded_manifest plugin)).

(** [startServices()] *)
Definition startServices : M unit :=
  all <- gets (fun h => JsObject.values (plugins (registry h))) ;;
  for_of all (fun plugin =>
    try_catch
      (if is_service plugin
       then runTask (getInstance plugin) "startService"
       else ret tt)
      (fun error =>
         throw (RegistryError "Failed to start plugin service"
                  (service_details plugin) error))).

(** [stopServices()]: the error is written to the console and dropped. *)
Definition stopServices : M unit :=
  all <- gets (fun h => JsObject.values (plugins (registry h))) ;;
  for_of all (fun plugin =>
    try_catch
      (if is_service plugin
       then runTask (getInstance plugin) "stopService"
       else ret tt)
      (fun error => ret tt)).

(** A loop that pushes onto the local [errors] array. *)
Fixpoint for_of_errors {A : Type} (xs : list A) (errors : list Exn)
    (body : A -> list Exn -> M (list Exn)) : M (list Exn) :=
  match xs with
  | [] => ret errors
  | x :: rest =>
      errors' <- body x errors ;;
      for_of_errors rest errors' body
  end.

(** [register(plugins)]: the result is [registrationErrors]. *)
Definition register (plugins : list Registration) : M (list Exn) :=
  errors <-
    for_of_errors plugins [] (fun plugin errors =>
      try_catch
        (let id := uuid_v5_URL env (reg_alias plugin) in
         manifest <- lift (runner_getManifest env
                             (mkRunner id (reg_path plugin) [])) ;;
         modify_registry (fun r =>
           with_manifests
             (JsObject.set (reg_alias plugin) manifest (_manifests r)) r) ;;
         ret errors)
        (fun e =>
           if instanceof_RegistryError e then ret (errors ++ [e])
           else ret errors)) ;;
  for_of_errors plugins errors (fun plugin errors =>
    try_catch
      (registerPlugin plugin ;; ret errors)
      (fun error =>
         if instanceof_RegistryError error then ret (errors ++ [error])
         else
           cached <- gets (fun h =>
             or_undefined
               (manifest_lookup (reg_alias plugin)
                  (_manifests (registry h)))) ;;
           ret (errors ++
                  [RegistryError "Failed to register plugin"
                     (mkDetails (reg_alias plugin) (reg_path plugin) cached)
                     error]))).

End Registry.

(* ===================================================================== *)
(** ** Vocabulary of the statements *)
(* ===================================================================== *)

(** The flat table and the ten capability tables agree. *)
Definition same_tables (r r' : PluginRegistry) : Prop :=
  plugins r' = plugins r /\
  providers r' = providers r /\
  fileParsers r' = fileParsers r /\
  storage r' = storage r /\
  database r' = database r /\
  enhancers r' = enhancers r /\
  generative r' = generative r /\
  rerankers r' = rerankers r /\
  textVectorizers r' = textVectorizers r /\
  imageVectorizers r' = imageVectorizers r /\
  multimodalVectorizers r' = multimodalVectorizers r.

(** The ten capability tables agree (the flat table may differ). *)
Definition same_capability_tables (r r' : PluginRegistry) : Prop :=
  providers r' = providers r /\
  fileParsers r' = fileParsers r /\
  storage r' = storage r /\
  database r' = database r /\
  enhancers r' = enhancers r /\
  generative r' = generative r /\
  rerankers r' = rerankers r /\
  textVectorizers r' = textVectorizers r /\
  imageVectorizers r' = imageVectorizers r /\
  multimodalVectorizers r' = multimodalVectorizers r.

(** The table holds a binding of the alias: the code assigned under it
    and did not delete it since. *)
Definition has_key {V : Type} (k : string) (o : JsObject.t V) : Prop :=
  In k (map fst o).

(** The collection holds a document for the identity / for the alias. *)
Definition has_state_for_id (id : string) (docs : list PluginStateDocument)
    : Prop :=
  exists d, In d docs /\ state_id d = id.

Definition has_state_for_alias (alias : string)
    (docs : list PluginStateDocument) : Prop :=
  exists d, In d docs /\ state_alias d = alias.

(** The host with further invocations on its trace. *)
Definition add_calls (calls : list TaskCall) (h : Host) : Host :=
  with_trace (trace h ++ calls) h.

(** The hosts that differ from [h] in the manifest cache only. *)
Definition manifests_only (h h' : Host) : Prop :=
  exists cache, h' = with_registry (with_manifests cache (registry h)) h.

(** The plugin is registered under the alias. *)
Definition registered (alias : string) (h : Host) : Prop :=
  exists loaded,
    JsObject.stored alias (plugins (registry h)) = Some loaded /\
    loaded_alias loaded = alias.

Section Vocabulary.

Variable env : Env.

(** [uuid.v5(plugin.alias, uuid.v5.URL)], the identity of a declaration. *)
Definition identity (plugin : Registration) : string :=
  uuid_v5_URL env (reg_alias plugin).

(** The invocation of [task] on [plugin] as the trace records it. *)
Definition call_of (task : string) (plugin : LoadedPlugin) : TaskCall :=
  mkCall (loaded_alias plugin) task
    match runner_runTask env (loaded_runner plugin) task with
    | Ok _ => true
    | Throw _ => false
    end.

(** Every document is keyed by the identity of its alias. *)
Definition keyed_by_identity (docs : list PluginStateDocument) : Prop :=
  forall d, In d docs -> state_id d = uuid_v5_URL env (state_alias d).

(** The configuration [registerPlugin] resolves for a declaration, given
    the manifest lookup handed to the custom loader. *)
Definition resolve_config (lookup : string -> ManifestLookup)
    (plugin : Registration) (manifest : PluginManifest) : Res Config :=
  match configLoader env with
  | Some loader =>
      match loader plugin manifest lookup with
      | Ok (Some c) => Ok c
      | Ok None => defaultConfigLoader plugin manifest
      | Throw e => Throw e
      end
  | None => defaultConfigLoader plugin manifest
  end.

(** The steps of [registerPlugin] from the configuration to [initialize],
    read as one function of the environment: they touch no host state.
    [registerPlugin_steps] shows that [registerPlugin] runs exactly
    these. *)
Definition prepare (lookup : string -> ManifestLookup)
    (plugin : Registration) (manifest : PluginManifest) : Res LoadedPlugin :=
  let id := identity plugin in
  let alias := alias_or_name plugin manifest in
  let details :=
    mkDetails alias (reg_path plugin) (JsObject.Found manifest) in
  match resolve_config lookup plugin manifest with
  | Throw e => Throw e
  | Ok config =>
      let runner := mkRunner id (reg_path plugin) config in
      match runner_load env runner with
      | Throw e => Throw e
      | Ok _ =>
          let validated :=
            match runner_getSchema env runner "config" with
            | Throw e => Throw e
            | Ok None => Ok runner
            | Ok (Some schema) =>
                match schema config with
                | Throw e => Throw e
                | Ok parsed => Ok (mkRunner id (reg_path plugin) parsed)
                end
            end in
          match validated with
          | Throw (ZodError issues) =>
              Throw (RegistryError
                       ("Invalid plugin config: " ++ newline
                          ++ String.concat newline issues)
                       details (ZodError issues))
          | Throw e =>
              Throw (RegistryError "Failed to parse plugin config" details e)
          | Ok runner' =>
              match runner_initialize env runner' with
              | Throw e =>
                  Throw (RegistryError
                           ("Failed to initialize plugin '"
                              ++ manifest_name manifest ++ "'")
                           details e)
              | Ok _ => Ok (mkLoaded id alias runner' manifest)
              end
          end
      end
  end.

(** The host with [loaded] put in the flat table and in the table of its
    type: the closing assignments of [registerPlugin]. *)
Definition index_plugin (loaded : LoadedPlugin) (h : Host) : Host :=
  with_registry
    (index_by_type (loaded_alias loaded) loaded
       (with_plugins
          (JsObject.set (loaded_alias loaded) loaded (plugins (registry h)))
          (registry h)))
    h.

(** The state document [registerPlugin] creates for a loaded plugin. *)
Definition state_of (loaded : LoadedPlugin) : PluginStateDocument :=
  mkState (loaded_id loaded) (loaded_manifest loaded) (loaded_alias loaded).

(** The outcome of the transactional bootstrap check and of the closing
    assignments for a loaded plugin.  [registerPlugin_steps] shows that
    [registerPlugin] ends in exactly this way. *)
Definition bootstrap_and_index (loaded : LoadedPlugin) (h : Host)
    : Res unit * Host :=
  let alias := loaded_alias loaded in
  match find (fun d => String.eqb (state_alias d) alias) (pluginState h) with
  | Some _ => (Ok tt, index_plugin loaded (with_uncommitted [] h))
  | None =>
      if existsb (fun d => String.eqb (state_id d) (loaded_id loaded))
                 (pluginState h)
      then (Throw (OtherError "E11000 duplicate key error"),
            with_uncommitted [] h)
      else
        match runner_runTask env (loaded_runner loaded) "bootstrap" with
        | Ok _ =>
            (Ok tt,
             index_plugin loaded
               (with_pluginState (pluginState h ++ [state_of loaded])
                  (add_calls [mkCall alias "bootstrap" true]
                     (with_uncommitted [] h))))
        | Throw e =>
            (Throw e,
             add_calls [mkCall alias "bootstrap" false]
               (with_uncommitted [] h))
        end
  end.

(** The host with the manifest cached under the alias of the
    declaration. *)
Definition cache_manifest (plugin : Registration) (manifest : PluginManifest)
    (h : Host) : Host :=
  with_registry
    (with_manifests
       (JsObject.set (reg_alias plugin) manifest (_manifests (registry h)))
       (registry h))
    h.

(** The manifest the runner reports for a declaration. *)
Definition manifest_of (plugin : Registration) : Res PluginManifest :=
  runner_getManifest env (mkRunner (identity plugin) (reg_path plugin) []).

(** The alias a declaration is registered under. *)
Definition effective_alias (plugin : Registration) : string :=
  match manifest_of plugin with
  | Ok manifest => alias_or_name plugin manifest
  | Throw _ => reg_alias plugin
  end.

(** A declaration whose every step succeeds: manifest, configuration,
    load, schema validation, initialize and the bootstrap task. *)
Definition registers_cleanly (plugin : Registration) : Prop :=
  exists manifest,
    manifest_of plugin = Ok manifest /\
    forall lookup, exists loaded,
      prepare lookup plugin manifest = Ok loaded /\
      runner_runTask env (loaded_runner loaded) "bootstrap" = Ok tt.

(** No clash on the unique [_id]: a document that carries the identity of
    the declaration carries its alias too. *)
Definition id_agrees_with_alias (plugin : Registration)
    (docs : list PluginStateDocument) : Prop :=
  forall d, In d docs -> state_id d = identity plugin ->
            state_alias d = effective_alias plugin.

(** No clash on the unique [_id] within a batch and with the collection:
    declarations with the same identity share their alias, and a
    document that carries the identity of a declaration carries its
    alias. *)
Definition no_identity_clash (batch : list Registration)
    (docs : list PluginStateDocument) : Prop :=
  (forall p q, In p batch -> In q batch ->
     identity p = identity q -> effective_alias p = effective_alias q) /\
  (forall p, In p batch -> id_agrees_with_alias p docs).

(** The body of the first loop of [register]. *)
Definition resolve_manifest_step (plugin : Registration) (errors : list Exn)
    : M (list Exn) :=
  try_catch
    (let id := uuid_v5_URL env (reg_alias plugin) in
     manifest <- lift (runner_getManifest env
                         (mkRunner id (reg_path plugin) [])) ;;
     modify_registry (fun r =>
       with_manifests
         (JsObject.set (reg_alias plugin) manifest (_manifests r)) r) ;;
     ret errors)
    (fun e =>
       if instanceof_RegistryError e then ret (errors ++ [e])
       else ret errors).

(** The body of the second loop of [register]. *)
Definition register_step (plugin : Registration) (errors : list Exn)
    : M (list Exn) :=
  try_catch
    (registerPlugin env plugin ;; ret errors)
    (fun error =>
       if instanceof_RegistryError error then ret (errors ++ [error])
       else
         cached <- gets (fun h =>
           or_undefined
             (manifest_lookup (reg_alias plugin)
                (_manifests (registry h)))) ;;
         ret (errors ++
                [RegistryError "Failed to register plugin"
                   (mkDetails (reg_alias plugin) (reg_path plugin) cached)
                   error])).

End Vocabulary.

(* ===================================================================== *)
(** ** Vocabulary of the further properties *)
(* ===================================================================== *)

(** The capability table [registerPlugin] assigns for a manifest type,
    read off its chain of comparisons; a type outside the ten has none. *)
Definition capability_table (type : string)
    : option (PluginRegistry -> JsObject.t LoadedPlugin) :=
  if String.eqb type "provider" then Some providers
  else if String.eqb type "file_parser" then Some fileParsers
  else if String.eqb type "storage" then Some storage
  else if String.eqb type "database" then Some database
  else if String.eqb type "text_vectorizer" then Some textVectorizers
  else if String.eqb type "image_vectorizer" then Some imageVectorizers
  else if String.eqb type "multimodal_vectorizer" then
    Some multimodalVectorizers
  else if String.eqb type "reranker" then Some rerankers
  else if String.eqb type "generative" then Some generative
  else if String.eqb type "enhancer" then Some enhancers
  else None.

(** The ten manifest types with a capability table. *)
Definition capability_types : list string :=
  ["provider"; "file_parser"; "storage"; "database"; "text_vectorizer";
   "image_vectorizer"; "multimodal_vectorizer"; "reranker"; "generative";
   "enhancer"].

(** The alias is held by the capability table of the manifest type, if
    the type has one, with a plugin of that alias and type. *)
Definition indexed (alias type : string) (h : Host) : Prop :=
  forall table, capability_table type = Some table ->
    exists loaded,
      JsObject.stored alias (table (registry h)) = Some loaded /\
      loaded_alias loaded = alias /\
      manifest_type (loaded_manifest loaded) = type.

(** A table whose keys are distinct and whose every plugin is stored
    under its own alias. *)
Definition well_keyed (table : JsObject.t LoadedPlugin) : Prop :=
  NoDup (map fst table) /\
  forall k v, In (k, v) table -> loaded_alias v = k.

(** The flat table and the ten capability tables are well keyed. *)
Definition registry_well_keyed (r : PluginRegistry) : Prop :=
  well_keyed (plugins r) /\
  forall type table, capability_table type = Some table ->
                     well_keyed (table r).

(** No key of the table is an array index. *)
Definition no_index_keys {V : Type} (o : JsObject.t V) : Prop :=
  forall k, In k (map fst o) -> JsObject.array_index k = None.

(** The catalog entry [getPlugins] builds for a table entry. *)
Definition info_of (alias : string) (plugin : LoadedPlugin) : PluginInfo :=
  let manifest := loaded_manifest plugin in
  mkInfo alias (loaded_id plugin) (manifest_type manifest)
    (manifest_name manifest) (manifest_displayName manifest)
    match manifest_description manifest with
    | Some d => d
    | None => ""
    end
    (manifest_version manifest).

(* ===================================================================== *)
(** ** The generative module *)
(* ===================================================================== *)

(** [Generative]: the table of models the generative plugins support and
    the choice of the plugin that answers a request.  The prompt
    templating of the same class (formatters, JSONPath and regular
    expressions) is not modelled. *)
Module Generative.

(** [ModelSpec], of which the module reads the [name]. *)
Record ModelSpec : Type := mkModel {
  model_name : string;
  model_details : string
}.

(** An entry of [_models]: [{ provider, model }]. *)
Record ProviderModel : Type := mkProviderModel {
  provider : string;
  model : ModelSpec
}.

(** [_models]: model name to the providers that listed it.  No prototype
    is ever assigned to it: [init] assigns only under names that read as
    falsy, and [__proto__] never does. *)
Definition Models : Type := JsObject.t (list ProviderModel).

(** [this._models[name]]: the table is made by [{}] and its prototype is
    never assigned, so a read past the own properties reaches
    [Object.prototype]. *)
Definition models_lookup (name : string) (table : Models)
    : JsObject.Lookup (list ProviderModel) Empty_set :=
  JsObject.lookup (fun _ _ => None) name table.

(** [ctx.settings.generative]: the default provider and its options. *)
Record Settings : Type := mkSettings {
  settings_name : string;
  settings_options : JsObject.t string
}.

(** [params.alias], [params.model]: absent or empty is falsy. *)
Definition truthy (s : option string) : option string :=
  match s with
  | Some v => if String.eqb v "" then None else Some v
  | None => None
  end.

(** [_models[name]], without entries when the code stored none. *)
Definition providers_of (name : string) (table : Models)
    : list ProviderModel :=
  match JsObject.stored name table with
  | Some l => l
  | None => []
  end.

(** What [_getPlugin] returns, [new GenerativePluginInstance(plugin, {},
    resources)]: an instance of the loaded plugin the table held, or an
    instance constructed over whatever else the read found.  Modelled
    from the spec: the constructor is that of the base class, which is
    not at hand; construction has no side effect and the instance only
    keeps a reference to what it is given. *)
Inductive Provider : Type :=
| InstanceOf (instance : PluginInstance)
| InstanceOver (found : PluginLookup).

(** [x.push is not a function], [models.find is not a function] *)
Definition TypeError_push : Exn :=
  OtherError "TypeError: this._models[model.name].push is not a function".

Definition TypeError_find : Exn :=
  OtherError "TypeError: models.find is not a function".

Section WithPlugins.

Variable env : Env.

(** Modelled from the spec: [GenerativePluginInstance] is defined in a
    file of the library that is not at hand; its method
    [getSupportedModels] delegates to the task of that name of the
    plugin, whose outcome is read here: the [models] it lists, or the
    error it throws. *)
Variable getSupportedModels : LoadedPlugin -> Res (list ModelSpec).

(** The inner loop of [init]: [_models[model.name]] is created empty when
    it reads as falsy, then the entry is pushed.  A name that reads as a
    function of [Object.prototype], or [__proto__], is truthy and no
    array: nothing is created and [push] is no function of it. *)
Fixpoint push_models (alias : string) (models : list ModelSpec)
    (table : Models) : Res unit * Models :=
  match models with
  | [] => (Ok tt, table)
  | m :: rest =>
      match models_lookup (model_name m) table with
      | JsObject.Undefined =>
          push_models alias rest
            (JsObject.set (model_name m) ([] ++ [mkProviderModel alias m])
               table)
      | JsObject.Found listed =>
          push_models alias rest
            (JsObject.set (model_name m) (listed ++ [mkProviderModel alias m])
               table)
      | JsObject.Builtin _ | JsObject.ObjectPrototype =>
          (Throw TypeError_push, table)
      | JsObject.Field f => match f with end
      end
  end.

(** The outer loop of [init]; an error ends it with the table filled so
    far. *)
Fixpoint init_loop (plugins : list LoadedPlugin) (table : Models)
    : Res unit * Models :=
  match plugins with
  | [] => (Ok tt, table)
  | plugin :: rest =>
      match getSupportedModels plugin with
      | Ok models =>
          match push_models (loaded_alias plugin) models table with
          | (Ok _, table') => init_loop rest table'
          | (Throw e, table') => (Throw e, table')
          end
      | Throw e => (Throw e, table)
      end
  end.

(** [init()] *)
Definition init (h : Host) (table : Models) : Res unit * Models :=
  init_loop (JsObject.values (generative (registry h))) table.

(** [_getPlugin(alias)]; the lookup is the registry's [getGenerative]. *)
Definition _getPlugin (alias : string) : M Provider :=
  plugin <- getGenerative alias ;;
  match plugin with
  | JsObject.Found plugin =>
      ret (InstanceOf (new_instance env GenerativePluginInstance plugin []))
  | found =>
      if JsObject.truthy field_truthy found then ret (InstanceOver found)
      else throw (OtherError ("unknown generative plugin: " ++ alias))
  end.

(** [Generative.getGenerative(params)].  A model name that reads as a
    function of [Object.prototype] is truthy: it is unknown when the
    [length] of the function is 0, and otherwise, as for [__proto__],
    [find] is no function of it. *)
Definition getGenerative (settings : option Settings) (table : Models)
    (alias model : option string) : M Provider :=
  match settings with
  | None => throw (OtherError "generative module not configured")
  | Some config =>
      match truthy alias with
      | Some a => _getPlugin a
      | None =>
          match truthy model with
          | None => _getPlugin (settings_name config)
          | Some name =>
              match models_lookup name table with
              | JsObject.Undefined | JsObject.Found [] =>
                  throw (OtherError ("unknown model: " ++ name))
              | JsObject.Found (first :: others) =>
                  match find (fun m =>
                                String.eqb (provider m) (settings_name config))
                             (first :: others) with
                  | Some _ => _getPlugin (settings_name config)
                  | None => _getPlugin (provider first)
                  end
              | JsObject.Builtin f =>
                  match JsObject.function_length f with
                  | Some O => throw (OtherError ("unknown model: " ++ name))
                  | _ => throw TypeError_find
                  end
              | JsObject.ObjectPrototype => throw TypeError_find
              | JsObject.Field f => match f with end
              end
          end
      end
  end.

(** The entries [init] adds under a model name for a list of plugins:
    for each plugin in turn, one entry per model of that name it lists. *)
Fixpoint listed_under (name : string) (plugins : list LoadedPlugin)
    : list ProviderModel :=
  match plugins with
  | [] => []
  | plugin :: rest =>
      match getSupportedModels plugin with
      | Ok models =>
          map (mkProviderModel (loaded_alias plugin))
              (filter (fun m => String.eqb (model_name m) name) models)
          ++ listed_under name rest
      | Throw _ => []
      end
  end.

(** The plugin lists a model of the name. *)
Definition supports (plugin : LoadedPlugin) (name : string) : Prop :=
  exists models m,
    getSupportedModels plugin = Ok models /\
    In m models /\ model_name m = name.

(** Every model a plugin of the list lists has a plain name. *)
Definition plain_models (plugins : list LoadedPlugin) : Prop :=
  forall plugin models m,
    In plugin plugins -> getSupportedModels plugin = Ok models ->
    In m models -> JsObject.plain (model_name m) = true.

End WithPlugins.

End Generative.

(* ===================================================================== *)
(** ** The source service *)
(* ===================================================================== *)

(** [SourceService]: the sources collection, the guards of its
    operations and what each hands to the provider of the source and to
    the indexing service.  Timestamps and [listSources],
    [listEntrypoints] are not modelled. *)
Module SourceService.

(** What the service throws: a [BadRequestException], or what a
    collaborator threw, an [Error] with its message or another value. *)
Inductive ServiceError : Type :=
| BadRequestException (message : string)
| ErrorThrown (message : string)
| ValueThrown.

(** [error instanceof Error ? error.message : 'Unknown error'] *)
Definition errorMessage (error : ServiceError) : string :=
  match error with
  | BadRequestException message => message
  | ErrorThrown message => message
  | ValueThrown => "Unknown error"
  end.

Inductive SRes (A : Type) : Type :=
| Returned (a : A)
| Thrown (e : ServiceError).
Arguments Returned {A} a.
Arguments Thrown {A} e.

(** A document of the sources collection, as [_getSource] reads it. *)
Record Source : Type := mkSource {
  source_id : string;
  source_name : string;
  source_state : string;
  source_provider : string;
  source_connected : bool;
  source_initialized : bool;
  source_entrypoint : option string;
  source_credentials : option string;
  source_providerState : option string;
  source_entrypointOptions : option string
}.

(** [scheduleIndexingJob] and [scheduleDeleteSourceJob] requests. *)
Inductive Job : Type :=
| IndexingJob (sourceId type : string) (force : bool) (jobId : string)
| DeleteSourceJob (sourceId : string).

(** The failures of [scheduleIndexingJob]. *)
Inductive IndexingFailure : Type :=
| SOURCE_BUSY
| OtherFailure (name : string).

(** [Result]: [ok(value)] or [err(failure)]. *)
Inductive Result (A : Type) : Type :=
| ok (value : A)
| err (failure : IndexingFailure).
Arguments ok {A} value.
Arguments err {A} failure.

(** A call made on the provider of a source. *)
Inductive ProviderCall : Type :=
| CallConnect (sourceId : string)
| CallVerifyConnection (sourceId : string)
| CallHandleEntrypointUpdate (sourceId : string).

(** [provider.verifyConnection] result. *)
Record Verification : Type := mkVerification {
  isValid : bool;
  credentials : option string
}.

(** The collaborators: the id and the schema defaults of a new document,
    the providers module, the providers themselves (a missing [state]
    of [connect] is the empty object, and the result of
    [handleEntrypointUpdate] is read by its [entrypoint]), the indexing
    service and [uuid.v4], read as the n-th value it draws. *)
Record Collaborators : Type := mkCollaborators {
  new_document : list Source -> Source;
  resolve_provider : Host -> Source -> SRes unit;
  provider_connect : Source -> option string -> string -> SRes string;
  provider_verifyConnection :
    Source -> bool -> string -> SRes Verification;
  provider_handleEntrypointUpdate : Source -> string -> SRes string;
  scheduleIndexingJob : Job -> Result string;
  uuid_v4 : nat -> string
}.

(** The application: the registry host, the sources collection, the jobs
    handed to the indexing service, the calls made on providers, and
    the number of uuids drawn. *)
Record App : Type := mkApp {
  host : Host;
  sources : list Source;
  jobs : list Job;
  provider_calls : list ProviderCall;
  uuids_drawn : nat
}.

Definition Service (A : Type) : Type := App -> SRes A * App.

Definition sret {A : Type} (a : A) : Service A := fun app => (Returned a, app).

Definition sthrow {A : Type} (e : ServiceError) : Service A :=
  fun app => (Thrown e, app).

Definition sbind {A B : Type} (m : Service A) (k : A -> Service B)
    : Service B :=
  fun app =>
    match m app with
    | (Returned a, app') => k a app'
    | (Thrown e, app') => (Thrown e, app')
    end.

(** [try { m } catch (error) { handler error }] *)
Definition stry {A : Type} (m : Service A) (handler : ServiceError -> Service A)
    : Service A :=
  fun app =>
    match m app with
    | (Returned a, app') => (Returned a, app')
    | (Thrown e, app') => handler e app'
    end.

Definition slift {A : Type} (r : SRes A) : Service A := fun app => (r, app).

Declare Scope service_scope.
Delimit Scope service_scope with service.
Notation "x <-- m ;; k" := (sbind m (fun x => k))
  (at level 100, m at next level, right associativity) : service_scope.
Notation "m ;;; k" := (sbind m (fun _ => k))
  (at level 100, right associativity) : service_scope.
Local Open Scope service_scope.

Definition with_sources (s : list Source) (app : App) : App :=
  mkApp (host app) s (jobs app) (provider_calls app) (uuids_drawn app).

Definition with_host (h : Host) (app : App) : App :=
  mkApp h (sources app) (jobs app) (provider_calls app) (uuids_drawn app).

(** [sourceModel.findById(sourceId)] *)
Definition findById (sourceId : string) (collection : list Source)
    : option Source :=
  find (fun s => String.eqb (source_id s) sourceId) collection.

(** The update of [verifyConnection]:
    [{ connected: true, ...(res.credentials && { credentials }) }]. *)
Definition connected_update (credentials : option string) (s : Source)
    : Source :=
  mkSource (source_id s) (source_name s) (source_state s)
    (source_provider s) true (source_initialized s) (source_entrypoint s)
    match credentials with
    | Some c => Some c
    | None => source_credentials s
    end
    (source_providerState s) (source_entrypointOptions s).

(** The update of [setEntrypoint]:
    [{ entrypoint: res.entrypoint, entrypointOptions: body.entrypoint }]. *)
Definition entrypoint_update (res entrypoint : string) (s : Source)
    : Source :=
  mkSource (source_id s) (source_name s) (source_state s)
    (source_provider s) (source_connected s) (source_initialized s)
    (Some res) (source_credentials s) (source_providerState s)
    (Some entrypoint).

(** [source.updateOne(update)]: the document with the id is replaced. *)
Definition updateOne (id : string) (update : Source -> Source) : Service unit :=
  fun app =>
    (Returned tt,
     with_sources
       (map (fun s => if String.eqb (source_id s) id then update s else s)
            (sources app))
       app).

(** [source.deleteOne()] *)
Definition deleteOne (id : string) : Service unit :=
  fun app =>
    (Returned tt,
     with_sources
       (filter (fun s => negb (String.eqb (source_id s) id)) (sources app))
       app).

Definition record_call (c : ProviderCall) : Service unit :=
  fun app =>
    (Returned tt,
     mkApp (host app) (sources app) (jobs app) (provider_calls app ++ [c])
       (uuids_drawn app)).

Definition record_job (j : Job) : Service unit :=
  fun app =>
    (Returned tt,
     mkApp (host app) (sources app) (jobs app ++ [j]) (provider_calls app)
       (uuids_drawn app)).

Section WithCollaborators.

Variable co : Collaborators.

(** [uuid.v4()] *)
Definition draw_uuid : Service string :=
  fun app =>
    (Returned (uuid_v4 co (uuids_drawn app)),
     mkApp (host app) (sources app) (jobs app) (provider_calls app)
       (S (uuids_drawn app))).

(** [create({ body })]: the provider is looked up in the registry, and
    whatever truthy value the lookup gives passes the guard. *)
Definition create (name provider : string) : Service Source :=
  fun app =>
    match fst (getProvider provider (host app)) with
    | Ok found =>
        if JsObject.truthy field_truthy found then
          let defaults := new_document co (sources app) in
          let doc :=
            mkSource (source_id defaults) name (source_state defaults)
              provider
              (source_connected defaults) (source_initialized defaults)
              (source_entrypoint defaults) (source_credentials defaults)
              (source_providerState defaults)
              (source_entrypointOptions defaults) in
          (Returned doc, with_sources (sources app ++ [doc]) app)
        else (Thrown (BadRequestException "Provider not found"), app)
    | Throw _ => (Thrown ValueThrown, app)
    end.

(** [_getSource(sourceId)]: the document and its provider. *)
Definition _getSource (sourceId : string) : Service Source :=
  fun app =>
    match findById sourceId (sources app) with
    | None => (Thrown (BadRequestException "Source not found"), app)
    | Some doc =>
        match resolve_provider co (host app) doc with
        | Returned _ => (Returned doc, app)
        | Thrown e => (Thrown e, app)
        end
    end.

(** [connect({ sourceId, body })] *)
Definition connect (sourceId : string) (state : option string)
    (redirectUrl : string) : Service string :=
  source <-- _getSource sourceId ;;
  record_call (CallConnect sourceId) ;;;
  slift (provider_connect co source state redirectUrl).

(** [delete({ sourceId })] *)
Definition delete (sourceId : string) : Service unit :=
  source <-- _getSource sourceId ;;
  record_job (DeleteSourceJob sourceId) ;;;
  deleteOne (source_id source).

(** [verifyConnection({ sourceId, body })] *)
Definition verifyConnection (sourceId : string) (reconnect : bool)
    (payload : string) : Service bool :=
  source <-- _getSource sourceId ;;
  stry
    (record_call (CallVerifyConnection sourceId) ;;;
     res <-- slift (provider_verifyConnection co source reconnect payload) ;;
     if isValid res then
       updateOne (source_id source) (connected_update (credentials res)) ;;;
       sret true
     else sthrow (BadRequestException "Invalid connection"))
    (fun error => sthrow (BadRequestException (errorMessage error))).

(** [setEntrypoint({ sourceId, body })] *)
Definition setEntrypoint (sourceId : string) (entrypoint : string)
    : Service string :=
  source <-- _getSource sourceId ;;
  if negb (String.eqb (source_state source) "idle")
     || source_initialized source
  then sthrow (BadRequestException
    "Cannot set entrypoint while source is already initialized or being indexed.")
  else
    stry
      (record_call (CallHandleEntrypointUpdate sourceId) ;;;
       res <-- slift (provider_handleEntrypointUpdate co source entrypoint) ;;
       updateOne (source_id source) (entrypoint_update res entrypoint) ;;;
       sret res)
      (fun error => sthrow (BadRequestException (errorMessage error))).

(** [this.indexingService.scheduleIndexingJob(job)] *)
Definition schedule (job : Job) : Service (Result string) :=
  record_job job ;;; sret (scheduleIndexingJob co job).

(** [initSource({ sourceId })]: a failure other than [SOURCE_BUSY] falls
    through the [switch] and the result is [undefined]. *)
Definition initSource (sourceId : string) : Service (option string) :=
  _getSource sourceId ;;;
  jobId <-- draw_uuid ;;
  result <-- schedule (IndexingJob sourceId "init" false jobId) ;;
  match result with
  | ok value => sret (Some value)
  | err SOURCE_BUSY =>
      sthrow (BadRequestException "This source is already being indexed.")
  | err _ => sret None
  end.

(** [rebuildSource({ sourceId })] *)
Definition rebuildSource (sourceId : string) : Service (Result string) :=
  _getSource sourceId ;;;
  jobId <-- draw_uuid ;;
  schedule (IndexingJob sourceId "init" true jobId).

(** [updateSource({ sourceId })] *)
Definition updateSource (sourceId : string) : Service (Result string) :=
  source <-- _getSource sourceId ;;
  if negb (source_initialized source)
  then sthrow (BadRequestException "Source not initialized")
  else
    jobId <-- draw_uuid ;;
    schedule (IndexingJob sourceId "update" false jobId).

(** *** Vocabulary *)

(** A request to the service: one of the operations with its arguments. *)
Inductive Request : Type :=
| Create (name provider : string)
| Connect (sourceId : string) (state : option string) (redirectUrl : string)
| Delete (sourceId : string)
| VerifyConnection (sourceId : string) (reconnect : bool) (payload : string)
| SetEntrypoint (sourceId entrypoint : string)
| InitSource (sourceId : string)
| RebuildSource (sourceId : string)
| UpdateSource (sourceId : string).

(** The source a request is about. *)
Definition target (req : Request) : option string :=
  match req with
  | Create _ _ => None
  | Connect sourceId _ _ | Delete sourceId | VerifyConnection sourceId _ _
  | SetEntrypoint sourceId _ | InitSource sourceId | RebuildSource sourceId
  | UpdateSource sourceId => Some sourceId
  end.

Definition thrown {A : Type} (r : SRes A * App) : option ServiceError :=
  match fst r with
  | Returned _ => None
  | Thrown e => Some e
  end.

(** What serving the request throws, if it throws. *)
Definition failure_of (req : Request) (app : App) : option ServiceError :=
  match req with
  | Create name provider => thrown (create name provider app)
  | Connect sourceId state redirectUrl =>
      thrown (connect sourceId state redirectUrl app)
  | Delete sourceId => thrown (delete sourceId app)
  | VerifyConnection sourceId reconnect payload =>
      thrown (verifyConnection sourceId reconnect payload app)
  | SetEntrypoint sourceId entrypoint =>
      thrown (setEntrypoint sourceId entrypoint app)
  | InitSource sourceId => thrown (initSource sourceId app)
  | RebuildSource sourceId => thrown (rebuildSource sourceId app)
  | UpdateSource sourceId => thrown (updateSource sourceId app)
  end.

(** The application after the request was served. *)
Definition serve (req : Request) (app : App) : App :=
  match req with
  | Create name provider => snd (create name provider app)
  | Connect sourceId state redirectUrl =>
      snd (connect sourceId state redirectUrl app)
  | Delete sourceId => snd (delete sourceId app)
  | VerifyConnection sourceId reconnect payload =>
      snd (verifyConnection sourceId reconnect payload app)
  | SetEntrypoint sourceId entrypoint =>
      snd (setEntrypoint sourceId entrypoint app)
  | InitSource sourceId => snd (initSource sourceId app)
  | RebuildSource sourceId => snd (rebuildSource sourceId app)
  | UpdateSource sourceId => snd (updateSource sourceId app)
  end.

(** The application after the requests were served in turn. *)
Definition serve_all (requests : list Request) (app : App) : App :=
  fold_left (fun a req => serve req a) requests app.

(** The job ids of the indexing jobs among the jobs, in order. *)
Definition indexing_job_ids (l : list Job) : list string :=
  flat_map (fun j => match j with
                     | IndexingJob _ _ _ jobId => [jobId]
                     | DeleteSourceJob _ => []
                     end) l.

(** The i-th indexing job carries the i-th uuid drawn. *)
Definition job_ids_as_drawn (app : App) : Prop :=
  indexing_job_ids (jobs app) = map (uuid_v4 co) (seq 0 (uuids_drawn app)).

(** The request adds or removes documents. *)
Definition creates_or_deletes (req : Request) : bool :=
  match req with
  | Create _ _ | Delete _ => true
  | _ => false
  end.

(** What the service never writes of a document. *)
Definition fixed_fields (s : Source)
    : string * string * string * string * bool :=
  (source_id s, source_name s, source_provider s, source_state s,
   source_initialized s).

End WithCollaborators.

End SourceService.

(* ===================================================================== *)
(** ** A concrete environment *)
(* ===================================================================== *)

(** A small installation used to run the operations on concrete inputs:
    a reranker, a provider, three service plugins of which the second
    fails to start and to stop, a storage plugin whose bootstrap fails, a
    database plugin whose destroy fails, and a module without a usable
    manifest. *)
Module Sample.

Definition manifest (name type : string) (runtime : option string)
    : PluginManifest :=
  mkManifest name name None "1.0.0" type runtime.

Definition manifest_at (path : string) : Res PluginManifest :=
  if String.eqb path "plugins/reranker" then
    Ok (manifest "reranker-x" "reranker" None)
  else if String.eqb path "plugins/drive" then
    Ok (manifest "drive" "provider" None)
  else if String.eqb path "plugins/svc-a" then
    Ok (manifest "svc-a" "enhancer" (Some "service"))
  else if String.eqb path "plugins/svc-b" then
    Ok (manifest "svc-b" "enhancer" (Some "service"))
  else if String.eqb path "plugins/svc-c" then
    Ok (manifest "svc-c" "enhancer" (Some "service"))
  else if String.eqb path "plugins/no-boot" then
    Ok (manifest "no-boot" "storage" None)
  else if String.eqb path "plugins/no-destroy" then
    Ok (manifest "no-destroy" "database" None)
  else Throw (OtherError "ManifestError: cannot load module").

Definition task_at (path task : string) : Res unit :=
  if String.eqb path "plugins/svc-b" && String.eqb task "startService" then
    Throw (OtherError "port in use")
  else if String.eqb path "plugins/svc-b" && String.eqb task "stopService"
  then Throw (OtherError "not running")
  else if String.eqb path "plugins/no-boot" && String.eqb task "bootstrap"
  then Throw (OtherError "bucket missing")
  else if String.eqb path "plugins/no-destroy" && String.eqb task "destroy"
  then Throw (OtherError "still in use")
  else Ok tt.

Definition env : Env :=
  mkEnv (fun alias => ("urn:uuid:" ++ alias)%string)
        (fun runner => manifest_at (pluginPath runner))
        (fun _ => Ok tt)
        (fun _ _ => Ok None)
        (fun _ => Ok tt)
        (fun runner task => task_at (pluginPath runner) task)
        None
        (fun _ => [])
        (fun _ => Throw TypeError_manifest_type).

Definition declaration (alias path : string) : Registration :=
  mkRegistration alias path ConfigAbsent.

Definition reranker : Registration := declaration "rr" "plugins/reranker".
Definition drive : Registration := declaration "drive" "plugins/drive".
Definition broken : Registration := declaration "broken" "plugins/broken".
Definition svc_a : Registration := declaration "a" "plugins/svc-a".
Definition svc_b : Registration := declaration "b" "plugins/svc-b".
Definition svc_c : Registration := declaration "c" "plugins/svc-c".
Definition no_boot : Registration := declaration "store" "plugins/no-boot".
Definition no_destroy : Registration := declaration "db" "plugins/no-destroy".

(** The host after a batch has been registered on a fresh one. *)
Definition after_register (batch : list Registration) : Host :=
  snd (register env batch new_Host).

Definition loaded_reranker : LoadedPlugin :=
  mkLoaded "urn:uuid:rr" "rr"
    (mkRunner "urn:uuid:rr" "plugins/reranker" [])
    (manifest "reranker-x" "reranker" None).

End Sample.

(** A second environment: a storage plugin with a config schema, two
    generative plugins with the models they list, and the collaborators
    of the source service. *)
Module Demo.

Definition manifest_at (path : string) : Res PluginManifest :=
  if String.eqb path "plugins/vault" then
    Ok (Sample.manifest "vault" "storage" None)
  else if String.eqb path "plugins/gen-a" then
    Ok (Sample.manifest "gen-a" "generative" None)
  else if String.eqb path "plugins/gen-b" then
    Ok (Sample.manifest "gen-b" "generative" None)
  else Sample.manifest_at path.

(** The schema of the vault: a bucket is required, the region defaults. *)
Definition vault_schema : Schema :=
  fun config =>
    match JsObject.stored "bucket" config with
    | Some bucket => Ok [("bucket", bucket); ("region", "auto")]
    | None => Throw (ZodError ["bucket: Required"])
    end.

Definition env : Env :=
  mkEnv (fun alias => ("urn:uuid:" ++ alias)%string)
        (fun runner => manifest_at (pluginPath runner))
        (fun _ => Ok tt)
        (fun runner _ =>
           if String.eqb (pluginPath runner) "plugins/vault"
           then Ok (Some vault_schema) else Ok None)
        (fun _ => Ok tt)
        (fun runner task => Sample.task_at (pluginPath runner) task)
        None
        (fun _ => [])
        (fun _ => Throw TypeError_manifest_type).

Definition vault : Registration :=
  mkRegistration "vault" "plugins/vault" (ConfigValue [("bucket", "b1")]).

Definition vault_unconfigured : Registration :=
  mkRegistration "vault" "plugins/vault" ConfigAbsent.

(** A storage plugin under an alias that is an array index. *)
Definition vault_0 : Registration :=
  mkRegistration "0" "plugins/vault" (ConfigValue [("bucket", "b0")]).

Definition openai : Registration := Sample.declaration "openai" "plugins/gen-a".
Definition local : Registration := Sample.declaration "local" "plugins/gen-b".

Definition after_register (batch : list Registration) : Host :=
  snd (register env batch new_Host).

Definition model (name : string) : Generative.ModelSpec :=
  Generative.mkModel name "".

Definition getSupportedModels (plugin : LoadedPlugin)
    : Res (list Generative.ModelSpec) :=
  if String.eqb (loaded_alias plugin) "openai" then
    Ok [model "gpt"; model "embed"]
  else if String.eqb (loaded_alias plugin) "local" then
    Ok [model "llama"; model "gpt"]
  else Throw (OtherError "no models").

Definition settings : Generative.Settings := Generative.mkSettings "local" [].

Fixpoint tally (n : nat) : string :=
  match n with
  | O => ""
  | S n => String "i" (tally n)
  end.

Definition co : SourceService.Collaborators :=
  SourceService.mkCollaborators
    (fun collection =>
       SourceService.mkSource ("source-" ++ tally (length collection))%string
         "" "idle" "" false false None None None None)
    (fun h source =>
       match plugin_lookup (SourceService.source_provider source)
               (providers (registry h)) with
       | JsObject.Found _ => SourceService.Returned tt
       | _ => SourceService.Thrown
                (SourceService.ErrorThrown "provider not registered")
       end)
    (fun _ _ _ => SourceService.Returned "https://auth.example")
    (fun _ _ payload =>
       if String.eqb payload "good" then
         SourceService.Returned (SourceService.mkVerification true (Some "token"))
       else if String.eqb payload "bad" then
         SourceService.Returned (SourceService.mkVerification false None)
       else SourceService.Thrown SourceService.ValueThrown)
    (fun _ entrypoint =>
       SourceService.Returned ("entry:" ++ entrypoint)%string)
    (fun job =>
       match job with
       | SourceService.IndexingJob _ _ _ jobId => SourceService.ok jobId
       | SourceService.DeleteSourceJob _ =>
           SourceService.err (SourceService.OtherFailure "not an indexing job")
       end)
    (fun n => ("job-" ++ tally n)%string).

(** A third environment: the runner rejects the manifest of one module
    with a registry error of its own. *)
Definition rejection : Exn :=
  RegistryError "Invalid plugin manifest"
    (mkDetails "rejected" "plugins/rejected" JsObject.Undefined)
    (OtherError "manifest rejected").

Definition strict_env : Env :=
  mkEnv (fun alias => ("urn:uuid:" ++ alias)%string)
        (fun runner =>
           if String.eqb (pluginPath runner) "plugins/rejected"
           then Throw rejection
           else Sample.manifest_at (pluginPath runner))
        (fun _ => Ok tt)
        (fun _ _ => Ok None)
        (fun _ => Ok tt)
        (fun runner task => Sample.task_at (pluginPath runner) task)
        None
        (fun _ => [])
        (fun _ => Throw TypeError_manifest_type).

Definition rejected : Registration :=
  Sample.declaration "rejected" "plugins/rejected".

(** The application with the drive registered and no source. *)
Definition app : SourceService.App :=
  SourceService.mkApp (Sample.after_register [Sample.drive]) [] [] [] 0.

(** The application after a source of the drive was created. *)
Definition app_with_source : SourceService.App :=
  snd (SourceService.create co "docs" "drive" app).

End Demo.

(** The sample batch on a fresh host. *)
Example sample_register :
  fst (register Sample.env
         [Sample.reranker; Sample.broken; Sample.drive] new_Host)
  = Ok [RegistryError "Failed to register plugin"
          (mkDetails "broken" "plugins/broken" JsObject.Undefined)
          (OtherError "ManifestError: cannot load module")].
Proof. reflexivity. Qed.

Example sample_register_tables :
  map fst (plugins (registry (Sample.after_register
             [Sample.reranker; Sample.broken; Sample.drive])))
    = ["rr"; "drive"]
  /\ map fst (providers (registry (Sample.after_register
             [Sample.reranker; Sample.broken; Sample.drive])))
    = ["drive"]
  /\ map state_alias (pluginState (Sample.after_register
             [Sample.reranker; Sample.broken; Sample.drive]))
    = ["rr"; "drive"].
Proof. repeat split; reflexivity. Qed.

Example sample_values_order :
  JsObject.values [("b", 1); ("10", 2); ("a", 3); ("9", 4); ("01", 5)]
  = [4; 2; 1; 3; 5].
Proof. reflexivity. Qed.

(* ===================================================================== *)
(** ** Tables *)
(* ===================================================================== *)

Unset Implicit Arguments.

Lemma stored_set_same (V : Type) (k : string) (v : V) (o : JsObject.t V) :
  JsObject.stored k (JsObject.set k v o) = Some v.
Proof.
  induction o as [|[k' v'] rest IH]; simpl.
  - now rewrite String.eqb_refl.
  - destruct (String.eqb k' k) eqn:E; simpl; rewrite E; auto.
Qed.

Lemma stored_set_other (V : Type) (k k' : string) (v : V) (o : JsObject.t V) :
  k <> k' -> JsObject.stored k' (JsObject.set k v o) = JsObject.stored k' o.
Proof.
  intros Hne. induction o as [|[k0 v0] rest IH]; simpl.
  - destruct (String.eqb_spec k k'); congruence.
  - destruct (String.eqb_spec k0 k) as [->|Hk]; simpl.
    + destruct (String.eqb_spec k k'); congruence.
    + destruct (String.eqb_spec k0 k'); auto.
Qed.

Lemma stored_absent (V : Type) (k : string) (o : JsObject.t V) :
  ~ has_key k o <-> JsObject.stored k o = None.
Proof.
  unfold has_key. induction o as [|[k' v'] rest IH]; simpl.
  - tauto.
  - destruct (String.eqb_spec k' k) as [->|Hk].
    + split; [intros H; exfalso; auto | discriminate].
    + rewrite <- IH. tauto.
Qed.

Lemma stored_remove_same (V : Type) (k : string) (o : JsObject.t V) :
  JsObject.stored k (JsObject.remove k o) = None.
Proof.
  induction o as [|[k' v'] rest IH]; simpl; auto.
  destruct (String.eqb k' k) eqn:E; simpl; [|rewrite E]; auto.
Qed.

Lemma stored_remove_other (V : Type) (k k' : string) (o : JsObject.t V) :
  k <> k' -> JsObject.stored k' (JsObject.remove k o) = JsObject.stored k' o.
Proof.
  intros Hne. induction o as [|[k0 v0] rest IH]; simpl; auto.
  destruct (String.eqb_spec k0 k) as [->|Hk]; simpl.
  - rewrite IH. destruct (String.eqb_spec k k'); congruence.
  - destruct (String.eqb_spec k0 k'); auto.
Qed.

Lemma stored_delete_same (V : Type) (k : string) (o : JsObject.t V) :
  k <> "__proto__" -> JsObject.stored k (JsObject.delete k o) = None.
Proof.
  intros Hk. unfold JsObject.delete.
  destruct (String.eqb_spec k "__proto__"); [contradiction|].
  apply stored_remove_same.
Qed.

Lemma stored_delete_proto (V : Type) (o : JsObject.t V) :
  JsObject.delete "__proto__" o = o.
Proof. reflexivity. Qed.

Lemma stored_delete_other (V : Type) (k k' : string) (o : JsObject.t V) :
  k <> k' -> JsObject.stored k' (JsObject.delete k o) = JsObject.stored k' o.
Proof.
  intros Hne. unfold JsObject.delete.
  destruct (String.eqb k "__proto__"); [reflexivity|].
  now apply stored_remove_other.
Qed.

Lemma own_remove (V : Type) (k : string) (o : JsObject.t V) :
  JsObject.own (JsObject.remove k o) = JsObject.remove k (JsObject.own o).
Proof.
  unfold JsObject.own.
  induction o as [|[k' v'] rest IH]; cbn [JsObject.remove filter fst];
    [reflexivity|].
  destruct (String.eqb k' k) eqn:E;
    destruct (String.eqb k' "__proto__") eqn:P;
    cbn [negb filter fst JsObject.remove]; rewrite ?P, ?E;
    cbn [negb]; rewrite ?IH; reflexivity.
Qed.

Lemma own_delete (V : Type) (k : string) (o : JsObject.t V) :
  k <> "__proto__" ->
  JsObject.own (JsObject.delete k o) = JsObject.remove k (JsObject.own o).
Proof.
  intros Hk. unfold JsObject.delete.
  destruct (String.eqb_spec k "__proto__"); [contradiction|].
  apply own_remove.
Qed.

Lemma own_set_proto (V : Type) (v : V) (o : JsObject.t V) :
  JsObject.own (JsObject.set "__proto__" v o) = JsObject.own o.
Proof.
  unfold JsObject.own.
  induction o as [|[k v'] rest IH]; cbn [JsObject.set filter fst negb];
    [reflexivity|].
  destruct (String.eqb k "__proto__") eqn:E;
    cbn [filter fst]; rewrite E; cbn [negb]; [reflexivity|].
  now rewrite IH.
Qed.


Lemma own_set (V : Type) (k : string) (v : V) (o : JsObject.t V) :
  k <> "__proto__" ->
  JsObject.own (JsObject.set k v o) = JsObject.set k v (JsObject.own o).
Proof.
  intros Hk. unfold JsObject.own.
  induction o as [|[k' v'] rest IH]; cbn [JsObject.set filter fst].
  - destruct (String.eqb_spec k "__proto__"); [contradiction|reflexivity].
  - destruct (String.eqb_spec k' k) as [->|Hne]; cbn [filter fst].
    + destruct (String.eqb_spec k "__proto__"); [contradiction|].
      cbn [negb JsObject.set]. now rewrite String.eqb_refl.
    + destruct (String.eqb k' "__proto__"); cbn [negb]; [exact IH|].
      cbn [JsObject.set]. destruct (String.eqb_spec k' k); [contradiction|].
      now rewrite IH.
Qed.


Lemma own_set_cases (V : Type) (k : string) (v : V) (o : JsObject.t V) :
  JsObject.own (JsObject.set k v o)
  = if String.eqb k "__proto__" then JsObject.own o
    else JsObject.set k v (JsObject.own o).
Proof.
  destruct (String.eqb_spec k "__proto__") as [->|Hk].
  - apply own_set_proto.
  - now apply own_set.
Qed.


Lemma values_own (V : Type) (o : JsObject.t V) :
  JsObject.values o = JsObject.values (JsObject.own o).
Proof.
  assert (Hown : JsObject.own (JsObject.own o) = JsObject.own o).
  { unfold JsObject.own.
    induction o as [|[k v] rest IH]; cbn [filter fst]; [reflexivity|].
    destruct (String.eqb k "__proto__") eqn:E; cbn [negb filter fst];
      [exact IH|].
    rewrite E. cbn [negb]. now rewrite IH. }
  unfold JsObject.values, JsObject.entries. now rewrite Hown.
Qed.

Lemma lookup_found (V F : Type) (fields : V -> string -> option F)
    (k : string) (v : V) (o : JsObject.t V) :
  JsObject.stored k o = Some v -> JsObject.lookup fields k o = JsObject.Found v.
Proof. intros H. unfold JsObject.lookup. now rewrite H. Qed.

Lemma lookup_Found (V F : Type) (fields : V -> string -> option F)
    (k : string) (v : V) (o : JsObject.t V) :
  JsObject.lookup fields k o = JsObject.Found v <-> JsObject.stored k o = Some v.
Proof.
  split; [|apply lookup_found].
  unfold JsObject.lookup, JsObject.inherited, JsObject.proto.
  destruct (JsObject.stored k o) as [v'|] eqn:Hget; [now intros [= ->]|].
  destruct (JsObject.stored "__proto__" o) as [p|] eqn:Hp.
  - destruct (fields p k); [discriminate|].
    destruct (String.eqb_spec k "__proto__") as [->|_]; [congruence|].
    destruct (JsObject.function_length k);
      discriminate.
  - destruct (String.eqb k "__proto__"); [discriminate|].
    destruct (JsObject.function_length k);
      discriminate.
Qed.

Lemma lookup_absent (V F : Type) (fields : V -> string -> option F)
    (k : string) (o : JsObject.t V) :
  JsObject.stored k o = None ->
  JsObject.lookup fields k o = JsObject.inherited fields k o.
Proof. intros H. unfold JsObject.lookup. now rewrite H. Qed.

Lemma lookup_Undefined (V F : Type) (fields : V -> string -> option F)
    (k : string) (o : JsObject.t V) :
  JsObject.lookup fields k o = JsObject.Undefined
  <-> ~ has_key k o /\ JsObject.inherited fields k o = JsObject.Undefined.
Proof.
  rewrite stored_absent. unfold JsObject.lookup.
  destruct (JsObject.stored k o) as [v|].
  - split; [discriminate|]. intros [H _]. discriminate H.
  - tauto.
Qed.

Lemma inherited_plain (V F : Type) (fields : V -> string -> option F)
    (k : string) (o : JsObject.t V) :
  JsObject.proto o = None ->
  (JsObject.inherited fields k o = JsObject.Undefined
   <-> JsObject.plain k = true).
Proof.
  intros Hproto. unfold JsObject.inherited, JsObject.plain. rewrite Hproto.
  destruct (String.eqb k "__proto__"); cbn [negb andb];
    [split; discriminate|].
  destruct (JsObject.function_length k);
    split; (reflexivity || discriminate).
Qed.

(* ===================================================================== *)
(** ** Hosts *)
(* ===================================================================== *)

Lemma add_calls_nil (h : Host) : add_calls [] h = h.
Proof. destruct h; unfold add_calls, with_trace; simpl. now rewrite app_nil_r. Qed.

Lemma add_calls_app (c1 c2 : list TaskCall) (h : Host) :
  add_calls c2 (add_calls c1 h) = add_calls (c1 ++ c2) h.
Proof. unfold add_calls, with_trace; simpl. now rewrite app_assoc. Qed.

Ltac unfold_monad :=
  unfold bind, ret, throw, lift, gets, modify, modify_registry, try_catch
    in *; simpl in *.

Section Properties.

Variable env : Env.

(* --------------------------------------------------------------------- *)
(** *** Instances *)
(* --------------------------------------------------------------------- *)

Lemma getInstance_plugin (plugin : LoadedPlugin) :
  inst_plugin (getInstance env plugin) = plugin.
Proof.
  unfold getInstance.
  repeat match goal with
         | |- context [if ?b then _ else _] => destruct b
         end; reflexivity.
Qed.

Lemma getInstance_reranker (plugin : LoadedPlugin) :
  manifest_type (loaded_manifest plugin) = "reranker" ->
  getInstance env plugin
  = mkInstance RerankerPluginInstance [] plugin RerankerPluginInstance_methods.
Proof. intros H. unfold getInstance. rewrite H. reflexivity. Qed.

Lemma runTask_run (inst : PluginInstance) (task : string) (h : Host) :
  runTask env inst task h
  = (runner_runTask env (loaded_runner (inst_plugin inst)) task,
     add_calls [call_of env task (inst_plugin inst)] h).
Proof.
  unfold runTask, call_of. unfold_monad.
  destruct (runner_runTask env (loaded_runner (inst_plugin inst)) task);
    reflexivity.
Qed.

(** C5.  The instance [getInstance] builds for a plugin whose manifest
    declares type ['reranker'] is a [RerankerPluginInstance]; the methods
    it exposes are exactly [rerank], which delegates to the plugin's task
    of that name; the generic task invocation reaches the four lifecycle
    hooks of the plugin; and no method of another capability is exposed:
    any name other than [rerank], the four provider methods and the
    methods of every other instance class among them, is not a function
    of the instance and calling it invokes nothing. *)
Theorem reranker_instance_exposes_only_rerank (plugin : LoadedPlugin) :
  manifest_type (loaded_manifest plugin) = "reranker" ->
  let inst := getInstance env plugin in
  inst_class inst = RerankerPluginInstance /\
  (forall method, exposes inst method = true <-> method = "rerank") /\
  (forall h, call_method env inst "rerank" h
             = (runner_runTask env (loaded_runner plugin) "rerank",
                add_calls [call_of env "rerank" plugin] h)) /\
  (forall task h, In task lifecycle_hooks ->
             runTask env inst task h
             = (runner_runTask env (loaded_runner plugin) task,
                add_calls [call_of env task plugin] h)) /\
  (forall method h, method <> "rerank" ->
             call_method env inst method h
             = (Throw (OtherError "TypeError: not a function"), h)) /\
  (forall method, In method ProviderPluginInstance_methods ->
             exposes inst method = false) /\
  (forall c method, In method (static_methods env c) ->
             method <> "rerank" -> exposes inst method = false).
Proof.
  intros Htype inst. subst inst. rewrite (getInstance_reranker _ Htype).
  assert (Hexp : forall method,
    exposes (mkInstance RerankerPluginInstance [] plugin
               RerankerPluginInstance_methods) method = true
    <-> method = "rerank").
  { intros method. unfold exposes; simpl. rewrite orb_false_r.
    apply String.eqb_eq. }
  split; [reflexivity|]. split; [exact Hexp|].
  split; [|split; [|split; [|split]]].
  - intros h. unfold call_method.
    rewrite (proj2 (Hexp "rerank") eq_refl). now rewrite runTask_run.
  - intros task h _. now rewrite runTask_run.
  - intros method h Hne. unfold call_method.
    destruct (exposes _ method) eqn:E; [|reflexivity].
    apply Hexp in E. contradiction.
  - intros method Hin.
    destruct (exposes _ method) eqn:E; [|reflexivity].
    apply Hexp in E. subst method. simpl in Hin.
    repeat (destruct Hin as [Hin|Hin]; [discriminate|]). contradiction.
  - intros c method _ Hne.
    destruct (exposes _ method) eqn:E; [|reflexivity].
    apply Hexp in E. contradiction.
Qed.

(* --------------------------------------------------------------------- *)
(** *** Lookups *)
(* --------------------------------------------------------------------- *)

(** C9, as amended.  For an alias not present in the providers table,
    [getProvider] returns [undefined] exactly when the prototype chain
    of the table holds nothing under the alias; on a table whose
    prototype was not replaced, that is for every alias but [__proto__]
    and the names of the functions of [Object.prototype].  For every
    alias [getProvider] returns without throwing and leaves the host as
    it was. *)
Theorem getProvider_absent_alias (alias : string) (h : Host) :
  ~ has_key alias (providers (registry h)) ->
  (getProvider alias h = (Ok JsObject.Undefined, h)
   <-> JsObject.inherited plugin_fields alias (providers (registry h))
       = JsObject.Undefined) /\
  (JsObject.proto (providers (registry h)) = None ->
   (getProvider alias h = (Ok JsObject.Undefined, h)
    <-> JsObject.plain alias = true)) /\
  forall other, exists found, getProvider other h = (Ok found, h).
Proof.
  intros Habsent. unfold getProvider, gets, plugin_lookup.
  assert (Hreturns :
    (Ok (JsObject.lookup plugin_fields alias (providers (registry h))), h)
    = (Ok JsObject.Undefined, h)
    <-> JsObject.inherited plugin_fields alias (providers (registry h))
        = JsObject.Undefined).
  { split.
    - intros [= Hfound]. now apply lookup_Undefined in Hfound.
    - intros Hnothing. f_equal. f_equal. apply lookup_Undefined. now split. }
  split; [exact Hreturns|]. split.
  - intros Hproto. rewrite Hreturns.
    exact (inherited_plain _ _ plugin_fields alias _ Hproto).
  - intros other. eexists. reflexivity.
Qed.

(* --------------------------------------------------------------------- *)
(** *** Services *)
(* --------------------------------------------------------------------- *)

Lemma stop_loop (ps : list LoadedPlugin) (h : Host) :
  for_of ps (fun plugin =>
    try_catch
      (if is_service plugin
       then runTask env (getInstance env plugin) "stopService"
       else ret tt)
      (fun error => ret tt)) h
  = (Ok tt,
     add_calls (map (call_of env "stopService") (filter is_service ps)) h).
Proof.
  revert h. induction ps as [|p ps IH]; intros h; cbn [for_of map filter].
  - now rewrite add_calls_nil.
  - unfold bind, try_catch. destruct (is_service p); cbn [map app].
    + rewrite runTask_run, getInstance_plugin.
      destruct (runner_runTask env (loaded_runner p) "stopService");
        unfold ret; rewrite IH, add_calls_app; reflexivity.
    + unfold ret at 1. now rewrite IH.
Qed.

(** C7.  [stopServices] never throws, and it invokes [stopService] once on
    every plugin of the flat table whose manifest declares the service
    runtime, in table order, whether or not earlier invocations threw:
    the invocation on each of them is on the trace with its own outcome,
    thrown errors included.  Nothing else is invoked and nothing else of
    the host changes. *)
Theorem stopServices_stops_every_service (h : Host) :
  exists h',
    stopServices env h = (Ok tt, h') /\
    trace h'
    = trace h
      ++ map (call_of env "stopService")
           (filter is_service (JsObject.values (plugins (registry h)))) /\
    (forall p, In p (JsObject.values (plugins (registry h))) ->
               is_service p = true ->
               In (mkCall (loaded_alias p) "stopService"
                     match runner_runTask env (loaded_runner p) "stopService"
                     with Ok _ => true | Throw _ => false end)
                  (trace h')) /\
    registry h' = registry h /\
    pluginState h' = pluginState h /\
    detached h' = detached h.
Proof.
  eexists. split.
  - unfold stopServices. unfold bind at 1. unfold gets. apply stop_loop.
  - split; [reflexivity|]. split; [|repeat split].
    intros p Hin Hservice. cbn [trace add_calls with_trace].
    apply in_or_app. right.
    apply (in_map (call_of env "stopService")).
    apply filter_In. now split.
Qed.

Lemma start_loop_ok (ps : list LoadedPlugin) (h : Host) :
  (forall q, In q ps -> is_service q = true ->
             runner_runTask env (loaded_runner q) "startService" = Ok tt) ->
  for_of ps (fun plugin =>
    try_catch
      (if is_service plugin
       then runTask env (getInstance env plugin) "startService"
       else ret tt)
      (fun error =>
         throw (RegistryError "Failed to start plugin service"
                  (service_details plugin) error))) h
  = (Ok tt,
     add_calls (map (fun q => mkCall (loaded_alias q) "startService" true)
                    (filter is_service ps)) h).
Proof.
  revert h. induction ps as [|p ps IH]; intros h Hok; cbn [for_of map filter].
  - now rewrite add_calls_nil.
  - unfold bind, try_catch. destruct (is_service p) eqn:Hp; cbn [map app].
    + rewrite runTask_run, getInstance_plugin. unfold call_of.
      rewrite (Hok p (or_introl eq_refl) Hp).
      rewrite IH by (intros q Hq; apply Hok; now right).
      now rewrite add_calls_app.
    + unfold ret at 1. apply IH. intros q Hq; apply Hok; now right.
Qed.

Lemma start_loop_throws (before after : list LoadedPlugin) (p : LoadedPlugin)
    (e : Exn) (h : Host) :
  (forall q, In q before -> is_service q = true ->
             runner_runTask env (loaded_runner q) "startService" = Ok tt) ->
  is_service p = true ->
  runner_runTask env (loaded_runner p) "startService" = Throw e ->
  for_of (before ++ p :: after) (fun plugin =>
    try_catch
      (if is_service plugin
       then runTask env (getInstance env plugin) "startService"
       else ret tt)
      (fun error =>
         throw (RegistryError "Failed to start plugin service"
                  (service_details plugin) error))) h
  = (Throw (RegistryError "Failed to start plugin service"
              (service_details p) e),
     add_calls (map (fun q => mkCall (loaded_alias q) "startService" true)
                    (filter is_service before)
                ++ [mkCall (loaded_alias p) "startService" false]) h).
Proof.
  revert h. induction before as [|b before IH]; intros h Hok Hp He; cbn [for_of map filter app].
  - unfold bind, try_catch. rewrite Hp.
    rewrite runTask_run, getInstance_plugin. unfold call_of.
    rewrite He. reflexivity.
  - unfold bind, try_catch. destruct (is_service b) eqn:Hb; cbn [map app].
    + rewrite runTask_run, getInstance_plugin. unfold call_of.
      rewrite (Hok b (or_introl eq_refl) Hb).
      rewrite IH by (auto; intros q Hq; apply Hok; now right).
      now rewrite add_calls_app.
    + unfold ret at 1. apply IH; auto. intros q Hq; apply Hok; now right.
Qed.

Lemma start_loop_only_services (ps : list LoadedPlugin) (h : Host)
    (r : Res unit) (h' : Host) :
  for_of ps (fun plugin =>
    try_catch
      (if is_service plugin
       then runTask env (getInstance env plugin) "startService"
       else ret tt)
      (fun error =>
         throw (RegistryError "Failed to start plugin service"
                  (service_details plugin) error))) h = (r, h') ->
  exists started rest,
    filter is_service ps = started ++ rest /\
    h' = add_calls (map (call_of env "startService") started) h.
Proof.
  revert h. induction ps as [|p ps IH]; intros h; cbn [for_of map filter].
  - unfold ret. intros [= <- <-]. exists [], []. now rewrite add_calls_nil.
  - unfold bind, try_catch. destruct (is_service p) eqn:Hp; cbn [map app].
    + rewrite runTask_run, getInstance_plugin.
      destruct (runner_runTask env (loaded_runner p) "startService") eqn:E.
      * intros Hrun. apply IH in Hrun as (started & rest & Hf & ->).
        exists (p :: started), rest. rewrite Hf. split; [reflexivity|].
        now rewrite add_calls_app.
      * unfold throw. intros [= <- <-]. exists [p], (filter is_service ps).
        split; reflexivity.
    + unfold ret at 1. apply IH.
Qed.

(** The two outcomes of the start loop: every service plugin started, or
    the loop stopped at the first one whose [startService] threw. *)
Lemma start_loop_inv (ps : list LoadedPlugin) (h : Host)
    (r : Res unit) (h' : Host) :
  for_of ps (fun plugin =>
    try_catch
      (if is_service plugin
       then runTask env (getInstance env plugin) "startService"
       else ret tt)
      (fun error =>
         throw (RegistryError "Failed to start plugin service"
                  (service_details plugin) error))) h = (r, h') ->
  (r = Ok tt /\
   h' = add_calls (map (fun q => mkCall (loaded_alias q) "startService" true)
                       (filter is_service ps)) h) \/
  (exists before p after e,
     ps = before ++ p :: after /\
     is_service p = true /\
     runner_runTask env (loaded_runner p) "startService" = Throw e /\
     r = Throw (RegistryError "Failed to start plugin service"
                  (service_details p) e) /\
     h' = add_calls
            (map (fun q => mkCall (loaded_alias q) "startService" true)
                 (filter is_service before)
             ++ [mkCall (loaded_alias p) "startService" false]) h).
Proof.
  revert h. induction ps as [|p ps IH]; intros h; cbn [for_of map filter].
  - unfold ret. intros [= <- <-]. left. now rewrite add_calls_nil.
  - unfold bind, try_catch. destruct (is_service p) eqn:Hp; cbn [map app].
    + rewrite runTask_run, getInstance_plugin. unfold call_of.
      destruct (runner_runTask env (loaded_runner p) "startService")
        as [[]|e] eqn:E.
      * intros Hrun.
        apply IH in Hrun
          as [[-> ->]|(before & q & after & e & -> & Hq & He & -> & ->)].
        -- left. split; [reflexivity|]. now rewrite add_calls_app.
        -- right. exists (p :: before), q, after, e.
           split; [reflexivity|]. split; [exact Hq|]. split; [exact He|].
           split; [reflexivity|].
           cbn [filter]. rewrite Hp. cbn [map].
           now rewrite add_calls_app.
      * unfold throw. intros [= <- <-]. right. exists [], p, ps, e.
        repeat (split; [first [reflexivity | assumption]|]). reflexivity.
    + unfold ret at 1. intros Hrun.
      apply IH in Hrun
        as [[-> ->]|(before & q & after & e & -> & Hq & He & -> & ->)].
      * left. split; reflexivity.
      * right. exists (p :: before), q, after, e.
        split; [reflexivity|]. split; [exact Hq|]. split; [exact He|].
        split; [reflexivity|]. cbn [filter]. now rewrite Hp.
Qed.

Lemma no_failed_call_among_started (alias : string)
    (ps : list LoadedPlugin) :
  ~ In (mkCall alias "startService" false)
       (map (fun q => mkCall (loaded_alias q) "startService" true) ps).
Proof.
  intros Hin. apply in_map_iff in Hin as (q & Hq & _). discriminate Hq.
Qed.

(** C6.  A run of [startServices] in which the [startService] task of a
    plugin throws ends there: the flat table enumerates [before], then
    that plugin [p], then [after]; the error thrown is the registry error
    that carries the alias, path and manifest of [p] and the cause; and
    the invocations made are those on the service plugins of [before],
    which returned, and the one on [p]: no plugin of [after] is started.
    Such runs are those where [p] is the first service plugin of the
    table whose [startService] throws.  In any run, whatever its outcome,
    the plugins started are an initial part of the service plugins of
    the table, so a plugin that does not declare the service runtime is
    never started. *)
Theorem startServices_fails_fast (h : Host) :
  (forall r h' calls alias,
     startServices env h = (r, h') ->
     trace h' = trace h ++ calls ->
     In (mkCall alias "startService" false) calls ->
     exists before p after e,
       JsObject.values (plugins (registry h)) = before ++ p :: after /\
       is_service p = true /\
       loaded_alias p = alias /\
       r = Throw (RegistryError "Failed to start plugin service"
                    (mkDetails alias (pluginPath (loaded_runner p))
                       (JsObject.Found (loaded_manifest p))) e) /\
       calls
       = map (fun q => mkCall (loaded_alias q) "startService" true)
             (filter is_service before)
         ++ [mkCall alias "startService" false]) /\
  (forall before p after e,
     JsObject.values (plugins (registry h)) = before ++ p :: after ->
     (forall q, In q before -> is_service q = true ->
                runner_runTask env (loaded_runner q) "startService" = Ok tt) ->
     is_service p = true ->
     runner_runTask env (loaded_runner p) "startService" = Throw e ->
     startServices env h
     = (Throw (RegistryError "Failed to start plugin service"
                 (mkDetails (loaded_alias p) (pluginPath (loaded_runner p))
                    (JsObject.Found (loaded_manifest p))) e),
        add_calls
          (map (fun q => mkCall (loaded_alias q) "startService" true)
               (filter is_service before)
           ++ [mkCall (loaded_alias p) "startService" false]) h)) /\
  (forall r h',
     startServices env h = (r, h') ->
     exists started rest,
       filter is_service (JsObject.values (plugins (registry h)))
       = started ++ rest /\
       trace h' = trace h ++ map (call_of env "startService") started).
Proof.
  split; [|split].
  - intros r h' calls alias. unfold startServices. unfold bind at 1.
    unfold gets. intros Hrun Htrace Hin.
    apply start_loop_inv in Hrun
      as [[-> ->]|(before & p & after & e & Hvalues & Hp & He & -> & ->)];
      cbn [trace add_calls with_trace] in Htrace;
      apply app_inv_head in Htrace; subst calls.
    + exfalso. exact (no_failed_call_among_started _ _ Hin).
    + exists before, p, after, e.
      apply in_app_or in Hin as [Hin|[Hin|[]]];
        [exfalso; exact (no_failed_call_among_started _ _ Hin)|].
      injection Hin as Halias. subst alias.
      split; [exact Hvalues|]. split; [exact Hp|].
      split; [reflexivity|]. split; reflexivity.
  - intros before p after e Hvalues Hok Hp He.
    unfold startServices. unfold bind at 1. unfold gets. rewrite Hvalues.
    now apply start_loop_throws.
  - intros r h'. unfold startServices. unfold bind at 1. unfold gets.
    intros Hrun.
    apply start_loop_only_services in Hrun as (started & rest & Hf & ->).
    exists started, rest. split; [exact Hf|reflexivity].
Qed.

(* --------------------------------------------------------------------- *)
(** *** Deletion *)
(* --------------------------------------------------------------------- *)

Lemma remove_first_In (alias : string) (docs : list PluginStateDocument)
    (d : PluginStateDocument) :
  NoDup (map state_alias docs) ->
  In d (remove_first alias docs) <-> In d docs /\ state_alias d <> alias.
Proof.
  induction docs as [|d0 rest IH]; simpl; intros Hnd.
  - tauto.
  - inversion Hnd as [|? ? Hnotin Hrest]; subst.
    destruct (String.eqb_spec (state_alias d0) alias) as [Heq|Hne].
    + split.
      * intros Hin. split; [now right|]. intros Hd. apply Hnotin.
        rewrite Heq, <- Hd. now apply in_map.
      * intros [[->|Hin] Hd]; [contradiction|exact Hin].
    + simpl. rewrite (IH Hrest). split.
      * intros [->|[Hin Hd]]; auto.
      * intros [[->|Hin] Hd]; auto.
Qed.

Lemma remove_first_NoDup (alias : string) (docs : list PluginStateDocument) :
  NoDup (map state_alias docs) ->
  NoDup (map state_alias (remove_first alias docs)).
Proof.
  induction docs as [|d0 rest IH]; simpl; intros Hnd; auto.
  inversion Hnd as [|? ? Hnotin Hrest]; subst.
  destruct (String.eqb (state_alias d0) alias) eqn:E; auto.
  simpl. constructor; auto.
  intros Hin. apply in_map_iff in Hin as (d & Hd & Hin).
  assert (Hnd' := Hrest). apply (remove_first_In alias rest d) in Hnd'.
  apply Hnd' in Hin as [Hin _]. apply Hnotin. rewrite <- Hd.
  now apply in_map.
Qed.

(** The committed documents once a list of detached transactions has
    run. *)
Lemma pluginState_run_detached (ts : list DetachedTransaction) (h : Host) :
  pluginState (fold_left (fun h' t => run_detached t h') ts h)
  = fold_left (fun docs t =>
       match t with DeleteOneByAlias alias => remove_first alias docs end)
      ts (pluginState h).
Proof.
  revert h. induction ts as [|[alias] ts IH]; intros h; simpl.
  - reflexivity.
  - now rewrite IH.
Qed.

Lemma run_detached_NoDup (ts : list DetachedTransaction)
    (docs : list PluginStateDocument) :
  NoDup (map state_alias docs) ->
  NoDup (map state_alias
    (fold_left (fun docs t =>
       match t with DeleteOneByAlias alias => remove_first alias docs end)
      ts docs)).
Proof.
  revert docs. induction ts as [|[alias] ts IH]; intros docs Hnd; simpl; auto.
  apply IH. now apply remove_first_NoDup.
Qed.

Lemma pluginState_settle (h : Host) :
  pluginState (settle h)
  = fold_left (fun docs t =>
       match t with DeleteOneByAlias alias => remove_first alias docs end)
      (detached h) (pluginState h).
Proof. unfold settle. simpl. apply pluginState_run_detached. Qed.

Lemma deletePlugin_known (alias : string) (plugin : LoadedPlugin) (h : Host) :
  JsObject.stored alias (plugins (registry h)) = Some plugin ->
  deletePlugin env alias h
  = match runner_runTask env (loaded_runner plugin) "destroy" with
    | Ok _ =>
        (Ok tt,
         with_registry
           (with_plugins (JsObject.delete alias (plugins (registry h)))
              (registry h))
           (with_detached (detached h ++ [DeleteOneByAlias alias])
              (add_calls [call_of env "destroy" plugin] h)))
    | Throw e => (Throw e, add_calls [call_of env "destroy" plugin] h)
    end.
Proof.
  intros Hget. unfold deletePlugin. unfold bind at 1. unfold gets.
  unfold plugin_lookup. rewrite (lookup_found _ _ plugin_fields _ _ _ Hget).
  cbv beta iota zeta.
  unfold bind at 1. rewrite runTask_run, getInstance_plugin.
  destruct (runner_runTask env (loaded_runner plugin) "destroy");
    reflexivity.
Qed.

Lemma deletePlugin_registry (alias : string) (h h' : Host) (r : Res unit) :
  deletePlugin env alias h = (r, h') ->
  (registry h' = registry h \/
   registry h'
   = with_plugins (JsObject.delete alias (plugins (registry h)))
       (registry h)) /\
  pluginState h' = pluginState h.
Proof.
  unfold deletePlugin. unfold bind at 1. unfold gets.
  destruct (plugin_lookup alias (plugins (registry h)))
    as [plugin|[s|runner|m]|name| |]; cbv beta iota zeta.
  - unfold bind at 1. rewrite runTask_run.
    destruct (runner_runTask env (loaded_runner (inst_plugin _)) "destroy");
      intros [= <- <-]; cbn; auto.
  - destruct (nonempty s); intros [= <- <-]; auto.
  - unfold bind at 1, lift.
    destruct (destroy_on_runner env runner); intros [= <- <-]; cbn; auto.
  - intros [= <- <-]; auto.
  - intros [= <- <-]; auto.
  - intros [= <- <-]; auto.
  - intros [= <- <-]; auto.
Qed.

Lemma deletePlugin_undefined (alias : string) (h : Host) :
  plugin_lookup alias (plugins (registry h)) = JsObject.Undefined ->
  deletePlugin env alias h = (Ok tt, h).
Proof.
  intros Hget. unfold deletePlugin. unfold bind at 1. unfold gets.
  now rewrite Hget.
Qed.

(** C8, as amended.  [deletePlugin] on an alias that is not in the flat
    table and under which the prototype chain of the table holds
    nothing (on a table whose prototype was not replaced: every such
    alias but [__proto__] and the names of the functions of
    [Object.prototype]) returns without invoking a task and leaves the
    host as it was; where the chain holds a function of
    [Object.prototype] under the alias, as for [constructor], it throws
    the [TypeError] of [getInstance], and the host is as it was.  On an
    alias under which the flat table holds a plugin it invokes [destroy]
    once and nothing else, and whatever the outcome the ten capability
    tables are untouched, so that [getProvider] answers as before.  When
    [destroy] returns, [deletePlugin] returns, the entry of the alias is
    removed from the flat table and the other entries are kept; a
    plugin stored under [__proto__] is the prototype of the table and
    no entry of it, and stays.  The transaction that deletes the state
    document of the alias is then started: once the pending
    transactions have run, the document carrying the alias is removed;
    with one document per alias, none with the alias is left and all
    other documents are kept. *)
Theorem deletePlugin_removes_flat_entry_only (alias : string) (h : Host) :
  (~ has_key alias (plugins (registry h)) ->
   (JsObject.inherited plugin_fields alias (plugins (registry h))
    = JsObject.Undefined ->
    deletePlugin env alias h = (Ok tt, h)) /\
   (JsObject.proto (plugins (registry h)) = None ->
    JsObject.plain alias = true ->
    deletePlugin env alias h = (Ok tt, h)) /\
   (forall name,
      JsObject.inherited plugin_fields alias (plugins (registry h))
      = JsObject.Builtin name ->
      deletePlugin env alias h = (Throw TypeError_manifest_type, h))) /\
  (forall plugin,
     JsObject.stored alias (plugins (registry h)) = Some plugin ->
     exists r h',
       deletePlugin env alias h = (r, h') /\
       trace h' = trace h ++ [call_of env "destroy" plugin] /\
       same_capability_tables (registry h) (registry h') /\
       fst (getProvider alias h') = fst (getProvider alias h) /\
       (runner_runTask env (loaded_runner plugin) "destroy" = Ok tt ->
        r = Ok tt /\
        (alias <> "__proto__" ->
         JsObject.stored alias (plugins (registry h')) = None /\
         JsObject.own (plugins (registry h'))
         = JsObject.remove alias (JsObject.own (plugins (registry h)))) /\
        (alias = "__proto__" ->
         plugins (registry h') = plugins (registry h)) /\
        (forall other, other <> alias ->
           JsObject.stored other (plugins (registry h'))
           = JsObject.stored other (plugins (registry h))) /\
        detached h' = detached h ++ [DeleteOneByAlias alias] /\
        pluginState (settle h')
        = remove_first alias (pluginState (settle h)) /\
        (NoDup (map state_alias (pluginState h)) ->
         forall d, In d (pluginState (settle h')) <->
                   In d (pluginState (settle h)) /\ state_alias d <> alias))).
Proof.
  split.
  - intros Habsent.
    assert (Hnothing :
      JsObject.inherited plugin_fields alias (plugins (registry h))
      = JsObject.Undefined ->
      deletePlugin env alias h = (Ok tt, h)).
    { intros Hnothing. apply deletePlugin_undefined.
      apply lookup_Undefined. now split. }
    split; [exact Hnothing|]. split.
    + intros Hproto Hplain. apply Hnothing.
      now apply (inherited_plain _ _ plugin_fields alias _ Hproto).
    + intros name Hname. apply stored_absent in Habsent.
      unfold deletePlugin. unfold bind at 1. unfold gets, plugin_lookup.
      now rewrite (lookup_absent _ _ plugin_fields _ _ Habsent), Hname.
  - intros plugin Hget.
    rewrite (@deletePlugin_known alias plugin h Hget).
    destruct (runner_runTask env (loaded_runner plugin) "destroy")
      as [[]|e] eqn:Hdestroy.
    + eexists; eexists. split; [reflexivity|].
      split; [reflexivity|].
      split; [unfold same_capability_tables; simpl; tauto|].
      split; [reflexivity|].
      intros _.
      split; [reflexivity|].
      cbn [registry plugins with_registry with_plugins].
      split; [|split; [|split]].
      * intros Hne. split; [now apply stored_delete_same|].
        now apply own_delete.
      * intros ->. reflexivity.
      * intros other Hne. now apply stored_delete_other.
      * split; [reflexivity|].
        assert (Hsettled :
          pluginState (settle
            (with_registry
               (with_plugins (JsObject.delete alias (plugins (registry h)))
                  (registry h))
               (with_detached (detached h ++ [DeleteOneByAlias alias])
                  (add_calls [call_of env "destroy" plugin] h))))
          = remove_first alias (pluginState (settle h))).
        { rewrite !pluginState_settle.
          cbn [detached pluginState with_registry with_detached add_calls
               with_trace].
          now rewrite fold_left_app. }
        split; [exact Hsettled|].
        intros Hnd d. rewrite Hsettled.
        apply remove_first_In. rewrite pluginState_settle.
        now apply run_detached_NoDup.
    + eexists; eexists. split; [reflexivity|].
      split; [reflexivity|].
      split; [unfold same_capability_tables; simpl; tauto|].
      split; [reflexivity|].
      discriminate.
Qed.

(** C10.  When the [destroy] task of a registered plugin throws,
    [deletePlugin] throws the same error after that single invocation
    and changes nothing else: the registry, with the flat table and every
    capability table, is as before, the state documents are as before,
    and no deletion is pending. *)
Theorem deletePlugin_destroy_failure_changes_nothing (alias : string)
    (plugin : LoadedPlugin) (e : Exn) (h : Host) :
  JsObject.stored alias (plugins (registry h)) = Some plugin ->
  runner_runTask env (loaded_runner plugin) "destroy" = Throw e ->
  exists h',
    deletePlugin env alias h = (Throw e, h') /\
    trace h' = trace h ++ [mkCall (loaded_alias plugin) "destroy" false] /\
    registry h' = registry h /\
    JsObject.stored alias (plugins (registry h')) = Some plugin /\
    same_tables (registry h) (registry h') /\
    pluginState h' = pluginState h /\
    uncommitted h' = uncommitted h /\
    detached h' = detached h /\
    pluginState (settle h') = pluginState (settle h).
Proof.
  intros Hget Hdestroy.
  rewrite (@deletePlugin_known alias plugin h Hget). unfold call_of. rewrite Hdestroy.
  eexists. split; [reflexivity|].
  split; [reflexivity|].
  split; [reflexivity|].
  split; [exact Hget|].
  split; [unfold same_tables; simpl; tauto|].
  split; [reflexivity|].
  split; [reflexivity|].
  split; [reflexivity|].
  now rewrite !pluginState_settle.
Qed.

(* --------------------------------------------------------------------- *)
(** *** Registration of one plugin *)
(* --------------------------------------------------------------------- *)

Lemma registerPlugin_tail (loaded : LoadedPlugin) (h : Host) :
  (withTransaction
     (state <- findOne (loaded_alias loaded) ;;
      match state with
      | Some _ => ret tt
      | None =>
          save (mkState (loaded_id loaded) (loaded_manifest loaded)
                  (loaded_alias loaded)) ;;
          runTask env (getInstance env loaded) "bootstrap"
      end) ;;
   modify_registry (fun r =>
     index_by_type (loaded_alias loaded) loaded
       (with_plugins
          (JsObject.set (loaded_alias loaded) loaded (plugins r)) r))) h
  = bootstrap_and_index env loaded h.
Proof.
  unfold bootstrap_and_index, index_plugin, state_of.
  unfold bind at 1, withTransaction, bind at 1, findOne, gets.
  cbn [pluginState with_uncommitted].
  destruct (find _ (pluginState h)) as [d|].
  - unfold ret, modify_registry, modify. destruct h; simpl.
    now rewrite app_nil_r.
  - unfold bind at 1, save. cbn [pluginState uncommitted with_uncommitted].
    rewrite app_nil_r.
    destruct (existsb _ (pluginState h)); [reflexivity|].
    rewrite runTask_run, getInstance_plugin. unfold call_of.
    destruct (runner_runTask env (loaded_runner loaded) "bootstrap")
      as [[]|e]; [|reflexivity].
    unfold modify_registry, modify. destruct h; reflexivity.
Qed.

(** [registerPlugin] step by step: the manifest, then the steps of
    [prepare], then the bootstrap check and the table assignments. *)
Lemma registerPlugin_steps (p : Registration) (h : Host) :
  registerPlugin env p h
  = match manifest_of env p with
    | Throw e => (Throw e, h)
    | Ok manifest =>
        let h1 := cache_manifest p manifest h in
        match prepare env
                (fun a => manifest_lookup a (_manifests (registry h1)))
                p manifest with
        | Throw e => (Throw e, h1)
        | Ok loaded => bootstrap_and_index env loaded h1
        end
    end.
Proof.
  unfold registerPlugin, manifest_of, identity.
  unfold bind at 1. unfold lift at 1.
  destruct (runner_getManifest env _) as [manifest|e]; [|reflexivity].
  unfold bind at 1. unfold modify_registry at 1, modify at 1.
  cbv zeta. fold (cache_manifest p manifest h).
  set (h1 := cache_manifest p manifest h).
  unfold prepare, resolve_config, identity.
  set (lookup := fun a => manifest_lookup a (_manifests (registry h1))).
  unfold bind at 1.
  assert (Hcfg :
    match configLoader env with
    | Some loader =>
        (lookup0 <- gets (fun h a =>
                           manifest_lookup a (_manifests (registry h))) ;;
         custom <- lift (loader p manifest lookup0) ;;
         match custom with
         | Some c => ret c
         | None => lift (defaultConfigLoader p manifest)
         end)
    | None => lift (defaultConfigLoader p manifest)
    end h1
    = (match configLoader env with
       | Some loader =>
           match loader p manifest lookup with
           | Ok (Some c) => Ok c
           | Ok None => defaultConfigLoader p manifest
           | Throw e => Throw e
           end
       | None => defaultConfigLoader p manifest
       end, h1)).
  { destruct (configLoader env) as [loader|]; [|reflexivity].
    unfold_monad. fold lookup.
    destruct (loader p manifest lookup) as [[c|]|e]; reflexivity. }
  rewrite Hcfg. clear Hcfg.
  destruct (match configLoader env with
            | Some loader => _ | None => _ end) as [config|e];
    [|reflexivity].
  unfold bind at 1, lift at 1.
  destruct (runner_load env _) as [[]|e]; [|reflexivity].
  unfold bind at 1, try_catch at 1, bind at 1, lift at 1.
  destruct (runner_getSchema env _ "config") as [[schema|]|e].
  - unfold bind at 1, lift at 1.
    destruct (schema config) as [parsed|e].
    + unfold ret at 1.
      unfold bind at 1, try_catch at 1, lift at 1.
      destruct (runner_initialize env _) as [[]|e]; [|reflexivity].
      apply (registerPlugin_tail (mkLoaded _ _ _ _)).
    + destruct e; reflexivity.
  - unfold ret at 1.
    unfold bind at 1, try_catch at 1, lift at 1.
    destruct (runner_initialize env _) as [[]|e]; [|reflexivity].
    apply (registerPlugin_tail (mkLoaded _ _ _ _)).
  - destruct e; reflexivity.
Qed.

Lemma prepare_fields (lookup : string -> ManifestLookup)
    (p : Registration) (manifest : PluginManifest) (loaded : LoadedPlugin) :
  prepare env lookup p manifest = Ok loaded ->
  loaded_id loaded = identity env p /\
  loaded_alias loaded = alias_or_name p manifest /\
  loaded_manifest loaded = manifest /\
  pluginId (loaded_runner loaded) = identity env p /\
  pluginPath (loaded_runner loaded) = reg_path p.
Proof.
  unfold prepare.
  destruct (resolve_config env lookup p manifest) as [config|]; [|discriminate].
  destruct (runner_load env _); [|discriminate].
  destruct (runner_getSchema env _ "config") as [[schema|]|e].
  - destruct (schema config) as [parsed|e].
    + destruct (runner_initialize env _); [|discriminate].
      intros [= <-]. simpl. auto.
    + destruct e; discriminate.
  - destruct (runner_initialize env _); [|discriminate].
    intros [= <-]. simpl. auto.
  - destruct e; discriminate.
Qed.

Lemma index_by_type_plugins (alias : string) (loaded : LoadedPlugin)
    (r : PluginRegistry) :
  plugins (index_by_type alias loaded r) = plugins r.
Proof.
  unfold index_by_type.
  repeat match goal with
         | |- context [if ?b then _ else _] => destruct b
         end; reflexivity.
Qed.

Lemma index_plugin_plugins (loaded : LoadedPlugin) (h : Host) :
  plugins (registry (index_plugin loaded h))
  = JsObject.set (loaded_alias loaded) loaded (plugins (registry h)).
Proof. unfold index_plugin. simpl. now rewrite index_by_type_plugins. Qed.

Lemma index_plugin_registered (loaded : LoadedPlugin) (h : Host) :
  JsObject.stored (loaded_alias loaded) (plugins (registry (index_plugin loaded h)))
  = Some loaded.
Proof. rewrite index_plugin_plugins. apply stored_set_same. Qed.

Lemma find_alias_some (alias : string) (docs : list PluginStateDocument)
    (d : PluginStateDocument) :
  find (fun d => String.eqb (state_alias d) alias) docs = Some d ->
  In d docs /\ state_alias d = alias.
Proof.
  intros H. apply find_some in H as [Hin Heq].
  split; [exact Hin|]. now apply String.eqb_eq.
Qed.

Lemma find_alias_none (alias : string) (docs : list PluginStateDocument) :
  find (fun d => String.eqb (state_alias d) alias) docs = None ->
  ~ has_state_for_alias alias docs.
Proof.
  intros H (d & Hin & Heq).
  apply (find_none _ _ H) in Hin. rewrite Heq, String.eqb_refl in Hin.
  discriminate.
Qed.

Lemma exists_id_true (id : string) (docs : list PluginStateDocument) :
  existsb (fun d => String.eqb (state_id d) id) docs = true <->
  has_state_for_id id docs.
Proof.
  unfold has_state_for_id. rewrite existsb_exists.
  split; intros (d & Hin & Heq); exists d; split; auto;
    now apply String.eqb_eq.
Qed.

Lemma exists_id_false (id : string) (docs : list PluginStateDocument) :
  existsb (fun d => String.eqb (state_id d) id) docs = false <->
  ~ has_state_for_id id docs.
Proof.
  rewrite <- exists_id_true. destruct (existsb _ docs); split; intros H;
    try discriminate; auto. exfalso; auto.
Qed.

Lemma alias_or_name_nonempty (p : Registration) (manifest : PluginManifest) :
  reg_alias p <> "" -> alias_or_name p manifest = reg_alias p.
Proof.
  intros Hne. unfold alias_or_name.
  destruct (String.eqb_spec (reg_alias p) ""); [contradiction|reflexivity].
Qed.

Lemma same_trace_no_calls (t : list TaskCall) (calls : list TaskCall) :
  t = t ++ calls -> calls = [].
Proof.
  intros H. rewrite <- (app_nil_r t) in H at 1.
  apply app_inv_head in H. now symmetry.
Qed.

(** The outcomes of the bootstrap check, one by one. *)
Lemma bootstrap_and_index_inv (loaded : LoadedPlugin) (h : Host)
    (r : Res unit) (h' : Host) :
  bootstrap_and_index env loaded h = (r, h') ->
  (has_state_for_alias (loaded_alias loaded) (pluginState h) /\
   r = Ok tt /\ h' = index_plugin loaded (with_uncommitted [] h)) \/
  (~ has_state_for_alias (loaded_alias loaded) (pluginState h) /\
   has_state_for_id (loaded_id loaded) (pluginState h) /\
   r = Throw (OtherError "E11000 duplicate key error") /\
   h' = with_uncommitted [] h) \/
  (~ has_state_for_alias (loaded_alias loaded) (pluginState h) /\
   ~ has_state_for_id (loaded_id loaded) (pluginState h) /\
   runner_runTask env (loaded_runner loaded) "bootstrap" = Ok tt /\
   r = Ok tt /\
   h' = index_plugin loaded
          (with_pluginState (pluginState h ++ [state_of loaded])
             (add_calls [mkCall (loaded_alias loaded) "bootstrap" true]
                (with_uncommitted [] h)))) \/
  (exists e,
   ~ has_state_for_alias (loaded_alias loaded) (pluginState h) /\
   ~ has_state_for_id (loaded_id loaded) (pluginState h) /\
   runner_runTask env (loaded_runner loaded) "bootstrap" = Throw e /\
   r = Throw e /\
   h' = add_calls [mkCall (loaded_alias loaded) "bootstrap" false]
          (with_uncommitted [] h)).
Proof.
  unfold bootstrap_and_index.
  destruct (find _ (pluginState h)) as [d|] eqn:Hfind.
  - intros [= <- <-]. left. split; [|auto].
    apply find_alias_some in Hfind as [Hin Heq]. now exists d.
  - apply find_alias_none in Hfind.
    destruct (existsb _ (pluginState h)) eqn:Hid.
    + intros [= <- <-]. right; left. apply exists_id_true in Hid. auto.
    + apply exists_id_false in Hid.
      destruct (runner_runTask env (loaded_runner loaded) "bootstrap")
        as [[]|e] eqn:Hboot; intros [= <- <-].
      * right; right; left. auto.
      * right; right; right. exists e. auto.
Qed.

(** What a registration that returns has done. *)
Lemma registerPlugin_returns (p : Registration) (h h' : Host) :
  registerPlugin env p h = (Ok tt, h') ->
  exists manifest loaded,
    manifest_of env p = Ok manifest /\
    loaded_id loaded = identity env p /\
    loaded_alias loaded = alias_or_name p manifest /\
    loaded_manifest loaded = manifest /\
    pluginId (loaded_runner loaded) = identity env p /\
    JsObject.stored (loaded_alias loaded) (plugins (registry h')) = Some loaded /\
    has_state_for_alias (loaded_alias loaded) (pluginState h').
Proof.
  rewrite registerPlugin_steps.
  destruct (manifest_of env p) as [manifest|e]; [|discriminate].
  cbv zeta.
  destruct (prepare env _ p manifest) as [loaded|e] eqn:Hprep; [|discriminate].
  apply prepare_fields in Hprep as (Hid & Halias & Hman & Hrid & _).
  intros Hrun. exists manifest, loaded.
  repeat (split; [solve [auto]|]).
  apply bootstrap_and_index_inv in Hrun
    as [(Hdoc & _ & ->)|[(_ & _ & Hr & _)|[(_ & _ & _ & _ & ->)|(e & _ & _ & _ & Hr & _)]]];
    try discriminate.
  - split; [apply index_plugin_registered|exact Hdoc].
  - split; [apply index_plugin_registered|].
    exists (state_of loaded). simpl. split; [|reflexivity].
    apply in_or_app. right. now left.
Qed.

(** The collection after a registration, whatever its outcome: as
    before, or with the state document of the loaded plugin added when
    none carried its alias or its identity. *)
Lemma registerPlugin_pluginState (p : Registration) (h h' : Host)
    (r : Res unit) :
  registerPlugin env p h = (r, h') ->
  pluginState h' = pluginState h \/
  exists manifest,
    manifest_of env p = Ok manifest /\
    ~ has_state_for_alias (alias_or_name p manifest) (pluginState h) /\
    pluginState h'
    = pluginState h
      ++ [mkState (identity env p) manifest (alias_or_name p manifest)].
Proof.
  rewrite registerPlugin_steps.
  destruct (manifest_of env p) as [manifest|e]; [|intros [= <- <-]; now left].
  cbv zeta.
  destruct (prepare env _ p manifest) as [loaded|e] eqn:Hprep;
    [|intros [= <- <-]; now left].
  apply prepare_fields in Hprep as (Hid & Halias & Hman & _).
  intros Hrun.
  apply bootstrap_and_index_inv in Hrun
    as [(_ & _ & ->)|[(_ & _ & _ & ->)|[(Hno & _ & _ & _ & ->)|(e & _ & _ & _ & _ & ->)]]];
    try (now left).
  right. exists manifest. split; [reflexivity|].
  rewrite Halias in Hno. split; [exact Hno|].
  unfold state_of. now rewrite Hid, Halias, Hman.
Qed.

(** Registrations keep the aliases of the state documents distinct. *)
Lemma registerPlugin_keeps_aliases_distinct (p : Registration) (h h' : Host)
    (r : Res unit) :
  NoDup (map state_alias (pluginState h)) ->
  registerPlugin env p h = (r, h') ->
  NoDup (map state_alias (pluginState h')).
Proof.
  intros Hnd Hrun.
  apply registerPlugin_pluginState in Hrun as [->|(m & _ & Hno & ->)];
    [exact Hnd|].
  rewrite map_app. apply NoDup_app; [exact Hnd|repeat constructor; auto|].
  intros a Hin [<-|[]]. apply Hno.
  apply in_map_iff in Hin as (d & Hd & Hin). now exists d.
Qed.

(** Registrations under a non-empty alias keep the state documents keyed
    by the identity of their alias. *)
Lemma registerPlugin_keeps_keyed (p : Registration) (h h' : Host)
    (r : Res unit) :
  reg_alias p <> "" ->
  keyed_by_identity env (pluginState h) ->
  registerPlugin env p h = (r, h') ->
  keyed_by_identity env (pluginState h').
Proof.
  intros Hne Hkeyed Hrun.
  apply registerPlugin_pluginState in Hrun as [->|(m & _ & _ & ->)];
    [exact Hkeyed|].
  intros d Hin. apply in_app_or in Hin as [Hin|[<-|[]]].
  - now apply Hkeyed.
  - simpl. now rewrite (alias_or_name_nonempty p m Hne).
Qed.

(** With a non-empty alias and documents keyed by the identity of their
    alias, a declaration whose identity has no document has no document
    under its alias either. *)
Lemma fresh_identity_fresh_alias (p : Registration) (manifest : PluginManifest)
    (docs : list PluginStateDocument) :
  reg_alias p <> "" ->
  keyed_by_identity env docs ->
  ~ has_state_for_id (identity env p) docs ->
  ~ has_state_for_alias (alias_or_name p manifest) docs.
Proof.
  intros Hne Hkeyed Hfresh (d & Hin & Hd). apply Hfresh.
  exists d. split; [exact Hin|].
  rewrite (alias_or_name_nonempty p manifest Hne) in Hd.
  unfold identity. rewrite <- Hd. now apply Hkeyed.
Qed.

(** C1, as amended.  The existence check is made on the alias the plugin
    is registered under.  When no state document carries that alias, a
    registration that returns has invoked the [bootstrap] task exactly
    once (it is the only task invoked) and has created exactly one state
    document, keyed by the identity of the declaration and carrying the
    alias.  From then on, on any host whose collection holds that
    document, a registration under the same alias, whatever its outcome,
    invokes no task and leaves the collection as it is. *)
Theorem bootstrap_runs_once_per_alias (p : Registration) (h h1 : Host) :
  ~ has_state_for_alias (effective_alias env p) (pluginState h) ->
  registerPlugin env p h = (Ok tt, h1) ->
  exists manifest,
    let doc := mkState (identity env p) manifest (effective_alias env p) in
    trace h1
    = trace h ++ [mkCall (effective_alias env p) "bootstrap" true] /\
    pluginState h1 = pluginState h ++ [doc] /\
    forall p' h2 r h3,
      effective_alias env p' = effective_alias env p ->
      In doc (pluginState h2) ->
      registerPlugin env p' h2 = (r, h3) ->
      trace h3 = trace h2 /\ pluginState h3 = pluginState h2.
Proof.
  intros Hfresh.
  rewrite registerPlugin_steps. unfold effective_alias in *.
  destruct (manifest_of env p) as [manifest|e]; [|discriminate].
  cbv zeta.
  destruct (prepare env _ p manifest) as [loaded|e] eqn:Hprep; [|discriminate].
  apply prepare_fields in Hprep as (Hid & Halias & Hman & _ & _).
  intros Hrun. exists manifest.
  apply bootstrap_and_index_inv in Hrun
    as [(Hdoc & _ & _)|[(_ & _ & Hr & _)|[(_ & _ & _ & _ & ->)|(e & _ & _ & _ & Hr & _)]]];
    try discriminate.
  - exfalso. apply Hfresh. now rewrite <- Halias.
  - cbv zeta. unfold state_of. rewrite Hid, Halias, Hman.
    split; [reflexivity|]. split; [reflexivity|].
    intros p' h2 r h3 Hsame Hdoc.
    rewrite registerPlugin_steps.
    destruct (manifest_of env p') as [manifest'|e'];
      [|intros [= <- <-]; auto].
    cbv zeta.
    destruct (prepare env _ p' manifest') as [loaded'|e'] eqn:Hprep';
      [|intros [= <- <-]; auto].
    apply prepare_fields in Hprep' as (_ & Halias' & _).
    intros Hrun.
    apply bootstrap_and_index_inv in Hrun
      as [(_ & _ & ->)|[(Hno & _)|[(Hno & _)|(e' & Hno & _)]]];
      [split; reflexivity| | |];
      exfalso; apply Hno; rewrite Halias', Hsame;
      eexists; (split; [exact Hdoc|reflexivity]).
Qed.

(** C2.  When the [bootstrap] task is invoked during a registration and
    throws, [registerPlugin] throws; the collection is as before the
    call and holds no document for the identity of the plugin, no
    document is left uncommitted, and the flat table and the capability
    tables are as before the call. *)
Theorem failed_bootstrap_leaves_no_state (p : Registration) (h h' : Host)
    (r : Res unit) (calls : list TaskCall) (alias : string) :
  registerPlugin env p h = (r, h') ->
  trace h' = trace h ++ calls ->
  In (mkCall alias "bootstrap" false) calls ->
  (exists e, r = Throw e) /\
  ~ has_state_for_id (identity env p) (pluginState h') /\
  pluginState h' = pluginState h /\
  uncommitted h' = [] /\
  same_tables (registry h) (registry h').
Proof.
  rewrite registerPlugin_steps.
  destruct (manifest_of env p) as [manifest|e].
  2:{ intros [= <- <-] Htrace Hin.
      apply same_trace_no_calls in Htrace. subst calls. destruct Hin. }
  cbv zeta.
  destruct (prepare env _ p manifest) as [loaded|e] eqn:Hprep.
  2:{ intros [= <- <-] Htrace Hin.
      apply same_trace_no_calls in Htrace. subst calls. destruct Hin. }
  apply prepare_fields in Hprep as (Hid & _).
  intros Hrun Htrace Hin.
  apply bootstrap_and_index_inv in Hrun
    as [(_ & _ & ->)|[(_ & _ & _ & ->)|[(_ & _ & _ & _ & ->)|(e & _ & Hfresh & _ & -> & ->)]]].
  - apply same_trace_no_calls in Htrace. subst calls. destruct Hin.
  - apply same_trace_no_calls in Htrace. subst calls. destruct Hin.
  - simpl in Htrace. apply app_inv_head in Htrace. subst calls.
    destruct Hin as [Hin|[]]. discriminate.
  - split; [now exists e|].
    split; [simpl; now rewrite <- Hid|].
    split; [reflexivity|]. split; [reflexivity|].
    unfold same_tables; simpl; tauto.
Qed.

(* --------------------------------------------------------------------- *)
(** *** Registration of a batch *)
(* --------------------------------------------------------------------- *)

Lemma register_phases (batch : list Registration) (h : Host) :
  register env batch h
  = (errors <- for_of_errors batch [] (resolve_manifest_step env) ;;
     for_of_errors batch errors (register_step env)) h.
Proof. reflexivity. Qed.

Lemma for_of_errors_app (A : Type) (xs ys : list A) (errors : list Exn)
    (body : A -> list Exn -> M (list Exn)) (h : Host) :
  for_of_errors (xs ++ ys) errors body h
  = match for_of_errors xs errors body h with
    | (Ok errors', h') => for_of_errors ys errors' body h'
    | (Throw e, h') => (Throw e, h')
    end.
Proof.
  revert errors h. induction xs as [|x xs IH]; intros errors h; simpl.
  - reflexivity.
  - unfold bind. destruct (body x errors h) as [[errors'|e] h']; auto.
Qed.

Lemma manifests_only_refl (h : Host) : manifests_only h h.
Proof. exists (_manifests (registry h)). now destruct h as [[] ? ? ? ?]. Qed.


Lemma resolve_manifest_step_run (p : Registration) (errors : list Exn)
    (h : Host) :
  resolve_manifest_step env p errors h
  = match manifest_of env p with
    | Ok manifest => (Ok errors, cache_manifest p manifest h)
    | Throw e =>
        (Ok (if instanceof_RegistryError e then errors ++ [e] else errors), h)
    end.
Proof.
  unfold resolve_manifest_step, manifest_of, identity.
  unfold try_catch, bind at 1, lift.
  destruct (runner_getManifest env _) as [manifest|e]; [reflexivity|].
  destruct (instanceof_RegistryError e); reflexivity.
Qed.

Lemma manifest_phase (batch : list Registration) (errors : list Exn)
    (h : Host) :
  (forall p e, In p batch -> manifest_of env p = Throw e ->
               instanceof_RegistryError e = false) ->
  exists h',
    for_of_errors batch errors (resolve_manifest_step env) h = (Ok errors, h')
    /\ manifests_only h h'.
Proof.
  revert h. induction batch as [|p batch IH]; intros h Hforeign; simpl.
  - exists h. split; [reflexivity|apply manifests_only_refl].
  - unfold bind. rewrite resolve_manifest_step_run.
    destruct (manifest_of env p) as [manifest|e] eqn:Hm.
    + destruct (IH (cache_manifest p manifest h)) as (h' & Hrun & [cache ->]).
      { intros q e Hq. apply Hforeign. now right. }
      exists (with_registry
                (with_manifests cache (registry (cache_manifest p manifest h)))
                (cache_manifest p manifest h)).
      split; [exact Hrun|]. exists cache. reflexivity.
    + rewrite (Hforeign p e (or_introl eq_refl) Hm).
      apply IH. intros q e' Hq. apply Hforeign. now right.
Qed.

Lemma register_step_invalid_manifest (bad : Registration) (e : Exn)
    (errors : list Exn) (h : Host) :
  manifest_of env bad = Throw e ->
  instanceof_RegistryError e = false ->
  register_step env bad errors h
  = (Ok (errors ++
           [RegistryError "Failed to register plugin"
              (mkDetails (reg_alias bad) (reg_path bad)
                 (or_undefined
                    (manifest_lookup (reg_alias bad)
                       (_manifests (registry h)))))
              e]),
     h).
Proof.
  intros Hm Hforeign. unfold register_step, try_catch, bind at 1.
  rewrite registerPlugin_steps, Hm, Hforeign. reflexivity.
Qed.

Lemma registered_after_set (alias : string) (loaded : LoadedPlugin)
    (table : JsObject.t LoadedPlugin) :
  (exists l, JsObject.stored alias table = Some l /\ loaded_alias l = alias) ->
  exists l, JsObject.stored alias (JsObject.set (loaded_alias loaded) loaded table)
            = Some l /\ loaded_alias l = alias.
Proof.
  intros (l & Hget & Hl).
  destruct (String.eqb_spec (loaded_alias loaded) alias) as [Heq|Hne].
  - exists loaded. rewrite <- Heq at 1. split; [apply stored_set_same|exact Heq].
  - exists l. split; [|exact Hl]. now rewrite stored_set_other.
Qed.

(** A declaration whose steps all succeed registers from any host on
    which its identity does not clash. *)
Lemma register_step_clean (p : Registration) (errors : list Exn) (h : Host) :
  registers_cleanly env p ->
  id_agrees_with_alias env p (pluginState h) ->
  exists h' loaded,
    register_step env p errors h = (Ok errors, h') /\
    loaded_alias loaded = effective_alias env p /\
    plugins (registry h')
    = JsObject.set (effective_alias env p) loaded (plugins (registry h)) /\
    has_state_for_alias (effective_alias env p) (pluginState h') /\
    (pluginState h' = pluginState h \/
     exists doc, pluginState h' = pluginState h ++ [doc] /\
                 state_id doc = identity env p /\
                 state_alias doc = effective_alias env p).
Proof.
  intros (manifest & Hm & Hclean) Hagrees.
  unfold register_step, try_catch, bind at 1.
  rewrite registerPlugin_steps. unfold effective_alias in *. rewrite Hm in *.
  cbv zeta.
  destruct (Hclean (fun a => manifest_lookup a
              (_manifests (registry (cache_manifest p manifest h)))))
    as (loaded & Hprep & Hboot).
  rewrite Hprep.
  apply prepare_fields in Hprep as (Hid & Halias & _).
  destruct (bootstrap_and_index env loaded (cache_manifest p manifest h))
    as [r h'] eqn:Hrun.
  apply bootstrap_and_index_inv in Hrun
    as [(Hdoc & -> & ->)|[(Hno & (d & Hin & Hd) & _)|[(_ & _ & _ & -> & ->)|(e & _ & _ & He & _)]]].
  - eexists; exists loaded. split; [reflexivity|].
    split; [exact Halias|].
    split; [rewrite index_plugin_plugins, Halias; reflexivity|].
    split; [now rewrite <- Halias|]. now left.
  - exfalso. apply Hno. exists d. split; [exact Hin|].
    rewrite Halias. assert (Hd' := Hagrees d Hin).
    unfold effective_alias in Hd'. rewrite Hm in Hd'.
    apply Hd'. now rewrite <- Hid.
  - eexists; exists loaded. split; [reflexivity|].
    split; [exact Halias|].
    split; [rewrite index_plugin_plugins, Halias; reflexivity|].
    assert (Hdoc : state_alias (state_of loaded) = alias_or_name p manifest)
      by (simpl; exact Halias).
    split.
    + exists (state_of loaded). split; [|exact Hdoc].
      simpl. apply in_or_app. right. now left.
    + right. exists (state_of loaded). simpl. auto.
  - congruence.
Qed.

(** The second loop over declarations that all register. *)
Lemma register_phase_clean (others ps : list Registration)
    (errors : list Exn) (h : Host) :
  (forall p, In p ps -> In p others) ->
  (forall p, In p others -> registers_cleanly env p) ->
  no_identity_clash env others (pluginState h) ->
  exists h',
    for_of_errors ps errors (register_step env) h = (Ok errors, h') /\
    no_identity_clash env others (pluginState h') /\
    (forall p, In p ps ->
       registered (effective_alias env p) h' /\
       has_state_for_alias (effective_alias env p) (pluginState h')) /\
    (forall a, registered a h -> registered a h') /\
    (forall a, has_state_for_alias a (pluginState h) ->
               has_state_for_alias a (pluginState h')).
Proof.
  revert h. induction ps as [|p ps IH]; intros h Hsub Hclean Hclash; simpl.
  - exists h. split; [reflexivity|]. split; [exact Hclash|].
    split; [intros p []|]. split; auto.
  - unfold bind.
    destruct (register_step_clean p errors h)
      as (h1 & loaded & Hrun & Halias & Hplugins & Hdoc & Hstate).
    { apply Hclean, Hsub. now left. }
    { apply Hclash, Hsub. now left. }
    rewrite Hrun.
    assert (Hclash1 : no_identity_clash env others (pluginState h1)).
    { destruct Hclash as [Hids Hdocs]. split; [exact Hids|].
      destruct Hstate as [->|(doc & -> & Hdid & Hdalias)]; [exact Hdocs|].
      intros q Hq d Hin Hd. apply in_app_or in Hin as [Hin|[<-|[]]].
      - now apply (Hdocs q Hq).
      - rewrite Hdalias.
        apply Hids; [apply Hsub; now left|exact Hq|congruence]. }
    assert (Hmono : forall a, registered a h -> registered a h1).
    { intros a Hreg. unfold registered. rewrite Hplugins, <- Halias.
      now apply registered_after_set. }
    assert (Hdocs1 : forall a, has_state_for_alias a (pluginState h) ->
                               has_state_for_alias a (pluginState h1)).
    { intros a (d & Hin & Hd).
      destruct Hstate as [->|(doc & -> & _)]; exists d; split; auto.
      apply in_or_app. now left. }
    destruct (IH h1) as (h' & Hloop & Hclash' & Hall & Hmono' & Hdocs').
    { intros q Hq. apply Hsub. now right. }
    { exact Hclean. }
    { exact Hclash1. }
    exists h'. split; [exact Hloop|]. split; [exact Hclash'|].
    split; [|split; auto].
    intros q [<-|Hq]; [|now apply Hall].
    split.
    + apply Hmono'. exists loaded. rewrite Hplugins.
      split; [apply stored_set_same|exact Halias].
    + apply Hdocs'. exact Hdoc.
Qed.


End Properties.

(* ===================================================================== *)
(** ** Identity *)
(* ===================================================================== *)

(** C4.  The identity of a plugin is a function of the alias of its
    declaration alone.  Take two declarations that carry the same alias
    and otherwise differ freely (path, configuration, plugin module), in
    two processes (two environments) that share the uuid library: their
    identities agree.  When both are registered, on any two hosts, and
    the registrations return, the [id] of the two loaded plugins put in
    the flat tables, the [pluginId] handed to their runners and the
    [_id] of every state document the registrations add all equal that
    one identity. *)
Theorem identity_depends_on_alias_only (env1 env2 : Env)
    (p1 p2 : Registration) :
  (forall name, uuid_v5_URL env1 name = uuid_v5_URL env2 name) ->
  reg_alias p1 = reg_alias p2 ->
  identity env1 p1 = identity env2 p2 /\
  forall h1 h1' h2 h2',
    registerPlugin env1 p1 h1 = (Ok tt, h1') ->
    registerPlugin env2 p2 h2 = (Ok tt, h2') ->
    (exists l1 l2,
       JsObject.stored (effective_alias env1 p1) (plugins (registry h1'))
       = Some l1 /\
       JsObject.stored (effective_alias env2 p2) (plugins (registry h2'))
       = Some l2 /\
       loaded_id l1 = uuid_v5_URL env1 (reg_alias p1) /\
       loaded_id l2 = loaded_id l1 /\
       pluginId (loaded_runner l2) = pluginId (loaded_runner l1)) /\
    (forall d1 d2,
       In d1 (pluginState h1') -> ~ In d1 (pluginState h1) ->
       In d2 (pluginState h2') -> ~ In d2 (pluginState h2) ->
       state_id d1 = state_id d2).
Proof.
  intros Huuid Halias.
  assert (Hid : identity env1 p1 = identity env2 p2).
  { unfold identity. now rewrite Halias, Huuid. }
  split; [exact Hid|].
  intros h1 h1' h2 h2' Hrun1 Hrun2. split.
  - apply registerPlugin_returns in Hrun1
      as (m1 & l1 & Hm1 & Hid1 & Ha1 & _ & Hr1 & Hget1 & _).
    apply registerPlugin_returns in Hrun2
      as (m2 & l2 & Hm2 & Hid2 & Ha2 & _ & Hr2 & Hget2 & _).
    exists l1, l2. unfold effective_alias. rewrite Hm1, Hm2, <- Ha1, <- Ha2.
    split; [exact Hget1|]. split; [exact Hget2|].
    split; [exact Hid1|]. split; congruence.
  - intros d1 d2 Hin1 Hnew1 Hin2 Hnew2.
    apply registerPlugin_pluginState in Hrun1 as [Heq1|(m1 & _ & _ & Heq1)];
      rewrite Heq1 in Hin1; [contradiction|].
    apply registerPlugin_pluginState in Hrun2 as [Heq2|(m2 & _ & _ & Heq2)];
      rewrite Heq2 in Hin2; [contradiction|].
    apply in_app_or in Hin1 as [Hin1|[<-|[]]]; [contradiction|].
    apply in_app_or in Hin2 as [Hin2|[<-|[]]]; [contradiction|].
    exact Hid.
Qed.

(* ===================================================================== *)
(** ** The theorems on the concrete environment *)
(* ===================================================================== *)

Lemma bootstrap_runs_once_per_alias_sample :
  let h1 := snd (registerPlugin Sample.env Sample.reranker new_Host) in
  trace h1 = [mkCall "rr" "bootstrap" true] /\
  map state_id (pluginState h1) = ["urn:uuid:rr"] /\
  trace (snd (registerPlugin Sample.env Sample.reranker h1)) = trace h1 /\
  pluginState (snd (registerPlugin Sample.env Sample.reranker h1))
  = pluginState h1.
Proof.
  intros h1.
  destruct (bootstrap_runs_once_per_alias Sample.env Sample.reranker
              new_Host h1)
    as (manifest & Htrace & Hstate & Hagain).
  - intros (d & [] & _).
  - reflexivity.
  - split; [exact Htrace|]. split; [rewrite Hstate; reflexivity|].
    apply (Hagain Sample.reranker h1
             (fst (registerPlugin Sample.env Sample.reranker h1))).
    + reflexivity.
    + rewrite Hstate. now left.
    + now destruct (registerPlugin Sample.env Sample.reranker h1).
Defined.

(** C1, the claim as first stated, fails.  A declaration without alias
    is registered under the name of its manifest, [reranker-x], and its
    state document is keyed by the identity of the empty alias.  A
    declaration with alias [reranker-x] is registered next: its identity
    has no state document, the registration returns, and yet no task is
    invoked and no state document is created, because a document already
    carries the alias. *)
Lemma fresh_identity_registered_without_bootstrap :
  let h := snd (registerPlugin Sample.env
                  (Sample.declaration "" "plugins/reranker") new_Host) in
  let p := Sample.declaration "reranker-x" "plugins/drive" in
  ~ has_state_for_id (identity Sample.env p) (pluginState h) /\
  exists h',
    registerPlugin Sample.env p h = (Ok tt, h') /\
    trace h' = trace h /\
    pluginState h' = pluginState h /\
    registered "reranker-x" h'.
Proof.
  intros h p. split.
  - intros (d & [<-|[]] & Hd). discriminate Hd.
  - exists (snd (registerPlugin Sample.env p h)).
    split; [reflexivity|]. split; [reflexivity|]. split; [reflexivity|].
    unfold registered. vm_compute. eexists. split; reflexivity.
Qed.

Lemma failed_bootstrap_leaves_no_state_sample :
  let h' := snd (registerPlugin Sample.env Sample.no_boot new_Host) in
  fst (registerPlugin Sample.env Sample.no_boot new_Host)
  = Throw (OtherError "bucket missing") /\
  pluginState h' = [] /\
  plugins (registry h') = [] /\
  storage (registry h') = [].
Proof.
  intros h'.
  destruct (failed_bootstrap_leaves_no_state Sample.env Sample.no_boot
              new_Host h'
              (fst (registerPlugin Sample.env Sample.no_boot new_Host))
              [mkCall "store" "bootstrap" false] "store")
    as (_ & _ & Hstate & _ & Htables).
  - reflexivity.
  - reflexivity.
  - now left.
  - split; [reflexivity|]. split; [exact Hstate|].
    destruct Htables as (Hplugins & _ & _ & Hstorage & _).
    split; [exact Hplugins|exact Hstorage].
Defined.


Lemma identity_depends_on_alias_only_sample :
  let p1 := Sample.declaration "rr" "plugins/reranker" in
  let p2 := mkRegistration "rr" "plugins/drive" (ConfigValue [("k", "v")]) in
  identity Sample.env p1 = identity Sample.env p2 /\
  forall d1 d2,
    In d1 (pluginState (snd (registerPlugin Sample.env p1 new_Host))) ->
    In d2 (pluginState (snd (registerPlugin Sample.env p2 new_Host))) ->
    state_id d1 = state_id d2.
Proof.
  intros p1 p2.
  destruct (identity_depends_on_alias_only Sample.env Sample.env p1 p2)
    as [Hid Hregistered].
  - reflexivity.
  - reflexivity.
  - split; [exact Hid|].
    destruct (Hregistered new_Host
                (snd (registerPlugin Sample.env p1 new_Host))
                new_Host
                (snd (registerPlugin Sample.env p2 new_Host)))
      as [_ Hdocs].
    + reflexivity.
    + reflexivity.
    + intros d1 d2 Hin1 Hin2.
      apply Hdocs; first [assumption | intros []].
Defined.

Lemma reranker_instance_exposes_only_rerank_sample :
  exposes (getInstance Sample.env Sample.loaded_reranker) "rerank" = true /\
  exposes (getInstance Sample.env Sample.loaded_reranker) "connect" = false.
Proof.
  destruct (reranker_instance_exposes_only_rerank Sample.env
              Sample.loaded_reranker eq_refl)
    as (_ & Hexposes & _ & _ & _ & Hprovider & _).
  split.
  - now apply Hexposes.
  - apply Hprovider. now left.
Defined.

Lemma getProvider_absent_alias_sample :
  getProvider "nonexistent" (Sample.after_register [Sample.drive])
  = (Ok JsObject.Undefined, Sample.after_register [Sample.drive]).
Proof.
  destruct (getProvider_absent_alias "nonexistent"
              (Sample.after_register [Sample.drive]))
    as (_ & Hplain & _).
  - intros [H|[]]. discriminate H.
  - now apply Hplain.
Defined.

(** C9 as stated fails: [constructor] is not present in the providers
    table of a new registry, and [getProvider] returns the function
    [Object.prototype.constructor] for it, not [undefined]. *)
Lemma getProvider_finds_inherited_constructor :
  ~ has_key "constructor" (providers (registry new_Host)) /\
  getProvider "constructor" new_Host
  = (Ok (JsObject.Builtin "constructor"), new_Host) /\
  fst (getProvider "constructor" new_Host) <> Ok JsObject.Undefined.
Proof.
  split; [intros []|]. split; [reflexivity|discriminate].
Qed.

Lemma startServices_fails_fast_sample :
  let h := Sample.after_register
             [Sample.svc_a; Sample.svc_b; Sample.svc_c; Sample.drive] in
  exists h',
    startServices Sample.env h
    = (Throw (RegistryError "Failed to start plugin service"
                (mkDetails "b" "plugins/svc-b"
                   (JsObject.Found (Sample.manifest "svc-b" "enhancer"
                            (Some "service"))))
                (OtherError "port in use")),
       h') /\
    skipn 4 (trace h')
    = [mkCall "a" "startService" true; mkCall "b" "startService" false] /\
    exists p e,
      loaded_alias p = "b" /\
      fst (startServices Sample.env h)
      = Throw (RegistryError "Failed to start plugin service"
                 (mkDetails "b" (pluginPath (loaded_runner p))
                    (JsObject.Found (loaded_manifest p))) e).
Proof.
  intros h.
  destruct (startServices_fails_fast Sample.env h) as (Hthrown & Hfail & _).
  eexists. split; [|split].
  - apply (Hfail
      [mkLoaded "urn:uuid:a" "a" (mkRunner "urn:uuid:a" "plugins/svc-a" [])
         (Sample.manifest "svc-a" "enhancer" (Some "service"))]
      (mkLoaded "urn:uuid:b" "b" (mkRunner "urn:uuid:b" "plugins/svc-b" [])
         (Sample.manifest "svc-b" "enhancer" (Some "service")))
      [mkLoaded "urn:uuid:c" "c" (mkRunner "urn:uuid:c" "plugins/svc-c" [])
         (Sample.manifest "svc-c" "enhancer" (Some "service"));
       mkLoaded "urn:uuid:drive" "drive"
         (mkRunner "urn:uuid:drive" "plugins/drive" [])
         (Sample.manifest "drive" "provider" None)]
      (OtherError "port in use")).
    + reflexivity.
    + intros q [<-|[]] _. reflexivity.
    + reflexivity.
    + reflexivity.
  - reflexivity.
  - destruct (Hthrown (fst (startServices Sample.env h))
                (snd (startServices Sample.env h))
                [mkCall "a" "startService" true;
                 mkCall "b" "startService" false] "b")
      as (before & p & after & e & _ & _ & Halias & Hr & _).
    + now destruct (startServices Sample.env h).
    + reflexivity.
    + right. now left.
    + exists p, e. split; [exact Halias|exact Hr].
Defined.

Lemma deletePlugin_removes_flat_entry_only_sample :
  let h := Sample.after_register [Sample.drive] in
  deletePlugin Sample.env "nonexistent" h = (Ok tt, h) /\
  exists h',
    deletePlugin Sample.env "drive" h = (Ok tt, h') /\
    JsObject.stored "drive" (plugins (registry h')) = None /\
    fst (getProvider "drive" h') = fst (getProvider "drive" h) /\
    trace h' = trace h ++ [mkCall "drive" "destroy" true] /\
    pluginState (settle h') = [].
Proof.
  intros h.
  destruct (deletePlugin_removes_flat_entry_only Sample.env "nonexistent" h)
    as [Hnoop _].
  destruct (deletePlugin_removes_flat_entry_only Sample.env "drive" h)
    as [_ Hdelete].
  split.
  - destruct Hnoop as (_ & Hplain & _).
    + intros [H|[]]. discriminate H.
    + now apply Hplain.
  - destruct (Hdelete
      (mkLoaded "urn:uuid:drive" "drive"
         (mkRunner "urn:uuid:drive" "plugins/drive" [])
         (Sample.manifest "drive" "provider" None)))
      as (r & h' & Hrun & Htrace & _ & Hprovider & Hreturned).
    + reflexivity.
    + destruct Hreturned as (-> & Hflat & _ & _ & _ & Hsettled & _).
      * reflexivity.
      * exists h'. split; [exact Hrun|].
        split; [apply Hflat; discriminate|].
        split; [exact Hprovider|]. split; [exact Htrace|].
        rewrite Hsettled. reflexivity.
Defined.

(** C8 as stated fails: [constructor] is not in the flat table of a new
    registry, and [deletePlugin] does not return for it: the flat table
    yields the function [Object.prototype.constructor], which
    [getInstance] takes for a plugin, and the read of the type of its
    manifest throws. *)
Lemma deletePlugin_throws_on_inherited_constructor :
  ~ has_key "constructor" (plugins (registry new_Host)) /\
  deletePlugin Sample.env "constructor" new_Host
  = (Throw TypeError_manifest_type, new_Host) /\
  deletePlugin Sample.env "constructor" new_Host <> (Ok tt, new_Host).
Proof.
  split; [intros []|]. split; [reflexivity|discriminate].
Qed.

Lemma deletePlugin_destroy_failure_changes_nothing_sample :
  let h := Sample.after_register [Sample.no_destroy] in
  exists h',
    deletePlugin Sample.env "db" h
    = (Throw (OtherError "still in use"), h') /\
    registry h' = registry h /\
    pluginState h' = pluginState h /\
    detached h' = [].
Proof.
  intros h.
  destruct (deletePlugin_destroy_failure_changes_nothing Sample.env "db"
      (mkLoaded "urn:uuid:db" "db"
         (mkRunner "urn:uuid:db" "plugins/no-destroy" [])
         (Sample.manifest "no-destroy" "database" None))
      (OtherError "still in use") h)
    as (h' & Hrun & _ & Hregistry & _ & _ & Hstate & _ & Hdetached & _).
  - reflexivity.
  - reflexivity.
  - exists h'. split; [exact Hrun|]. split; [exact Hregistry|].
    split; [exact Hstate|]. now rewrite Hdetached.
Defined.

Lemma stopServices_stops_every_service_sample :
  let h := Sample.after_register
             [Sample.svc_a; Sample.svc_b; Sample.svc_c; Sample.drive] in
  exists h',
    stopServices Sample.env h = (Ok tt, h') /\
    skipn 4 (trace h')
    = [mkCall "a" "stopService" true; mkCall "b" "stopService" false;
       mkCall "c" "stopService" true] /\
    In (mkCall "c" "stopService" true) (trace h').
Proof.
  intros h.
  destruct (stopServices_stops_every_service Sample.env h)
    as (h' & Hrun & Htrace & Hall & _).
  exists h'. split; [exact Hrun|]. split; [now rewrite Htrace|].
  apply (Hall
    (mkLoaded "urn:uuid:c" "c" (mkRunner "urn:uuid:c" "plugins/svc-c" [])
       (Sample.manifest "svc-c" "enhancer" (Some "service")))).
  - right. right. now left.
  - reflexivity.
Defined.

(* ===================================================================== *)
(** ** Further properties: tables and enumeration *)
(* ===================================================================== *)

Lemma insert_index_In (V : Type) (i : N) (e : string * V)
    (l : list (N * (string * V))) (x : N * (string * V)) :
  In x (JsObject.insert_index i e l) <-> x = (i, e) \/ In x l.
Proof.
  induction l as [|[j e'] rest IH]; simpl.
  - intuition.
  - destruct (i <? j)%N; simpl.
    + intuition.
    + rewrite IH. intuition.
Qed.

Lemma partition_keys_In (V : Type) (o : JsObject.t V) (e : string * V) :
  In e (map snd (fst (JsObject.partition_keys o))
        ++ snd (JsObject.partition_keys o))
  <-> In e o.
Proof.
  induction o as [|[k v] rest IH]; simpl.
  - tauto.
  - destruct (JsObject.partition_keys rest) as [idx str] eqn:Hp.
    simpl in IH. rewrite in_app_iff in IH.
    destruct (JsObject.array_index k) as [i|]; simpl;
      rewrite in_app_iff.
    + rewrite in_map_iff. split.
      * intros [(x & Hx & Hin)|Hin].
        -- apply insert_index_In in Hin as [->|Hin]; [now left|].
           right. apply IH. left. apply in_map_iff. now exists x.
        -- right. apply IH. now right.
      * intros [<-|Hin].
        -- left. exists (i, (k, v)). split; [reflexivity|].
           apply insert_index_In. now left.
        -- apply IH in Hin as [Hin|Hin]; [|now right].
           left. apply in_map_iff in Hin as (x & Hx & Hin).
           exists x. split; [exact Hx|]. apply insert_index_In. now right.
    + simpl. rewrite <- IH. tauto.
Qed.

(** The own properties are the bindings but that of [__proto__]. *)
Lemma own_In (V : Type) (o : JsObject.t V) (k : string) (v : V) :
  In (k, v) (JsObject.own o) <-> In (k, v) o /\ k <> "__proto__".
Proof.
  unfold JsObject.own. rewrite filter_In. cbn [fst].
  rewrite negb_true_iff. split; intros [Hin Hk]; (split; [exact Hin|]).
  - intros ->. discriminate Hk.
  - now destruct (String.eqb_spec k "__proto__").
Qed.

Lemma own_no_proto (V : Type) (o : JsObject.t V) :
  JsObject.stored "__proto__" o = None -> JsObject.own o = o.
Proof.
  unfold JsObject.own.
  induction o as [|[k v] rest IH]; cbn [JsObject.stored filter fst];
    [reflexivity|].
  destruct (String.eqb k "__proto__"); [discriminate|].
  intros H. cbn [negb]. now rewrite IH.
Qed.

(** [Object.entries] lists exactly the own properties of the object. *)
Lemma entries_In (V : Type) (o : JsObject.t V) (e : string * V) :
  In e (JsObject.entries o) <-> In e (JsObject.own o).
Proof.
  unfold JsObject.entries.
  pose proof (partition_keys_In V (JsObject.own o) e) as H.
  destruct (JsObject.partition_keys (JsObject.own o)) as [idx str]. exact H.
Qed.

(** [Object.values] lists exactly the values of the own properties. *)
Lemma values_In (V : Type) (o : JsObject.t V) (v : V) :
  In v (JsObject.values o) <-> exists k, In (k, v) (JsObject.own o).
Proof.
  unfold JsObject.values. rewrite in_map_iff. split.
  - intros ([k v'] & Hv & Hin). simpl in Hv. subst v'.
    exists k. now apply entries_In.
  - intros (k & Hin). exists (k, v). split; [reflexivity|].
    now apply entries_In.
Qed.

Lemma values_bound (V : Type) (o : JsObject.t V) (v : V) :
  In v (JsObject.values o) -> exists k, In (k, v) o.
Proof.
  intros Hin. apply values_In in Hin. destruct Hin as [k Hk].
  exists k. now apply own_In in Hk.
Qed.

Lemma partition_keys_no_index (V : Type) (o : JsObject.t V) :
  no_index_keys o -> JsObject.partition_keys o = ([], o).
Proof.
  unfold no_index_keys.
  induction o as [|[k v] rest IH]; simpl; intros Hkeys.
  - reflexivity.
  - rewrite IH by (intros k' Hk'; apply Hkeys; now right).
    now rewrite (Hkeys k (or_introl eq_refl)).
Qed.

Lemma own_no_index_keys (V : Type) (o : JsObject.t V) :
  no_index_keys o -> no_index_keys (JsObject.own o).
Proof.
  unfold no_index_keys. intros Hkeys k Hk. apply Hkeys.
  apply in_map_iff in Hk. destruct Hk as ([k' v] & <- & Hin).
  apply own_In in Hin. apply in_map_iff. exists (k', v). tauto.
Qed.

(** Without array-index keys the enumeration is the creation order of
    the own properties. *)
Lemma entries_creation_order (V : Type) (o : JsObject.t V) :
  no_index_keys o -> JsObject.entries o = JsObject.own o.
Proof.
  intros Hkeys. unfold JsObject.entries.
  now rewrite (partition_keys_no_index V _ (own_no_index_keys V o Hkeys)).
Qed.

Lemma set_keys (V : Type) (k : string) (v : V) (o : JsObject.t V) :
  map fst (JsObject.set k v o)
  = if existsb (String.eqb k) (map fst o) then map fst o
    else map fst o ++ [k].
Proof.
  induction o as [|[k' v'] rest IH]; simpl.
  - reflexivity.
  - rewrite (String.eqb_sym k k').
    destruct (String.eqb k' k) eqn:E; simpl; [reflexivity|].
    rewrite IH. now destruct (existsb (String.eqb k) (map fst rest)).
Qed.

Lemma set_In (V : Type) (k : string) (v : V) (o : JsObject.t V)
    (k' : string) (v' : V) :
  In (k', v') (JsObject.set k v o) ->
  (k' = k /\ v' = v) \/ (k' <> k /\ In (k', v') o) \/
  (k' = k /\ In (k', v') o).
Proof.
  induction o as [|[k0 v0] rest IH]; simpl.
  - intros [[= <- <-]|[]]. now left.
  - destruct (String.eqb_spec k0 k) as [->|Hne]; simpl.
    + intros [[= <- <-]|Hin]; [now left|].
      destruct (String.eqb_spec k' k) as [->|Hk]; auto.
    + intros [[= <- <-]|Hin]; [right; left; auto|].
      apply IH in Hin as [H|[[H1 H2]|[H1 H2]]]; auto.
Qed.

Lemma remove_In (V : Type) (k : string) (o : JsObject.t V)
    (k' : string) (v' : V) :
  In (k', v') (JsObject.remove k o) -> k' <> k /\ In (k', v') o.
Proof.
  induction o as [|[k0 v0] rest IH]; simpl.
  - intros [].
  - destruct (String.eqb_spec k0 k) as [->|Hne]; simpl.
    + intros Hin. apply IH in Hin as [H1 H2]. auto.
    + intros [[= <- <-]|Hin]; [auto|].
      apply IH in Hin as [H1 H2]. auto.
Qed.

Lemma remove_keys_NoDup (V : Type) (k : string) (o : JsObject.t V) :
  NoDup (map fst o) -> NoDup (map fst (JsObject.remove k o)).
Proof.
  induction o as [|[k0 v0] rest IH]; simpl; intros Hnd; auto.
  inversion Hnd as [|? ? Hnotin Hrest]; subst.
  destruct (String.eqb k0 k); auto.
  simpl. constructor; auto.
  intros Hin. apply in_map_iff in Hin as ([k1 v1] & Hk & Hin).
  simpl in Hk. subst k1. apply remove_In in Hin as [_ Hin].
  apply Hnotin. apply in_map_iff. now exists (k0, v1).
Qed.

Lemma delete_In (V : Type) (k : string) (o : JsObject.t V)
    (k' : string) (v' : V) :
  In (k', v') (JsObject.delete k o) -> In (k', v') o.
Proof.
  unfold JsObject.delete. destruct (String.eqb k "__proto__"); [tauto|].
  intros Hin. now apply remove_In in Hin.
Qed.

Lemma delete_keys_NoDup (V : Type) (k : string) (o : JsObject.t V) :
  NoDup (map fst o) -> NoDup (map fst (JsObject.delete k o)).
Proof.
  unfold JsObject.delete. destruct (String.eqb k "__proto__"); [tauto|].
  apply remove_keys_NoDup.
Qed.

Lemma existsb_key (k : string) (keys : list string) :
  existsb (String.eqb k) keys = true <-> In k keys.
Proof.
  rewrite existsb_exists. split.
  - intros (x & Hin & Hx). apply String.eqb_eq in Hx. now subst.
  - intros Hin. exists k. split; [exact Hin|apply String.eqb_refl].
Qed.

Lemma set_keys_NoDup (V : Type) (k : string) (v : V) (o : JsObject.t V) :
  NoDup (map fst o) -> NoDup (map fst (JsObject.set k v o)).
Proof.
  intros Hnd. rewrite set_keys.
  destruct (existsb (String.eqb k) (map fst o)) eqn:E; [exact Hnd|].
  apply NoDup_app; [exact Hnd|repeat constructor; auto|].
  intros a Hin [<-|[]].
  apply existsb_key in Hin. congruence.
Qed.

Lemma stored_In (V : Type) (k : string) (v : V) (o : JsObject.t V) :
  JsObject.stored k o = Some v -> In (k, v) o.
Proof.
  induction o as [|[k' v'] rest IH]; simpl; [discriminate|].
  destruct (String.eqb_spec k' k) as [->|Hne].
  - intros [= ->]. now left.
  - intros H. right. auto.
Qed.

Lemma In_stored (V : Type) (k : string) (v : V) (o : JsObject.t V) :
  NoDup (map fst o) -> In (k, v) o -> JsObject.stored k o = Some v.
Proof.
  induction o as [|[k' v'] rest IH]; simpl; [tauto|].
  intros Hnd. inversion Hnd as [|? ? Hnotin Hrest]; subst.
  intros [[= -> ->]|Hin].
  - now rewrite String.eqb_refl.
  - destruct (String.eqb_spec k' k) as [->|Hne]; [|auto].
    exfalso. apply Hnotin. apply in_map_iff. now exists (k, v).
Qed.

(* ===================================================================== *)
(** ** Further properties: registration *)
(* ===================================================================== *)

Ltac case_string s :=
  repeat match goal with
         | |- context [String.eqb s ?lit] =>
             destruct (String.eqb_spec s lit) as [->|?]
         end.

(** What the closing chain of [registerPlugin] does to each capability
    table. *)
Lemma index_by_type_table (alias : string) (loaded : LoadedPlugin)
    (r : PluginRegistry) (t : string)
    (table : PluginRegistry -> JsObject.t LoadedPlugin) :
  capability_table t = Some table ->
  table (index_by_type alias loaded r)
  = if String.eqb t (manifest_type (loaded_manifest loaded))
    then JsObject.set alias loaded (table r)
    else table r.
Proof.
  unfold capability_table, index_by_type.
  set (ty := manifest_type (loaded_manifest loaded)). clearbody ty.
  case_string t; try discriminate; intros [= <-];
    case_string ty;
    try match goal with
        | |- context [String.eqb ?lit ty] =>
            destruct (String.eqb_spec lit ty); [congruence|]
        end;
    reflexivity.
Qed.

Lemma index_by_type_untyped (alias : string) (loaded : LoadedPlugin)
    (r : PluginRegistry) :
  capability_table (manifest_type (loaded_manifest loaded)) = None ->
  index_by_type alias loaded r = r.
Proof.
  unfold capability_table, index_by_type.
  set (ty := manifest_type (loaded_manifest loaded)). clearbody ty.
  case_string ty; try discriminate. reflexivity.
Qed.

Lemma index_by_type_manifests (alias : string) (loaded : LoadedPlugin)
    (r : PluginRegistry) :
  _manifests (index_by_type alias loaded r) = _manifests r.
Proof.
  unfold index_by_type.
  repeat match goal with
         | |- context [if ?b then _ else _] => destruct b
         end; reflexivity.
Qed.

Lemma capability_table_cases (t : string)
    (table : PluginRegistry -> JsObject.t LoadedPlugin) :
  capability_table t = Some table -> In t capability_types.
Proof.
  unfold capability_table, capability_types.
  case_string t; try discriminate; intros _; simpl; tauto.
Qed.

Lemma well_keyed_set (loaded : LoadedPlugin)
    (table : JsObject.t LoadedPlugin) :
  well_keyed table ->
  well_keyed (JsObject.set (loaded_alias loaded) loaded table).
Proof.
  intros [Hnd Hown]. split.
  - now apply set_keys_NoDup.
  - intros k v Hin.
    apply set_In in Hin as [[-> ->]|[[_ Hin]|[_ Hin]]]; auto.
Qed.

Lemma well_keyed_delete (alias : string) (table : JsObject.t LoadedPlugin) :
  well_keyed table -> well_keyed (JsObject.delete alias table).
Proof.
  intros [Hnd Hown]. split.
  - now apply delete_keys_NoDup.
  - intros k v Hin. apply delete_In in Hin. auto.
Qed.

Lemma index_plugin_well_keyed (loaded : LoadedPlugin) (h : Host) :
  registry_well_keyed (registry h) ->
  registry_well_keyed (registry (index_plugin loaded h)).
Proof.
  intros [Hflat Hcap]. split.
  - rewrite index_plugin_plugins. now apply well_keyed_set.
  - intros t table Ht. unfold index_plugin.
    cbn [registry with_registry].
    rewrite (index_by_type_table _ _ _ t table Ht).
    assert (Htable : table (with_plugins
              (JsObject.set (loaded_alias loaded) loaded (plugins (registry h)))
              (registry h)) = table (registry h)).
    { revert Ht. unfold capability_table.
      case_string t; try discriminate; intros [= <-]; reflexivity. }
    rewrite Htable.
    destruct (String.eqb t (manifest_type (loaded_manifest loaded)));
      [apply well_keyed_set|]; now apply (Hcap t).
Qed.

Lemma capability_table_frame (t : string)
    (table : PluginRegistry -> JsObject.t LoadedPlugin)
    (r : PluginRegistry) :
  capability_table t = Some table ->
  (forall flat, table (with_plugins flat r) = table r) /\
  (forall cache, table (with_manifests cache r) = table r).
Proof.
  unfold capability_table.
  case_string t; try discriminate; intros [= <-]; split; reflexivity.
Qed.

Lemma index_plugin_table (loaded : LoadedPlugin) (h : Host) (t : string)
    (table : PluginRegistry -> JsObject.t LoadedPlugin) :
  capability_table t = Some table ->
  table (registry (index_plugin loaded h))
  = if String.eqb t (manifest_type (loaded_manifest loaded))
    then JsObject.set (loaded_alias loaded) loaded (table (registry h))
    else table (registry h).
Proof.
  intros Ht. unfold index_plugin. cbn [registry with_registry].
  rewrite (index_by_type_table _ _ _ t table Ht).
  now rewrite (proj1 (capability_table_frame t table (registry h) Ht)).
Qed.

Section FurtherRegistration.

Variable env : Env.

(** The host a registration that returns leaves: the loaded plugin is
    indexed on a host that differs from the first one in the manifest
    cache, and possibly in one more state document and one more call. *)
Lemma registerPlugin_returns_indexed (p : Registration) (h h' : Host) :
  registerPlugin env p h = (Ok tt, h') ->
  exists manifest loaded h0,
    manifest_of env p = Ok manifest /\
    prepare env
      (fun a => manifest_lookup a
                  (_manifests (registry (cache_manifest p manifest h))))
      p manifest = Ok loaded /\
    h' = index_plugin loaded h0 /\
    registry h0 = registry (cache_manifest p manifest h) /\
    detached h0 = detached h /\
    ((pluginState h0 = pluginState h /\ trace h0 = trace h /\
      has_state_for_alias (loaded_alias loaded) (pluginState h)) \/
     (pluginState h0 = pluginState h ++ [state_of loaded] /\
      trace h0
      = trace h ++ [mkCall (loaded_alias loaded) "bootstrap" true] /\
      ~ has_state_for_alias (loaded_alias loaded) (pluginState h))).
Proof.
  rewrite registerPlugin_steps.
  destruct (manifest_of env p) as [manifest|e]; [|discriminate].
  cbv zeta.
  destruct (prepare env _ p manifest) as [loaded|e] eqn:Hprep; [|discriminate].
  intros Hrun. exists manifest, loaded.
  apply bootstrap_and_index_inv in Hrun
    as [(Hdoc & _ & ->)|[(_ & _ & Hr & _)|[(Hno & _ & _ & _ & ->)|(e & _ & _ & _ & Hr & _)]]];
    try discriminate.
  - eexists. split; [reflexivity|]. split; [exact Hprep|].
    split; [reflexivity|]. split; [reflexivity|]. split; [reflexivity|].
    left. auto.
  - eexists. split; [reflexivity|]. split; [exact Hprep|].
    split; [reflexivity|]. split; [reflexivity|]. split; [reflexivity|].
    right. auto.
Qed.

(** The tables after a registration that returns. *)
Lemma registerPlugin_tables (p : Registration) (h h' : Host) :
  registerPlugin env p h = (Ok tt, h') ->
  exists loaded,
    loaded_alias loaded = effective_alias env p /\
    manifest_of env p = Ok (loaded_manifest loaded) /\
    plugins (registry h')
    = JsObject.set (effective_alias env p) loaded (plugins (registry h)) /\
    forall t table, capability_table t = Some table ->
      table (registry h')
      = if String.eqb t (manifest_type (loaded_manifest loaded))
        then JsObject.set (effective_alias env p) loaded (table (registry h))
        else table (registry h).
Proof.
  intros Hrun.
  apply registerPlugin_returns_indexed in Hrun
    as (manifest & loaded & h0 & Hm & Hprep & -> & Hreg & _ & _).
  apply prepare_fields in Hprep as (_ & Halias & Hman & _ & _).
  assert (Heff : loaded_alias loaded = effective_alias env p)
    by (unfold effective_alias; now rewrite Hm).
  exists loaded. split; [exact Heff|]. split; [now rewrite Hman|].
  rewrite <- Heff. split.
  - now rewrite index_plugin_plugins, Hreg.
  - intros t table Ht. rewrite (index_plugin_table loaded h0 t table Ht).
    rewrite Hreg. unfold cache_manifest. cbn [registry with_registry].
    now rewrite (proj2 (capability_table_frame t table (registry h) Ht)).
Qed.

(** A read of another key after an assignment under a key other than
    [__proto__]. *)
Lemma plugin_lookup_set_other (k other : string) (v : LoadedPlugin)
    (table : JsObject.t LoadedPlugin) :
  k <> "__proto__" -> k <> other ->
  plugin_lookup other (JsObject.set k v table) = plugin_lookup other table.
Proof.
  intros Hk Hne.
  unfold plugin_lookup, JsObject.lookup, JsObject.inherited, JsObject.proto.
  now rewrite !stored_set_other by assumption.
Qed.

(** A read of a key the table does not hold, after an assignment under
    [__proto__]: the field of that name of the new prototype. *)
Lemma plugin_lookup_set_proto (other : string) (v : LoadedPlugin)
    (f : PluginField) (table : JsObject.t LoadedPlugin) :
  JsObject.stored other table = None ->
  plugin_fields v other = Some f ->
  plugin_lookup other (JsObject.set "__proto__" v table) = JsObject.Field f.
Proof.
  intros Hget Hf.
  assert (Hne : "__proto__" <> other).
  { intros <-. discriminate Hf. }
  unfold plugin_lookup, JsObject.lookup, JsObject.inherited, JsObject.proto.
  rewrite stored_set_other by exact Hne.
  now rewrite Hget, stored_set_same, Hf.
Qed.

(** X1.  A registration that returns assigns the loaded plugin under its
    alias in the flat table and in the capability table of its manifest
    type, where a read under the alias then finds it, and in no other
    capability table; a plugin whose type is none of the ten is
    assigned in the flat table only.  Under an alias other than
    [__proto__] the assignment makes or replaces that one property: a
    read of any other key of the flat table finds what it found before.
    Under the alias [__proto__] the assignment makes the plugin the
    prototype of the table: the properties of the table are as before,
    and a read of [id], [alias], [runner] or [manifest], where the table
    holds no such property, now finds that field of the plugin. *)
Theorem registerPlugin_indexes_by_type (p : Registration) (h h' : Host) :
  registerPlugin env p h = (Ok tt, h') ->
  exists loaded,
    loaded_alias loaded = effective_alias env p /\
    manifest_of env p = Ok (loaded_manifest loaded) /\
    plugin_lookup (effective_alias env p) (plugins (registry h'))
    = JsObject.Found loaded /\
    (effective_alias env p <> "__proto__" ->
     forall other, other <> effective_alias env p ->
       plugin_lookup other (plugins (registry h'))
       = plugin_lookup other (plugins (registry h))) /\
    (effective_alias env p = "__proto__" ->
     JsObject.own (plugins (registry h'))
     = JsObject.own (plugins (registry h)) /\
     forall other f,
       JsObject.stored other (plugins (registry h)) = None ->
       plugin_fields loaded other = Some f ->
       plugin_lookup other (plugins (registry h')) = JsObject.Field f) /\
    (forall t table, capability_table t = Some table ->
       (t = manifest_type (loaded_manifest loaded) ->
        plugin_lookup (effective_alias env p) (table (registry h'))
        = JsObject.Found loaded) /\
       (t <> manifest_type (loaded_manifest loaded) ->
        table (registry h') = table (registry h))) /\
    (capability_table (manifest_type (loaded_manifest loaded)) = None ->
     same_capability_tables (registry h) (registry h')).
Proof.
  intros Hrun.
  destruct (registerPlugin_tables p h h' Hrun)
    as (loaded & Heff & Hman & Hflat & Hcap).
  exists loaded. split; [exact Heff|]. split; [exact Hman|].
  split.
  { rewrite Hflat. apply lookup_found, stored_set_same. }
  split.
  { intros Hplain other Hne. rewrite Hflat.
    apply plugin_lookup_set_other; congruence. }
  split.
  { intros Hproto. rewrite Hflat, Hproto. split; [apply own_set_proto|].
    intros other f Hget Hf. now apply plugin_lookup_set_proto. }
  split.
  - intros t table Ht. rewrite (Hcap t table Ht). split.
    + intros ->. rewrite String.eqb_refl. apply lookup_found, stored_set_same.
    + intros Hne.
      destruct (String.eqb_spec t (manifest_type (loaded_manifest loaded)));
        [contradiction|reflexivity].
  - intros Hnone. unfold same_capability_tables.
    assert (Hsame : forall t table, capability_table t = Some table ->
                      table (registry h') = table (registry h)).
    { intros t table Ht. rewrite (Hcap t table Ht).
      destruct (String.eqb_spec t (manifest_type (loaded_manifest loaded)))
        as [->|_]; [congruence|reflexivity]. }
    repeat split.
    + exact (Hsame "provider" providers eq_refl).
    + exact (Hsame "file_parser" fileParsers eq_refl).
    + exact (Hsame "storage" storage eq_refl).
    + exact (Hsame "database" database eq_refl).
    + exact (Hsame "enhancer" enhancers eq_refl).
    + exact (Hsame "generative" generative eq_refl).
    + exact (Hsame "reranker" rerankers eq_refl).
    + exact (Hsame "text_vectorizer" textVectorizers eq_refl).
    + exact (Hsame "image_vectorizer" imageVectorizers eq_refl).
    + exact (Hsame "multimodal_vectorizer" multimodalVectorizers eq_refl).
Qed.

(** X2.  A registration that throws, at whatever step, registers and
    persists nothing: the flat table, the ten capability tables and the
    collection are as before the call, and no deletion is started. *)
Theorem registerPlugin_failure_registers_nothing (p : Registration)
    (h h' : Host) (e : Exn) :
  registerPlugin env p h = (Throw e, h') ->
  same_tables (registry h) (registry h') /\
  pluginState h' = pluginState h /\
  detached h' = detached h.
Proof.
  rewrite registerPlugin_steps.
  destruct (manifest_of env p) as [manifest|e0].
  2:{ intros [= _ <-]. unfold same_tables. tauto. }
  cbv zeta.
  destruct (prepare env _ p manifest) as [loaded|e0].
  2:{ intros [= _ <-]. unfold same_tables. simpl. tauto. }
  intros Hrun.
  apply bootstrap_and_index_inv in Hrun
    as [(_ & Hr & _)|[(_ & _ & _ & ->)|[(_ & _ & _ & Hr & _)|(e0 & _ & _ & _ & _ & ->)]]];
    try discriminate; unfold same_tables; simpl; tauto.
Qed.

(** X3.  Validation of the configuration.  When the plugin declares a
    config schema: a configuration the schema rejects with a [ZodError]
    makes [registerPlugin] throw the registry error whose message lists
    the issues, one per line, and whose cause is the [ZodError]; a
    configuration the schema accepts is replaced by the parsed value,
    which is the one [initialize] runs with and the one the registered
    runner holds. *)
Theorem registerPlugin_validates_config (p : Registration) (h : Host)
    (manifest : PluginManifest) (config : Config) (schema : Schema) :
  let id := identity env p in
  let details :=
    mkDetails (alias_or_name p manifest) (reg_path p) (JsObject.Found manifest) in
  manifest_of env p = Ok manifest ->
  resolve_config env
    (fun a => manifest_lookup a
                (_manifests (registry (cache_manifest p manifest h))))
    p manifest = Ok config ->
  runner_load env (mkRunner id (reg_path p) config) = Ok tt ->
  runner_getSchema env (mkRunner id (reg_path p) config) "config"
  = Ok (Some schema) ->
  (forall issues,
     schema config = Throw (ZodError issues) ->
     registerPlugin env p h
     = (Throw (RegistryError
                 ("Invalid plugin config: " ++ newline
                    ++ String.concat newline issues)
                 details (ZodError issues)),
        cache_manifest p manifest h)) /\
  (forall parsed e,
     schema config = Ok parsed ->
     runner_initialize env (mkRunner id (reg_path p) parsed) = Throw e ->
     registerPlugin env p h
     = (Throw (RegistryError
                 ("Failed to initialize plugin '" ++ manifest_name manifest
                    ++ "'")
                 details e),
        cache_manifest p manifest h)) /\
  (forall parsed h',
     schema config = Ok parsed ->
     registerPlugin env p h = (Ok tt, h') ->
     exists loaded,
       JsObject.stored (alias_or_name p manifest) (plugins (registry h'))
       = Some loaded /\
       loaded_runner loaded = mkRunner id (reg_path p) parsed).
Proof.
  intros id details Hm Hconfig Hload Hschema.
  assert (Hsteps :
    registerPlugin env p h
    = match prepare env
              (fun a => manifest_lookup a
                 (_manifests (registry (cache_manifest p manifest h))))
              p manifest with
      | Throw e => (Throw e, cache_manifest p manifest h)
      | Ok loaded =>
          bootstrap_and_index env loaded (cache_manifest p manifest h)
      end).
  { rewrite registerPlugin_steps, Hm. reflexivity. }
  unfold prepare in Hsteps. rewrite Hconfig in Hsteps.
  fold id in Hsteps. rewrite Hload, Hschema in Hsteps.
  split; [|split].
  - intros issues Hparse. rewrite Hparse in Hsteps. exact Hsteps.
  - intros parsed e Hparse Hinit. rewrite Hparse, Hinit in Hsteps.
    exact Hsteps.
  - intros parsed h' Hparse Hrun. rewrite Hparse in Hsteps.
    destruct (runner_initialize env (mkRunner id (reg_path p) parsed))
      as [[]|e]; rewrite Hsteps in Hrun; [|discriminate].
    apply bootstrap_and_index_inv in Hrun
      as [(_ & _ & ->)|[(_ & _ & Hr & _)|[(_ & _ & _ & _ & ->)|(e & _ & _ & _ & Hr & _)]]];
      try discriminate;
      exists (mkLoaded id (alias_or_name p manifest)
                (mkRunner id (reg_path p) parsed) manifest);
      (split; [apply (index_plugin_registered (mkLoaded _ _ _ _))
              |reflexivity]).
Qed.

(* --------------------------------------------------------------------- *)
(** *** Batches *)
(* --------------------------------------------------------------------- *)

Lemma register_step_run (p : Registration) (errors : list Exn) (h : Host) :
  register_step env p errors h
  = match registerPlugin env p h with
    | (Ok _, h') => (Ok errors, h')
    | (Throw e, h') =>
        (Ok (errors ++
               [if instanceof_RegistryError e then e
                else RegistryError "Failed to register plugin"
                       (mkDetails (reg_alias p) (reg_path p)
                          (or_undefined
                             (manifest_lookup (reg_alias p)
                                (_manifests (registry h')))))
                       e]),
         h')
    end.
Proof.
  unfold register_step, try_catch, bind at 1.
  destruct (registerPlugin env p h) as [[[]|e] h']; [reflexivity|].
  destruct (instanceof_RegistryError e); reflexivity.
Qed.

Lemma for_of_errors_appends (A : Type) (P : Exn -> Prop)
    (body : A -> list Exn -> M (list Exn)) :
  (forall x errors h, exists extra h',
     body x errors h = (Ok (errors ++ extra), h') /\
     Forall P extra /\ length extra <= 1) ->
  forall xs errors h, exists extra h',
    for_of_errors xs errors body h = (Ok (errors ++ extra), h') /\
    Forall P extra /\ length extra <= length xs.
Proof.
  intros Hbody xs. induction xs as [|x xs IH]; intros errors h; simpl.
  - exists [], h. rewrite app_nil_r. repeat split; auto.
  - unfold bind.
    destruct (Hbody x errors h) as (extra1 & h1 & -> & HP1 & Hlen1).
    destruct (IH (errors ++ extra1) h1) as (extra2 & h2 & -> & HP2 & Hlen2).
    exists (extra1 ++ extra2), h2. rewrite app_assoc.
    split; [reflexivity|]. split; [now apply Forall_app|].
    rewrite length_app. lia.
Qed.

(** X4.  [register] never throws, whatever the declarations and the
    plugins do: it returns a list of errors, every one of them a
    registry error, with at most two entries per declaration (one per
    loop). *)
Theorem register_collects_registry_errors (batch : list Registration)
    (h : Host) :
  exists errors h',
    register env batch h = (Ok errors, h') /\
    Forall (fun e => instanceof_RegistryError e = true) errors /\
    length errors <= 2 * length batch.
Proof.
  rewrite register_phases. unfold bind at 1.
  destruct (for_of_errors_appends Registration
              (fun e => instanceof_RegistryError e = true)
              (resolve_manifest_step env)) with (xs := batch)
              (errors := @nil Exn) (h := h)
    as (extra1 & h1 & Hrun1 & HP1 & Hlen1).
  { intros p errors h0. rewrite resolve_manifest_step_run.
    destruct (manifest_of env p) as [m|e].
    - exists [], (cache_manifest p m h0). rewrite app_nil_r.
      repeat split; auto.
    - destruct (instanceof_RegistryError e) eqn:E.
      + exists [e], h0. repeat split; auto.
      + exists [], h0. rewrite app_nil_r. repeat split; auto. }
  rewrite Hrun1.
  destruct (for_of_errors_appends Registration
              (fun e => instanceof_RegistryError e = true)
              (register_step env)) with (xs := batch)
              (errors := [] ++ extra1) (h := h1)
    as (extra2 & h2 & Hrun2 & HP2 & Hlen2).
  { intros p errors h0. rewrite register_step_run.
    destruct (registerPlugin env p h0) as [[[]|e] h'].
    - exists [], h'. rewrite app_nil_r. repeat split; auto.
    - eexists; exists h'. split; [reflexivity|]. split; [|simpl; lia].
      constructor; [|constructor].
      destruct (instanceof_RegistryError e) eqn:E; [exact E|reflexivity]. }
  rewrite Hrun2. eexists; eexists. split; [reflexivity|].
  split.
  - apply Forall_app. split; [exact HP1|exact HP2].
  - rewrite length_app. simpl. lia.
Qed.

(** X5.  A batch in which every declaration registers on its own (all
    its steps succeed and its identity does not clash) yields the empty
    error list, and every declaration ends up registered under its
    alias with its state document persisted. *)
Theorem register_clean_batch (batch : list Registration) (h : Host) :
  (forall p, In p batch -> registers_cleanly env p) ->
  no_identity_clash env batch (pluginState h) ->
  exists h',
    register env batch h = (Ok [], h') /\
    (forall p, In p batch ->
       registered (effective_alias env p) h' /\
       has_state_for_alias (effective_alias env p) (pluginState h')).
Proof.
  intros Hclean Hclash.
  rewrite register_phases. unfold bind at 1.
  destruct (manifest_phase env batch [] h) as (h1 & Hphase1 & [cache ->]).
  { intros p e Hin Hm. destruct (Hclean p Hin) as (m & Hm' & _). congruence. }
  rewrite Hphase1.
  destruct (register_phase_clean env batch batch []
              (with_registry (with_manifests cache (registry h)) h))
    as (h2 & Hloop & _ & Hall & _ & _); auto.
  exists h2. split; [exact Hloop|exact Hall].
Qed.

(* --------------------------------------------------------------------- *)
(** *** The manifest cache *)
(* --------------------------------------------------------------------- *)

Lemma registerPlugin_manifests (p : Registration) (h h' : Host)
    (r : Res unit) :
  registerPlugin env p h = (r, h') ->
  _manifests (registry h')
  = match manifest_of env p with
    | Ok manifest =>
        JsObject.set (reg_alias p) manifest (_manifests (registry h))
    | Throw _ => _manifests (registry h)
    end.
Proof.
  rewrite registerPlugin_steps.
  destruct (manifest_of env p) as [manifest|e]; [|now intros [= _ <-]].
  cbv zeta.
  destruct (prepare env _ p manifest) as [loaded|e]; [|now intros [= _ <-]].
  intros Hrun.
  apply bootstrap_and_index_inv in Hrun
    as [(_ & _ & ->)|[(_ & _ & _ & ->)|[(_ & _ & _ & _ & ->)|(e & _ & _ & _ & _ & ->)]]];
    try reflexivity;
    unfold index_plugin; cbn [registry with_registry];
    now rewrite index_by_type_manifests.
Qed.

(** A loop that, for each declaration, leaves the cache as it is or sets
    the manifest of the declaration under its alias. *)
Lemma manifests_loop (body : Registration -> list Exn -> M (list Exn))
    (batch : list Registration) :
  (forall p errors h r h',
     body p errors h = (r, h') ->
     (exists errors', r = Ok errors') /\
     _manifests (registry h')
     = match manifest_of env p with
       | Ok manifest =>
           JsObject.set (reg_alias p) manifest (_manifests (registry h))
       | Throw _ => _manifests (registry h)
       end) ->
  NoDup (map reg_alias batch) ->
  forall errors h r h',
    for_of_errors batch errors body h = (r, h') ->
    (forall p manifest, In p batch -> manifest_of env p = Ok manifest ->
       JsObject.stored (reg_alias p) (_manifests (registry h'))
       = Some manifest) /\
    (forall a, ~ In a (map reg_alias batch) ->
       JsObject.stored a (_manifests (registry h'))
       = JsObject.stored a (_manifests (registry h))).
Proof.
  intros Hbody. induction batch as [|p batch IH];
    intros Hnd errors h r h'; simpl.
  - unfold ret. intros [= _ <-]. split; [intros ? ? []|auto].
  - inversion Hnd as [|? ? Hnotin Hnd']; subst.
    unfold bind. destruct (body p errors h) as [r1 h1] eqn:Hstep.
    apply Hbody in Hstep as [[errors' ->] Hcache].
    intros Hloop. apply (IH Hnd') in Hloop as [Hin Hout].
    split.
    + intros q m [Heq|Hq] Hm.
      * subst q. rewrite Hout by exact Hnotin.
        rewrite Hcache, Hm. apply stored_set_same.
      * now apply Hin.
    + intros a Ha. rewrite Hout by (intros H; apply Ha; now right).
      rewrite Hcache. destruct (manifest_of env p); [|reflexivity].
      apply stored_set_other. intros Heq. apply Ha. now left.
Qed.

(** X6.  The manifest cache after [register]: when the aliases of the
    batch are distinct, [getManifest] answers, for every declaration
    whose manifest the runner produces, with that manifest, whether or
    not the declaration went on to register; already after the first
    loop the cache holds them all, so the configuration loader of any
    declaration can look up the manifest of any other. *)
Theorem register_caches_manifests (batch : list Registration) (h : Host) :
  NoDup (map reg_alias batch) ->
  (forall errors h1,
     for_of_errors batch [] (resolve_manifest_step env) h = (Ok errors, h1) ->
     forall p manifest, In p batch -> manifest_of env p = Ok manifest ->
       JsObject.stored (reg_alias p) (_manifests (registry h1))
       = Some manifest) /\
  (forall errors h',
     register env batch h = (Ok errors, h') ->
     forall p manifest, In p batch -> manifest_of env p = Ok manifest ->
       getManifest (reg_alias p) h'
       = (Ok (JsObject.Found manifest), h')).
Proof.
  intros Hnd.
  assert (Hfirst : forall p errors h0 r h',
    resolve_manifest_step env p errors h0 = (r, h') ->
    (exists errors', r = Ok errors') /\
    _manifests (registry h')
    = match manifest_of env p with
      | Ok manifest =>
          JsObject.set (reg_alias p) manifest (_manifests (registry h0))
      | Throw _ => _manifests (registry h0)
      end).
  { intros p errors h0 r h'. rewrite resolve_manifest_step_run.
    destruct (manifest_of env p); intros [= <- <-]; split; eauto. }
  assert (Hsecond : forall p errors h0 r h',
    register_step env p errors h0 = (r, h') ->
    (exists errors', r = Ok errors') /\
    _manifests (registry h')
    = match manifest_of env p with
      | Ok manifest =>
          JsObject.set (reg_alias p) manifest (_manifests (registry h0))
      | Throw _ => _manifests (registry h0)
      end).
  { intros p errors h0 r h'. rewrite register_step_run.
    destruct (registerPlugin env p h0) as [[[]|e] h1] eqn:Hrun;
      intros [= <- <-]; (split; [eauto|]);
      exact (registerPlugin_manifests p h0 h1 _ Hrun). }
  split.
  - intros errors h1 Hloop.
    exact (proj1 (manifests_loop _ batch Hfirst Hnd _ _ _ _ Hloop)).
  - intros errors h'. rewrite register_phases. unfold bind at 1.
    destruct (for_of_errors batch [] (resolve_manifest_step env) h)
      as [[errors1|e] h1]; [|discriminate].
    intros Hloop p manifest Hin Hm. unfold getManifest, gets.
    unfold manifest_lookup.
    now rewrite (lookup_found _ _ manifest_fields _ _ _
                   (proj1 (manifests_loop _ batch Hsecond Hnd _ _ _ _ Hloop)
                      p manifest Hin Hm)).
Qed.

(* --------------------------------------------------------------------- *)
(** *** Registering an alias again *)
(* --------------------------------------------------------------------- *)

Lemma stored_some_key (V : Type) (k : string) (v : V) (o : JsObject.t V) :
  JsObject.stored k o = Some v -> existsb (String.eqb k) (map fst o) = true.
Proof.
  intros Hget. apply existsb_key. apply in_map_iff.
  exists (k, v). split; [reflexivity|now apply stored_In].
Qed.

(** X7.  Two registrations under one alias that both return: the flat
    table answers with the plugin of the second one (the last
    registration wins), its keys are those it had after the first, and
    the second registration invokes no task and creates no state
    document, the document of the first being found under the alias. *)
Theorem reregistration_last_wins (p1 p2 : Registration) (h h1 h2 : Host) :
  registerPlugin env p1 h = (Ok tt, h1) ->
  registerPlugin env p2 h1 = (Ok tt, h2) ->
  effective_alias env p1 = effective_alias env p2 ->
  exists l2,
    JsObject.stored (effective_alias env p1) (plugins (registry h2)) = Some l2 /\
    loaded_id l2 = identity env p2 /\
    manifest_of env p2 = Ok (loaded_manifest l2) /\
    map fst (plugins (registry h2)) = map fst (plugins (registry h1)) /\
    trace h2 = trace h1 /\
    pluginState h2 = pluginState h1.
Proof.
  intros Hrun1 Hrun2 Hsame.
  apply registerPlugin_returns in Hrun1
    as (m1 & l1 & Hm1 & _ & Ha1 & _ & _ & Hget1 & Hdoc1).
  assert (Heff1 : loaded_alias l1 = effective_alias env p1)
    by (unfold effective_alias; now rewrite Hm1).
  apply registerPlugin_returns_indexed in Hrun2
    as (m2 & l2 & h0 & Hm2 & Hprep & -> & Hreg & _ & Hcases).
  apply prepare_fields in Hprep as (Hid2 & Ha2 & Hman2 & _ & _).
  assert (Heff2 : loaded_alias l2 = effective_alias env p2)
    by (unfold effective_alias; now rewrite Hm2).
  exists l2. rewrite Hsame, <- Heff2.
  split; [apply index_plugin_registered|].
  split; [exact Hid2|]. split; [now rewrite Hman2|].
  split.
  - rewrite index_plugin_plugins, Hreg, set_keys.
    unfold cache_manifest. cbn [registry with_registry plugins with_manifests].
    rewrite (stored_some_key _ _ l1); [reflexivity|].
    now rewrite Heff2, <- Hsame, <- Heff1.
  - destruct Hcases as [(Hstate & Htrace & _)|(_ & _ & Hno)].
    + split; [exact Htrace|exact Hstate].
    + exfalso. apply Hno. now rewrite Heff2, <- Hsame, <- Heff1.
Qed.

(** X8.  An alias registered again with another manifest type is left in
    the capability table of the first type: that table still answers
    with the first plugin while the flat table and the table of the new
    type answer with the second, so that two capability tables hold the
    alias. *)
Theorem reregistration_keeps_old_capability_entry (p1 p2 : Registration)
    (h h1 h2 : Host) (m1 m2 : PluginManifest)
    (table1 table2 : PluginRegistry -> JsObject.t LoadedPlugin) :
  registerPlugin env p1 h = (Ok tt, h1) ->
  registerPlugin env p2 h1 = (Ok tt, h2) ->
  effective_alias env p1 = effective_alias env p2 ->
  manifest_of env p1 = Ok m1 ->
  manifest_of env p2 = Ok m2 ->
  capability_table (manifest_type m1) = Some table1 ->
  capability_table (manifest_type m2) = Some table2 ->
  manifest_type m1 <> manifest_type m2 ->
  exists l1 l2,
    loaded_manifest l1 = m1 /\ loaded_manifest l2 = m2 /\
    JsObject.stored (effective_alias env p1) (table1 (registry h2)) = Some l1 /\
    JsObject.stored (effective_alias env p1) (table2 (registry h2)) = Some l2 /\
    JsObject.stored (effective_alias env p1) (plugins (registry h2)) = Some l2.
Proof.
  intros Hrun1 Hrun2 Hsame Hm1 Hm2 Ht1 Ht2 Hne.
  apply registerPlugin_tables in Hrun1 as (l1 & _ & Hman1 & _ & Hcap1).
  apply registerPlugin_tables in Hrun2 as (l2 & _ & Hman2 & Hflat2 & Hcap2).
  rewrite Hm1 in Hman1. rewrite Hm2 in Hman2.
  injection Hman1 as Hman1. injection Hman2 as Hman2.
  exists l1, l2. split; [auto|]. split; [auto|].
  rewrite <- Hsame in Hflat2, Hcap2.
  split; [|split].
  - rewrite (Hcap2 _ _ Ht1), (Hcap1 _ _ Ht1), <- Hman1, <- Hman2.
    destruct (String.eqb_spec (manifest_type m1) (manifest_type m2));
      [contradiction|].
    rewrite String.eqb_refl. apply stored_set_same.
  - rewrite (Hcap2 _ _ Ht2), <- Hman2, String.eqb_refl. apply stored_set_same.
  - rewrite Hflat2. apply stored_set_same.
Qed.

(* --------------------------------------------------------------------- *)
(** *** The keys of the tables *)
(* --------------------------------------------------------------------- *)

Lemma for_of_errors_invariant (A : Type) (Inv : Host -> Prop)
    (body : A -> list Exn -> M (list Exn)) :
  (forall x errors h r h', Inv h -> body x errors h = (r, h') -> Inv h') ->
  forall xs errors h r h',
    Inv h -> for_of_errors xs errors body h = (r, h') -> Inv h'.
Proof.
  intros Hbody xs. induction xs as [|x xs IH]; intros errors h r h' Hinv;
    simpl.
  - unfold ret. now intros [= _ <-].
  - unfold bind. destruct (body x errors h) as [[errors'|e] h1] eqn:Hstep.
    + apply IH. exact (Hbody _ _ _ _ _ Hinv Hstep).
    + intros [= _ <-]. exact (Hbody _ _ _ _ _ Hinv Hstep).
Qed.

Lemma registerPlugin_well_keyed (p : Registration) (h h' : Host)
    (r : Res unit) :
  registry_well_keyed (registry h) ->
  registerPlugin env p h = (r, h') ->
  registry_well_keyed (registry h').
Proof.
  intros Hwk. rewrite registerPlugin_steps.
  assert (Hcache : forall m,
    registry_well_keyed (registry (cache_manifest p m h))).
  { intros m. destruct Hwk as [Hflat Hcap]. split; [exact Hflat|].
    intros t table Ht. unfold cache_manifest. cbn [registry with_registry].
    rewrite (proj2 (capability_table_frame t table (registry h) Ht)).
    now apply (Hcap t). }
  destruct (manifest_of env p) as [manifest|e]; [|now intros [= _ <-]].
  cbv zeta.
  destruct (prepare env _ p manifest) as [loaded|e];
    [|intros [= _ <-]; apply Hcache].
  intros Hrun.
  apply bootstrap_and_index_inv in Hrun
    as [(_ & _ & ->)|[(_ & _ & _ & ->)|[(_ & _ & _ & _ & ->)|(e & _ & _ & _ & _ & ->)]]];
    try apply Hcache;
    apply index_plugin_well_keyed; apply Hcache.
Qed.

(** X9.  The keys of the tables.  On a registry whose tables have
    distinct keys and hold every plugin under its own alias (the empty
    registry is one), [registerPlugin], [deletePlugin] and [register]
    keep it so, whatever their outcome, and [startServices] and
    [stopServices] leave the registry as it is. *)
Theorem registry_stays_well_keyed (h : Host) :
  registry_well_keyed (registry new_Host) /\
  (registry_well_keyed (registry h) ->
   (forall p r h', registerPlugin env p h = (r, h') ->
      registry_well_keyed (registry h')) /\
   (forall alias r h', deletePlugin env alias h = (r, h') ->
      registry_well_keyed (registry h')) /\
   (forall batch r h', register env batch h = (r, h') ->
      registry_well_keyed (registry h')) /\
   (forall r h', startServices env h = (r, h') -> registry h' = registry h) /\
   (forall r h', stopServices env h = (r, h') -> registry h' = registry h)).
Proof.
  split.
  { split.
    - split; [constructor|intros k v []].
    - intros t table Ht. revert Ht. unfold capability_table.
      case_string t; try discriminate; intros [= <-];
        (split; [constructor|intros k v []]). }
  intros Hwk. split; [|split; [|split; [|split]]].
  - intros p r h'. now apply registerPlugin_well_keyed.
  - intros alias r h' Hrun.
    apply deletePlugin_registry in Hrun. destruct Hrun as [[->| ->] _];
      [exact Hwk|].
    destruct Hwk as [Hflat Hcap]. split.
    + cbn [plugins with_plugins]. now apply well_keyed_delete.
    + intros t table Ht.
      rewrite (proj1 (capability_table_frame t table (registry h) Ht)).
      now apply (Hcap t).
  - intros batch r h'. rewrite register_phases. unfold bind at 1.
    destruct (for_of_errors batch [] (resolve_manifest_step env) h)
      as [[errors|e] h1] eqn:Hloop1.
    + intros Hloop2.
      apply (for_of_errors_invariant Registration
               (fun h => registry_well_keyed (registry h))
               (register_step env)) in Hloop2; auto.
      * intros p errs h0 r0 h0' Hinv. rewrite register_step_run.
        destruct (registerPlugin env p h0) as [[[]|e] h2] eqn:Hrun;
          intros [= _ <-];
          exact (registerPlugin_well_keyed p h0 h2 _ Hinv Hrun).
      * apply (for_of_errors_invariant Registration
                 (fun h => registry_well_keyed (registry h))
                 (resolve_manifest_step env)) in Hloop1; auto.
        intros p errs h0 r0 h0' [Hflat Hcap].
        rewrite resolve_manifest_step_run.
        destruct (manifest_of env p); intros [= _ <-];
          [|split; assumption].
        split; [exact Hflat|].
        intros t table Ht. unfold cache_manifest.
        cbn [registry with_registry].
        rewrite (proj2 (capability_table_frame t table (registry h0) Ht)).
        now apply (Hcap t).
    + intros [= _ <-].
      apply (for_of_errors_invariant Registration
               (fun h => registry_well_keyed (registry h))
               (resolve_manifest_step env)) in Hloop1; auto.
      intros p errs h0 r0 h0' [Hflat Hcap].
      rewrite resolve_manifest_step_run.
      destruct (manifest_of env p); intros [= _ <-];
        [|split; assumption].
      split; [exact Hflat|].
      intros t table Ht. unfold cache_manifest.
      cbn [registry with_registry].
      rewrite (proj2 (capability_table_frame t table (registry h0) Ht)).
      now apply (Hcap t).
  - intros r h'. unfold startServices. unfold bind at 1. unfold gets.
    intros Hrun.
    apply start_loop_only_services in Hrun as (started & rest & _ & ->).
    reflexivity.
  - intros r h'. unfold stopServices. unfold bind at 1. unfold gets.
    rewrite stop_loop. now intros [= _ <-].
Qed.

(* --------------------------------------------------------------------- *)
(** *** Lookups *)
(* --------------------------------------------------------------------- *)

(** X10.  [getPluginById] answers with a plugin that is an entry of the
    flat table and whose [id] is the one asked for, and with the absent
    value exactly when no entry of the flat table has that [id].  After
    a registration that returns, the identity of the declaration finds a
    plugin, unless the alias is [__proto__]: such a registration adds
    no entry, the entries are those from before it and the answer is
    the one from before it. *)
Theorem getPluginById_finds_by_id (id : string) (h : Host) :
  exists answer,
    getPluginById id h = (Ok answer, h) /\
    (forall l, answer = Some l ->
       loaded_id l = id /\
       exists k, In (k, l) (JsObject.own (plugins (registry h)))) /\
    (answer = None <->
     forall k l, In (k, l) (JsObject.own (plugins (registry h))) ->
                 loaded_id l <> id) /\
    (forall p h0, registerPlugin env p h0 = (Ok tt, h) ->
       id = identity env p -> effective_alias env p <> "__proto__" ->
       answer <> None) /\
    (forall p h0, registerPlugin env p h0 = (Ok tt, h) ->
       effective_alias env p = "__proto__" ->
       JsObject.own (plugins (registry h))
       = JsObject.own (plugins (registry h0)) /\
       getPluginById id h0 = (Ok answer, h0)).
Proof.
  assert (Hproto : forall p h0, registerPlugin env p h0 = (Ok tt, h) ->
            effective_alias env p = "__proto__" ->
            JsObject.own (plugins (registry h))
            = JsObject.own (plugins (registry h0))).
  { intros p h0 Hrun Halias.
    destruct (registerPlugin_returns_indexed p h0 h Hrun)
      as (m & l & h1 & Hm & Hprep & -> & Hreg & _).
    apply prepare_fields in Hprep. destruct Hprep as (_ & Hl & _).
    unfold effective_alias in Halias. rewrite Hm in Halias.
    rewrite index_plugin_plugins, Hreg, Hl, Halias.
    cbn [cache_manifest registry with_registry plugins with_manifests].
    apply own_set_proto. }
  unfold getPluginById, gets.
  destruct (find (fun plugin => String.eqb (loaded_id plugin) id)
              (JsObject.values (plugins (registry h)))) as [l|] eqn:Hfind.
  - exists (Some l). split; [reflexivity|].
    pose proof Hfind as Hfound.
    apply find_some in Hfind as [Hin Hid].
    apply String.eqb_eq in Hid. apply values_In in Hin.
    split; [now intros l' [= <-]|].
    split.
    { split; [discriminate|].
      intros Hnone. destruct Hin as (k & Hin). exfalso.
      exact (Hnone k l Hin Hid). }
    split; [discriminate|].
    intros p h0 Hrun Halias.
    pose proof (Hproto p h0 Hrun Halias) as Hown. split; [exact Hown|].
    f_equal. rewrite <- Hfound. f_equal.
    unfold JsObject.values, JsObject.entries. now rewrite Hown.
  - exists None. split; [reflexivity|].
    assert (Hnone : forall k l,
              In (k, l) (JsObject.own (plugins (registry h))) ->
              loaded_id l <> id).
    { intros k l Hin Hid.
      assert (Hv : In l (JsObject.values (plugins (registry h))))
        by (apply values_In; now exists k).
      apply (find_none _ _ Hfind) in Hv.
      rewrite Hid, String.eqb_refl in Hv. discriminate. }
    split; [discriminate|]. split; [tauto|].
    split.
    + intros p h0 Hrun -> Hplain _.
      pose proof Hrun as Hrun'.
      apply registerPlugin_returns in Hrun
        as (m & l & Hm & Hid & Hl & _ & _ & Hget & _).
      apply stored_In in Hget.
      assert (Hown : In (loaded_alias l, l)
                       (JsObject.own (plugins (registry h)))).
      { apply own_In. split; [exact Hget|].
        unfold effective_alias in Hplain. rewrite Hm in Hplain.
        now rewrite Hl. }
      exact (Hnone _ _ Hown Hid).
    + intros p h0 Hrun Halias.
      pose proof (Hproto p h0 Hrun Halias) as Hown. split; [exact Hown|].
      f_equal. rewrite <- Hfind. f_equal.
      unfold JsObject.values, JsObject.entries. now rewrite Hown.
Qed.

(** X11.  The catalog of [getPlugins]: without a type (or with the empty
    one) it has one entry per own property of the flat table, carrying the
    key as alias and the id, type, name, display name, description
    (empty when the manifest has none) and version of the plugin; with
    a type it is that catalog restricted to the entries of the type. *)
Theorem getPlugins_catalog (h : Host) :
  exists all,
    getPlugins None h = (Ok all, h) /\
    getPlugins (Some "") h = (Ok all, h) /\
    length all = length (JsObject.own (plugins (registry h))) /\
    (forall info, In info all <->
       exists alias plugin,
         In (alias, plugin) (JsObject.own (plugins (registry h))) /\
         info = info_of alias plugin) /\
    (forall type, type <> "" ->
       exists typed,
         getPlugins (Some type) h = (Ok typed, h) /\
         forall info, In info typed <->
                      In info all /\ info_type info = type).
Proof.
  eexists. split; [reflexivity|]. split; [reflexivity|].
  split; [|split].
  - rewrite length_map. unfold JsObject.entries.
    assert (Hlen : forall (o : JsObject.t LoadedPlugin),
      length (map snd (fst (JsObject.partition_keys o))
              ++ snd (JsObject.partition_keys o)) = length o).
    { induction o as [|[k v] rest IH]; simpl; [reflexivity|].
      destruct (JsObject.partition_keys rest) as [idx str]. simpl in IH.
      assert (Hins : forall i e (l : list (N * (string * LoadedPlugin))),
        length (JsObject.insert_index i e l) = S (length l)).
      { intros i e l. induction l as [|[j e'] l IHl]; simpl; [reflexivity|].
        destruct (i <? j)%N; simpl; [reflexivity|now rewrite IHl]. }
      destruct (JsObject.array_index k); simpl;
        rewrite length_app, length_map in *; simpl;
        [rewrite Hins|]; lia. }
    specialize (Hlen (JsObject.own (plugins (registry h)))).
    now destruct (JsObject.partition_keys
                    (JsObject.own (plugins (registry h)))).
  - intros info. rewrite in_map_iff. split.
    + intros ([alias plugin] & <- & Hin).
      apply (proj1 (entries_In _ _ _)) in Hin.
      exists alias, plugin. split; [exact Hin|reflexivity].
    + intros (alias & plugin & Hin & ->). exists (alias, plugin).
      split; [reflexivity|exact (proj2 (entries_In _ _ _) Hin)].
  - intros type Hne. unfold getPlugins. unfold bind, gets.
    destruct (String.eqb_spec type ""); [contradiction|].
    eexists. split; [reflexivity|].
    intros info. rewrite filter_In, String.eqb_eq. tauto.
Qed.

Lemma partition_keys_append_index (V : Type) (o : JsObject.t V)
    (k : string) (v : V) (i : N) :
  no_index_keys o -> JsObject.array_index k = Some i ->
  JsObject.partition_keys (o ++ [(k, v)]) = ([(i, (k, v))], o).
Proof.
  unfold no_index_keys.
  induction o as [|[k0 v0] rest IH]; simpl; intros Hkeys Hk.
  - now rewrite Hk.
  - rewrite IH; [|intros k' Hk'; apply Hkeys; now right|exact Hk].
    now rewrite (Hkeys k0 (or_introl eq_refl)).
Qed.

Lemma set_fresh_key (V : Type) (k : string) (v : V) (o : JsObject.t V) :
  ~ In k (map fst o) -> JsObject.set k v o = o ++ [(k, v)].
Proof.
  induction o as [|[k0 v0] rest IH]; simpl; intros Hk; [reflexivity|].
  destruct (String.eqb_spec k0 k) as [->|Hne]; [exfalso; auto|].
  now rewrite IH by auto.
Qed.

Lemma set_other_head (V : Type) (k k0 : string) (v v0 : V)
    (rest : JsObject.t V) :
  k <> k0 ->
  JsObject.set k v ((k0, v0) :: rest) = (k0, v0) :: JsObject.set k v rest.
Proof.
  intros Hne. simpl. destruct (String.eqb_spec k0 k); congruence.
Qed.

Lemma set_no_index_keys (V : Type) (k : string) (v : V) (o : JsObject.t V) :
  no_index_keys o -> JsObject.array_index k = None ->
  no_index_keys (JsObject.set k v o).
Proof.
  unfold no_index_keys. intros Hkeys Hk k'. rewrite set_keys.
  destruct (existsb (String.eqb k) (map fst o)); [apply Hkeys|].
  rewrite in_app_iff. intros [Hin|[<-|[]]]; auto.
Qed.

(** X12.  [getStorage] answers with the absent value exactly when the
    storage table has no entry.  While no alias of the table is an array
    index it answers with the storage plugin registered first, and a
    later registration under another alias that is not an array index
    does not change the answer; but a storage plugin registered later
    under an alias that is an array index (["0"], ["7"]) is enumerated
    first and becomes the answer. *)
Theorem getStorage_first_registered (h : Host) :
  (getStorage h = (Ok None, h)
   <-> JsObject.own (storage (registry h)) = []) /\
  (no_index_keys (storage (registry h)) ->
   getStorage h
   = (Ok (hd_error (map snd (JsObject.own (storage (registry h))))), h)) /\
  (forall p h' k0 s0 rest,
     registerPlugin env p h = (Ok tt, h') ->
     JsObject.own (storage (registry h)) = (k0, s0) :: rest ->
     no_index_keys (storage (registry h)) ->
     JsObject.array_index (effective_alias env p) = None ->
     effective_alias env p <> k0 ->
     getStorage h' = (Ok (Some s0), h')) /\
  (forall p h' manifest i,
     registerPlugin env p h = (Ok tt, h') ->
     manifest_of env p = Ok manifest ->
     manifest_type manifest = "storage" ->
     no_index_keys (storage (registry h)) ->
     JsObject.array_index (effective_alias env p) = Some i ->
     exists loaded,
       getStorage h' = (Ok (Some loaded), h') /\
       loaded_alias loaded = effective_alias env p).
Proof.
  split; [|split; [|split]].
  - unfold getStorage, gets. split.
    + intros [= Hnone].
      destruct (JsObject.own (storage (registry h))) as [|[k v] rest] eqn:Hown;
        [reflexivity|].
      exfalso.
      assert (Hv : In v (JsObject.values (storage (registry h))))
        by (apply values_In; exists k; rewrite Hown; now left).
      destruct (JsObject.values (storage (registry h)));
        [destruct Hv|discriminate].
    + intros Hown. unfold JsObject.values, JsObject.entries.
      now rewrite Hown.
  - intros Hkeys. unfold getStorage, gets, JsObject.values.
    now rewrite (entries_creation_order _ _ Hkeys).
  - intros p h' k0 s0 rest Hrun Hstorage Hkeys Hk Hne.
    apply registerPlugin_tables in Hrun as (loaded & _ & _ & _ & Hcap).
    specialize (Hcap "storage" storage eq_refl).
    unfold getStorage, gets, JsObject.values.
    rewrite entries_creation_order.
    + rewrite Hcap.
      destruct (String.eqb "storage" (manifest_type (loaded_manifest loaded)));
        [|now rewrite Hstorage].
      rewrite own_set_cases.
      destruct (String.eqb (effective_alias env p) "__proto__");
        rewrite Hstorage; [reflexivity|].
      rewrite set_other_head by exact Hne. reflexivity.
    + rewrite Hcap.
      destruct (String.eqb "storage" (manifest_type (loaded_manifest loaded)));
        [|exact Hkeys].
      now apply set_no_index_keys.
  - intros p h' manifest i Hrun Hm Htype Hkeys Hk.
    apply registerPlugin_tables in Hrun as (loaded & Halias & Hm' & _ & Hcap).
    specialize (Hcap "storage" storage eq_refl).
    rewrite Hm in Hm'. injection Hm' as Hm'.
    rewrite <- Hm', Htype, String.eqb_refl in Hcap.
    exists loaded. split; [|exact Halias].
    assert (Hplain : effective_alias env p <> "__proto__")
      by (intros Heq; rewrite Heq in Hk; discriminate Hk).
    unfold getStorage, gets, JsObject.values, JsObject.entries.
    rewrite Hcap, (own_set _ _ _ _ Hplain), set_fresh_key.
    + now rewrite (partition_keys_append_index _ _ _ _ i
                     (own_no_index_keys _ _ Hkeys) Hk).
    + intros Hin. apply (own_no_index_keys _ _ Hkeys) in Hin. congruence.
Qed.

(* --------------------------------------------------------------------- *)
(** *** Deleting and registering again *)
(* --------------------------------------------------------------------- *)

Lemma inherited_delete (k k' : string) (table : JsObject.t LoadedPlugin) :
  JsObject.inherited plugin_fields k' (JsObject.delete k table)
  = JsObject.inherited plugin_fields k' table.
Proof.
  unfold JsObject.inherited, JsObject.proto.
  destruct (String.eqb_spec k "__proto__") as [->|Hk]; [reflexivity|].
  now rewrite (stored_delete_other _ k "__proto__" table Hk).
Qed.

(** X13.  After [deletePlugin] has returned for an alias under which the
    flat table held a plugin, [destroy] was run once and the catalog of
    [getPlugins] has no entry under the alias.  For an alias other than
    [__proto__], a second [deletePlugin] on it invokes nothing and
    changes nothing when the prototype chain of the table holds nothing
    under the alias; when the alias is the name of a function of
    [Object.prototype] (a plugin registered as [constructor]), the
    second [deletePlugin] throws the [TypeError] of [getInstance] and
    changes nothing.  A plugin registered under [__proto__] is not
    removed, and the second [deletePlugin] runs [destroy] on it
    again. *)
Theorem deletePlugin_twice (alias : string) (plugin : LoadedPlugin)
    (h h' : Host) :
  JsObject.stored alias (plugins (registry h)) = Some plugin ->
  deletePlugin env alias h = (Ok tt, h') ->
  trace h' = trace h ++ [mkCall (loaded_alias plugin) "destroy" true] /\
  (forall all info,
     getPlugins None h' = (Ok all, h') -> In info all ->
     info_alias info <> alias) /\
  (alias <> "__proto__" ->
   (JsObject.inherited plugin_fields alias (plugins (registry h))
    = JsObject.Undefined ->
    deletePlugin env alias h' = (Ok tt, h')) /\
   (forall name,
      JsObject.inherited plugin_fields alias (plugins (registry h))
      = JsObject.Builtin name ->
      deletePlugin env alias h' = (Throw TypeError_manifest_type, h'))) /\
  (alias = "__proto__" ->
   plugins (registry h') = plugins (registry h) /\
   exists h'',
     deletePlugin env alias h' = (Ok tt, h'') /\
     trace h''
     = trace h' ++ [mkCall (loaded_alias plugin) "destroy" true]).
Proof.
  intros Hget. rewrite (deletePlugin_known env alias plugin h Hget).
  unfold call_of.
  destruct (runner_runTask env (loaded_runner plugin) "destroy")
    as [[]|e] eqn:Hdestroy; [|discriminate].
  intros [= <-]. split; [reflexivity|]. split; [|split].
  - intros all info. unfold getPlugins, bind, gets, ret.
    intros [= <-] Hin. apply in_map_iff in Hin as ([k v] & <- & Hin).
    apply (proj1 (entries_In _ _ _)) in Hin.
    cbn [registry with_registry plugins with_plugins] in Hin.
    cbn [info_of info_alias].
    destruct (String.eqb_spec alias "__proto__") as [->|Hplain].
    + apply own_In in Hin. exact (proj2 Hin).
    + rewrite (own_delete _ _ _ Hplain) in Hin.
      apply remove_In in Hin as [Hne _]. exact Hne.
  - intros Hplain.
    assert (Hlookup :
      plugin_lookup alias
        (JsObject.delete alias (plugins (registry h)))
      = JsObject.inherited plugin_fields alias (plugins (registry h))).
    { unfold plugin_lookup.
      rewrite lookup_absent by (now apply stored_delete_same).
      apply inherited_delete. }
    split.
    + intros Hnothing. apply deletePlugin_undefined.
      cbn [registry with_registry plugins with_plugins].
      now rewrite Hlookup.
    + intros name Hname. unfold deletePlugin. unfold bind at 1. unfold gets.
      cbn [registry with_registry plugins with_plugins].
      now rewrite Hlookup, Hname.
  - intros ->. split; [reflexivity|].
    eexists. split.
    + rewrite deletePlugin_known with (plugin := plugin) by exact Hget.
      rewrite Hdestroy. reflexivity.
    + unfold call_of. rewrite Hdestroy. reflexivity.
Qed.

Lemma trace_settle (h : Host) : trace (settle h) = trace h.
Proof.
  unfold settle. cbn [trace with_detached].
  generalize (detached h). intros ts. revert h.
  induction ts as [|[a] ts IH]; intros h; simpl; [reflexivity|].
  now rewrite IH.
Qed.

(** X14.  Deleting a plugin resets its bootstrap.  Once [deletePlugin]
    has returned and the pending deletion has run (one state document
    per alias, nothing else pending), a registration under the alias
    that returns invokes [bootstrap] again and persists a new state
    document. *)
Theorem deletePlugin_resets_bootstrap (alias : string) (plugin : LoadedPlugin)
    (p : Registration) (h h1 h2 : Host) :
  NoDup (map state_alias (pluginState h)) ->
  detached h = [] ->
  JsObject.stored alias (plugins (registry h)) = Some plugin ->
  deletePlugin env alias h = (Ok tt, h1) ->
  effective_alias env p = alias ->
  registerPlugin env p (settle h1) = (Ok tt, h2) ->
  ~ has_state_for_alias alias (pluginState (settle h1)) /\
  trace h2 = trace h1 ++ [mkCall alias "bootstrap" true] /\
  has_state_for_alias alias (pluginState h2).
Proof.
  intros Hnd Hdetached Hget.
  rewrite (deletePlugin_known env alias plugin h Hget).
  destruct (runner_runTask env (loaded_runner plugin) "destroy")
    as [[]|e]; [|discriminate].
  intros [= <-] Halias Hrun.
  assert (Hgone : ~ has_state_for_alias alias
                      (pluginState (settle
                         (with_registry
                            (with_plugins
                               (JsObject.delete alias (plugins (registry h)))
                               (registry h))
                            (with_detached
                               (detached h ++ [DeleteOneByAlias alias])
                               (add_calls [call_of env "destroy" plugin] h)))))).
  { rewrite pluginState_settle.
    cbn [detached pluginState with_registry with_detached add_calls
         with_trace].
    rewrite Hdetached. cbn [app fold_left].
    intros (d & Hin & Hd).
    apply (remove_first_In alias (pluginState h) d Hnd) in Hin as [_ Hne].
    contradiction. }
  split; [exact Hgone|].
  apply registerPlugin_returns_indexed in Hrun
    as (manifest & loaded & h0 & Hm & Hprep & -> & _ & _ & Hcases).
  apply prepare_fields in Hprep as (_ & Hla & _).
  assert (Heff : loaded_alias loaded = alias).
  { rewrite <- Halias. unfold effective_alias. now rewrite Hm. }
  rewrite Heff in Hcases.
  destruct Hcases as [(_ & _ & Hdoc)|(Hstate & Htrace & _)];
    [contradiction|].
  split.
  - cbn [trace index_plugin with_registry].
    now rewrite Htrace, trace_settle.
  - cbn [pluginState index_plugin with_registry]. rewrite Hstate.
    exists (state_of loaded). split; [|exact Heff].
    apply in_or_app. right. now left.
Qed.

(* --------------------------------------------------------------------- *)
(** *** Starting and stopping *)
(* --------------------------------------------------------------------- *)

Lemma skipn_prefix (A : Type) (l l' : list A) :
  skipn (length l) (l ++ l') = l'.
Proof. induction l as [|x l IH]; simpl; auto. Qed.

(** X15.  When the [startService] task of every service plugin returns,
    [startServices] returns, having started each service plugin of the
    flat table once, in table order; [stopServices] then stops the same
    plugins in the same order (not in reverse), and neither touches the
    registry or the collection. *)
Theorem services_start_then_stop (h : Host) :
  (forall q, In q (JsObject.values (plugins (registry h))) ->
             is_service q = true ->
             runner_runTask env (loaded_runner q) "startService" = Ok tt) ->
  let services :=
    filter is_service (JsObject.values (plugins (registry h))) in
  exists h1 h2,
    startServices env h = (Ok tt, h1) /\
    stopServices env h1 = (Ok tt, h2) /\
    trace h1
    = trace h
      ++ map (fun q => mkCall (loaded_alias q) "startService" true) services /\
    trace h2 = trace h1 ++ map (call_of env "stopService") services /\
    map call_alias (skipn (length (trace h1)) (trace h2))
    = map call_alias (skipn (length (trace h)) (trace h1)) /\
    registry h2 = registry h /\
    pluginState h2 = pluginState h.
Proof.
  intros Hok services.
  eexists; eexists. split.
  { unfold startServices. unfold bind at 1. unfold gets.
    apply start_loop_ok. exact Hok. }
  split.
  { unfold stopServices. unfold bind at 1. unfold gets.
    cbn [registry add_calls with_trace]. apply stop_loop. }
  cbn [trace registry pluginState add_calls with_trace].
  fold services.
  split; [reflexivity|]. split; [reflexivity|].
  split; [|split; reflexivity].
  rewrite !skipn_prefix, !map_map. reflexivity.
Qed.

(* --------------------------------------------------------------------- *)
(** *** A batch with one invalid manifest *)
(* --------------------------------------------------------------------- *)

Lemma registerPlugin_throws_tables (p : Registration) (h h' : Host)
    (e : Exn) (t : string)
    (table : PluginRegistry -> JsObject.t LoadedPlugin) :
  registerPlugin env p h = (Throw e, h') ->
  capability_table t = Some table ->
  table (registry h') = table (registry h).
Proof.
  intros Hrun Ht.
  assert (Hcache : forall m,
            table (registry (cache_manifest p m h)) = table (registry h)).
  { intros m. unfold cache_manifest. cbn [registry with_registry].
    exact (proj2 (capability_table_frame t table (registry h) Ht) _). }
  revert Hrun. rewrite registerPlugin_steps.
  destruct (manifest_of env p) as [manifest|e0]; [|now intros [= _ <-]].
  cbv zeta.
  destruct (prepare env _ p manifest) as [loaded|e0];
    [|intros [= _ <-]; apply Hcache].
  intros Hrun.
  apply bootstrap_and_index_inv in Hrun
    as [(_ & Hr & _)|[(_ & _ & _ & ->)|[(_ & _ & _ & Hr & _)|(e0 & _ & _ & _ & _ & ->)]]];
    try discriminate; apply Hcache.
Qed.

Lemma registerPlugin_keeps_indexed (p : Registration) (h h' : Host)
    (r : Res unit) (alias type : string) :
  registerPlugin env p h = (r, h') ->
  indexed alias type h -> indexed alias type h'.
Proof.
  intros Hrun Hindexed table Ht.
  destruct (Hindexed table Ht) as (loaded & Hget & Halias & Htype).
  destruct r as [[]|e].
  - destruct (registerPlugin_tables p h h' Hrun)
      as (new & Hnew & _ & _ & Hcap).
    rewrite (Hcap type table Ht).
    destruct (String.eqb_spec type (manifest_type (loaded_manifest new)))
      as [Heq|_]; [|now exists loaded].
    destruct (String.eqb_spec (effective_alias env p) alias) as [Hsame|Hne].
    + exists new. rewrite Hsame. split; [apply stored_set_same|].
      split; congruence.
    + exists loaded. now rewrite stored_set_other by exact Hne.
  - exists loaded.
    now rewrite (registerPlugin_throws_tables p h h' e type table Hrun Ht).
Qed.

Lemma register_step_keeps_indexed (p : Registration) (errors : list Exn)
    (h h' : Host) (r : Res (list Exn)) (alias type : string) :
  register_step env p errors h = (r, h') ->
  indexed alias type h -> indexed alias type h'.
Proof.
  rewrite register_step_run.
  destruct (registerPlugin env p h) as [[[]|e] h1] eqn:Hrun;
    intros [= _ <-]; now apply (registerPlugin_keeps_indexed p h h1 _ _ _ Hrun).
Qed.

Lemma register_phase_keeps_indexed (ps : list Registration)
    (errors : list Exn) (h h' : Host) (r : Res (list Exn))
    (alias type : string) :
  for_of_errors ps errors (register_step env) h = (r, h') ->
  indexed alias type h -> indexed alias type h'.
Proof.
  intros Hrun Hindexed.
  apply (for_of_errors_invariant Registration (indexed alias type)
           (register_step env)) with (xs := ps) (errors := errors) (h := h)
           (r := r); [|exact Hindexed|exact Hrun].
  intros p errors0 h0 r0 h1 Hinv Hstep.
  exact (register_step_keeps_indexed p errors0 h0 h1 r0 alias type Hstep Hinv).
Qed.

(** A second loop that adds no error has indexed each of its
    declarations by the type of its manifest. *)
Lemma register_phase_indexes (ps : list Registration) :
  forall (errors : list Exn) (h h' : Host),
    for_of_errors ps errors (register_step env) h = (Ok errors, h') ->
    forall p m, In p ps -> manifest_of env p = Ok m ->
      indexed (effective_alias env p) (manifest_type m) h'.
Proof.
  induction ps as [|q ps IH]; intros errors h h' Hrun p m Hin Hm;
    [destruct Hin|].
  cbn [for_of_errors] in Hrun. unfold bind in Hrun.
  rewrite register_step_run in Hrun.
  destruct (registerPlugin env q h) as [[[]|e] h1] eqn:Hq.
  - destruct Hin as [->|Hin]; [|exact (IH errors h1 h' Hrun p m Hin Hm)].
    apply (register_phase_keeps_indexed ps errors h1 h' _ _ _ Hrun).
    destruct (registerPlugin_tables p h h1 Hq)
      as (loaded & Halias & Hman & _ & Hcap).
    assert (Hloaded : loaded_manifest loaded = m) by congruence.
    intros table Ht. exists loaded.
    rewrite (Hcap _ table Ht), Hloaded, String.eqb_refl.
    split; [apply stored_set_same|]. split; [exact Halias|reflexivity].
  - exfalso.
    destruct (for_of_errors_appends Registration (fun _ => True)
                (register_step env)) with (xs := ps)
                (errors := errors ++
                   [if instanceof_RegistryError e then e
                    else RegistryError "Failed to register plugin"
                           (mkDetails (reg_alias q) (reg_path q)
                              (or_undefined
                                 (manifest_lookup (reg_alias q)
                                    (_manifests (registry h1)))))
                           e])
                (h := h1)
      as (extra & h2 & Hloop & _ & _).
    { intros x errors0 h0. rewrite register_step_run.
      destruct (registerPlugin env x h0) as [[[]|e0] h3].
      - exists [], h3. rewrite app_nil_r. repeat split; auto.
      - eexists [_], h3. repeat split; auto. }
    rewrite Hloop in Hrun. injection Hrun as Hlength _.
    apply (f_equal (@length Exn)) in Hlength.
    rewrite !length_app in Hlength. cbn [length] in Hlength. lia.
Qed.

(** C3, as amended.  In a batch [before ++ bad :: after] where the
    manifest of [bad] cannot be produced, the runner throwing an error
    that is not a [PluginRegistry.Error], and every other declaration
    registers on its own (all its steps succeed and its identity does
    not clash), [register] returns a list of exactly one error: the
    registry error that carries the alias and the path of [bad] and the
    cause.  Every other declaration of the batch is then registered:
    the flat table holds it under its alias, so does the capability
    table of its manifest type, and its state document is persisted. *)
Theorem register_isolates_invalid_manifest (before after : list Registration)
    (bad : Registration) (e : Exn) (h : Host) :
  manifest_of env bad = Throw e ->
  instanceof_RegistryError e = false ->
  (forall p, In p (before ++ after) -> registers_cleanly env p) ->
  no_identity_clash env (before ++ after) (pluginState h) ->
  exists h' cached,
    register env (before ++ bad :: after) h
    = (Ok [RegistryError "Failed to register plugin"
             (mkDetails (reg_alias bad) (reg_path bad) cached) e],
       h') /\
    (forall p, In p (before ++ after) ->
       registered (effective_alias env p) h' /\
       (forall m, manifest_of env p = Ok m ->
                  indexed (effective_alias env p) (manifest_type m) h') /\
       has_state_for_alias (effective_alias env p) (pluginState h')).
Proof.
  intros Hbad Hforeign Hclean Hclash.
  rewrite register_phases. unfold bind at 1.
  destruct (manifest_phase env (before ++ bad :: after) [] h)
    as (h1 & Hphase1 & [cache ->]).
  { intros p e' Hin Hm. apply in_app_or in Hin as [Hin|[<-|Hin]].
    - destruct (Hclean p) as (m & Hm' & _); [apply in_or_app; now left|].
      congruence.
    - congruence.
    - destruct (Hclean p) as (m & Hm' & _); [apply in_or_app; now right|].
      congruence. }
  rewrite Hphase1. rewrite for_of_errors_app.
  set (h1 := with_registry (with_manifests cache (registry h)) h) in *.
  destruct (register_phase_clean env (before ++ after) before [] h1)
    as (h2 & Hloop1 & Hclash2 & Hall1 & _ & _).
  { intros p Hp. apply in_or_app. now left. }
  { exact Hclean. }
  { exact Hclash. }
  rewrite Hloop1. cbn [for_of_errors]. unfold bind at 1.
  rewrite (register_step_invalid_manifest env bad e [] h2 Hbad Hforeign).
  destruct (register_phase_clean env (before ++ after) after
              ([] ++
               [RegistryError "Failed to register plugin"
                  (mkDetails (reg_alias bad) (reg_path bad)
                     (or_undefined
                        (manifest_lookup (reg_alias bad)
                           (_manifests (registry h2)))))
                  e]) h2)
    as (h3 & Hloop2 & _ & Hall2 & Hmono & Hdocs).
  { intros p Hp. apply in_or_app. now right. }
  { exact Hclean. }
  { exact Hclash2. }
  rewrite Hloop2. eexists; eexists. split; [reflexivity|].
  intros p Hp. apply in_app_or in Hp as [Hp|Hp].
  - destruct (Hall1 p Hp) as [Hreg Hdoc].
    split; [auto|]. split; [|auto].
    intros m Hm.
    apply (register_phase_keeps_indexed after _ h2 h3 _ _ _ Hloop2).
    exact (register_phase_indexes before [] h1 h2 Hloop1 p m Hp Hm).
  - destruct (Hall2 p Hp) as [Hreg Hdoc].
    split; [exact Hreg|]. split; [|exact Hdoc].
    intros m Hm.
    exact (register_phase_indexes after _ h2 h3 Hloop2 p m Hp Hm).
Qed.

End FurtherRegistration.

(* ===================================================================== *)
(** * Further properties: the generative module *)
(* ===================================================================== *)

Section GenerativeModels.

Variable env : Env.
Variable getSupportedModels : LoadedPlugin -> Res (list Generative.ModelSpec).

Lemma _getPlugin_known (alias : string) (plugin : LoadedPlugin) (h : Host) :
  JsObject.stored alias (generative (registry h)) = Some plugin ->
  Generative._getPlugin env alias h
  = (Ok (Generative.InstanceOf
           (new_instance env GenerativePluginInstance plugin [])), h).
Proof.
  intros Hget.
  unfold Generative._getPlugin, getGenerative, bind, gets, plugin_lookup.
  rewrite (lookup_found _ _ plugin_fields _ _ _ Hget). reflexivity.
Qed.

Lemma _getPlugin_unknown (alias : string) (h : Host) :
  plugin_lookup alias (generative (registry h)) = JsObject.Undefined ->
  Generative._getPlugin env alias h
  = (Throw (OtherError ("unknown generative plugin: " ++ alias)), h).
Proof.
  intros Hget. unfold Generative._getPlugin, getGenerative, bind, gets.
  rewrite Hget. reflexivity.
Qed.

Lemma _getPlugin_builtin (alias name : string) (h : Host) :
  plugin_lookup alias (generative (registry h)) = JsObject.Builtin name ->
  Generative._getPlugin env alias h
  = (Ok (Generative.InstanceOver (JsObject.Builtin name)), h).
Proof.
  intros Hget. unfold Generative._getPlugin, getGenerative, bind, gets.
  rewrite Hget. reflexivity.
Qed.

Import Generative.

Lemma models_lookup_plain (name : string) (table : Models) :
  JsObject.plain name = true ->
  models_lookup name table
  = match JsObject.stored name table with
    | Some listed => JsObject.Found listed
    | None => JsObject.Undefined
    end.
Proof.
  intros Hplain. unfold models_lookup, JsObject.lookup.
  destruct (JsObject.stored name table); [reflexivity|].
  unfold JsObject.inherited. unfold JsObject.plain in Hplain.
  apply andb_prop in Hplain as [Hproto Hbuiltin].
  apply negb_true_iff in Hproto. rewrite Hproto.
  destruct (JsObject.proto table);
    now destruct (JsObject.function_length name).
Qed.

Lemma models_lookup_not_plain (name : string) (table : Models) :
  JsObject.plain name = false ->
  JsObject.stored name table = None ->
  models_lookup name table
  = match JsObject.function_length name with
    | Some _ => JsObject.Builtin name
    | None => JsObject.ObjectPrototype
    end.
Proof.
  intros Hplain Hget. unfold models_lookup, JsObject.lookup. rewrite Hget.
  unfold JsObject.inherited, JsObject.proto. unfold JsObject.plain in Hplain.
  destruct (String.eqb_spec name "__proto__") as [->|Hne].
  - rewrite Hget. reflexivity.
  - cbn [negb andb] in Hplain.
    destruct (JsObject.stored "__proto__" table);
      now destruct (JsObject.function_length name).
Qed.

Lemma push_models_plain (alias name : string) (models : list ModelSpec) :
  (forall m, In m models -> JsObject.plain (model_name m) = true) ->
  forall table,
    fst (push_models alias models table) = Ok tt /\
    providers_of name (snd (push_models alias models table))
    = providers_of name table
      ++ map (mkProviderModel alias)
           (filter (fun m => String.eqb (model_name m) name) models) /\
    (forall k, JsObject.plain k = false ->
       JsObject.stored k (snd (push_models alias models table))
       = JsObject.stored k table).
Proof.
  induction models as [|m rest IH]; intros Hplain table.
  - cbn [push_models filter map fst snd]. rewrite app_nil_r. auto.
  - assert (Hm : JsObject.plain (model_name m) = true)
      by (apply Hplain; now left).
    assert (Hrest : forall m', In m' rest ->
              JsObject.plain (model_name m') = true)
      by (intros m' Hin; apply Hplain; now right).
    cbn [push_models filter]. rewrite (models_lookup_plain _ table Hm).
    assert (Hstep : forall listed,
      providers_of (model_name m) table = listed ->
      fst (push_models alias rest
             (JsObject.set (model_name m)
                (listed ++ [mkProviderModel alias m]) table)) = Ok tt /\
      providers_of name
        (snd (push_models alias rest
                (JsObject.set (model_name m)
                   (listed ++ [mkProviderModel alias m]) table)))
      = providers_of name table
        ++ map (mkProviderModel alias)
             (if String.eqb (model_name m) name
              then m :: filter (fun m => String.eqb (model_name m) name) rest
              else filter (fun m => String.eqb (model_name m) name) rest) /\
      (forall k, JsObject.plain k = false ->
         JsObject.stored k
           (snd (push_models alias rest
                   (JsObject.set (model_name m)
                      (listed ++ [mkProviderModel alias m]) table)))
         = JsObject.stored k table)).
    { intros listed Hlisted.
      destruct (IH Hrest
                  (JsObject.set (model_name m)
                     (listed ++ [mkProviderModel alias m]) table))
        as (Hok & Hprov & Hkeys).
      split; [exact Hok|]. split.
      - rewrite Hprov.
        destruct (String.eqb_spec (model_name m) name) as [Heq|Hne].
        + unfold providers_of at 1. rewrite Heq, stored_set_same.
          rewrite Heq in Hlisted. rewrite <- Hlisted.
          cbn [map]. rewrite <- app_assoc. reflexivity.
        + unfold providers_of at 1. rewrite stored_set_other by exact Hne.
          reflexivity.
      - intros k Hk. rewrite (Hkeys k Hk). apply stored_set_other.
        intros Heq. rewrite Heq, Hk in Hm. discriminate Hm. }
    unfold providers_of in Hstep.
    destruct (JsObject.stored (model_name m) table) as [listed|];
      now apply Hstep.
Qed.

Lemma push_models_not_plain (alias : string) (before after : list ModelSpec)
    (m : ModelSpec) (table : Models) :
  (forall m', In m' before -> JsObject.plain (model_name m') = true) ->
  JsObject.plain (model_name m) = false ->
  JsObject.stored (model_name m) table = None ->
  fst (push_models alias (before ++ m :: after) table) = Throw TypeError_push.
Proof.
  revert table. induction before as [|m' rest IH]; intros table Hplain Hm Hget.
  - cbn [app push_models]. rewrite (models_lookup_not_plain _ table Hm Hget).
    now destruct (JsObject.function_length (model_name m)).
  - assert (Hm' : JsObject.plain (model_name m') = true)
      by (apply Hplain; now left).
    assert (Hne : model_name m' <> model_name m)
      by (intros Heq; rewrite Heq, Hm in Hm'; discriminate Hm').
    cbn [app push_models]. rewrite (models_lookup_plain _ table Hm').
    destruct (JsObject.stored (model_name m') table);
      (apply IH;
       [intros q Hq; apply Hplain; now right
       |exact Hm
       |now rewrite stored_set_other by exact Hne]).
Qed.

Lemma plain_models_tail (p : LoadedPlugin) (rest : list LoadedPlugin) :
  plain_models getSupportedModels (p :: rest) ->
  plain_models getSupportedModels rest.
Proof.
  intros Hplain plugin models m Hin. apply Hplain. now right.
Qed.

Lemma init_loop_providers (name : string) (plugins : list LoadedPlugin) :
  plain_models getSupportedModels plugins ->
  forall table,
    providers_of name (snd (init_loop getSupportedModels plugins table))
    = providers_of name table
      ++ listed_under getSupportedModels name plugins.
Proof.
  induction plugins as [|p rest IH]; intros Hplain table.
  - cbn [init_loop listed_under snd]. now rewrite app_nil_r.
  - cbn [init_loop listed_under].
    destruct (getSupportedModels p) as [models|e] eqn:Hp.
    + destruct (push_models_plain (loaded_alias p) name models
                  (fun m => Hplain p models m (or_introl eq_refl) Hp) table)
        as (Hok & Hprov & _).
      destruct (push_models (loaded_alias p) models table) as [[[]|e] table'];
        [|discriminate Hok].
      cbn [snd] in Hprov.
      rewrite (IH (plain_models_tail _ _ Hplain)), Hprov, app_assoc.
      reflexivity.
    + cbn [snd]. now rewrite app_nil_r.
Qed.

Lemma init_loop_keys (plugins : list LoadedPlugin) :
  plain_models getSupportedModels plugins ->
  forall table k,
    JsObject.plain k = false ->
    JsObject.stored k (snd (init_loop getSupportedModels plugins table))
    = JsObject.stored k table.
Proof.
  induction plugins as [|p rest IH]; intros Hplain table k Hk.
  - reflexivity.
  - cbn [init_loop].
    destruct (getSupportedModels p) as [models|e] eqn:Hp; [|reflexivity].
    destruct (push_models_plain (loaded_alias p) k models
                (fun m => Hplain p models m (or_introl eq_refl) Hp) table)
      as (Hok & _ & Hkeys).
    destruct (push_models (loaded_alias p) models table) as [[[]|e] table'];
      [|discriminate Hok].
    cbn [snd] in Hkeys.
    rewrite (IH (plain_models_tail _ _ Hplain)) by exact Hk.
    now apply Hkeys.
Qed.

Lemma init_loop_outcome (plugins : list LoadedPlugin) :
  plain_models getSupportedModels plugins ->
  forall table,
    match fst (init_loop getSupportedModels plugins table) with
    | Ok _ => Forall (fun p => exists models,
                        getSupportedModels p = Ok models) plugins
    | Throw e => exists before p after,
        plugins = before ++ p :: after /\
        getSupportedModels p = Throw e /\
        Forall (fun q => exists models,
                  getSupportedModels q = Ok models) before
    end.
Proof.
  induction plugins as [|p rest IH]; intros Hplain table.
  - cbn [init_loop fst]. constructor.
  - cbn [init_loop].
    destruct (getSupportedModels p) as [models|e] eqn:Hp.
    + destruct (push_models_plain (loaded_alias p) "" models
                  (fun m => Hplain p models m (or_introl eq_refl) Hp) table)
        as (Hok & _ & _).
      destruct (push_models (loaded_alias p) models table) as [[[]|e] table'];
        [|discriminate Hok].
      specialize (IH (plain_models_tail _ _ Hplain) table').
      destruct (fst (init_loop getSupportedModels rest table')).
      * constructor; [now exists models|exact IH].
      * destruct IH as (before & q & after & -> & Hq & Hbefore).
        exists (p :: before), q, after.
        split; [reflexivity|]. split; [exact Hq|].
        constructor; [now exists models|exact Hbefore].
    + cbn [fst]. exists [], p, rest.
      split; [reflexivity|]. split; [exact Hp|constructor].
Qed.

Lemma init_loop_not_plain (before after : list LoadedPlugin)
    (p : LoadedPlugin) (listed_before listed_after : list ModelSpec)
    (m : ModelSpec) :
  plain_models getSupportedModels before ->
  Forall (fun q => exists models, getSupportedModels q = Ok models) before ->
  getSupportedModels p = Ok (listed_before ++ m :: listed_after) ->
  (forall m', In m' listed_before -> JsObject.plain (model_name m') = true) ->
  JsObject.plain (model_name m) = false ->
  forall table,
    JsObject.stored (model_name m) table = None ->
    fst (init_loop getSupportedModels (before ++ p :: after) table)
    = Throw TypeError_push.
Proof.
  intros Hplain Hanswer Hp Hlisted Hm.
  induction before as [|q rest IH]; intros table Hget.
  - cbn [app init_loop]. rewrite Hp.
    pose proof (push_models_not_plain (loaded_alias p) listed_before
                  listed_after m table Hlisted Hm Hget) as Hthrow.
    destruct (push_models (loaded_alias p)
                (listed_before ++ m :: listed_after) table) as [[[]|e] table'];
      [discriminate Hthrow|].
    cbn [fst] in *. exact Hthrow.
  - inversion Hanswer as [|? ? [models Hq] Hrest]; subst.
    cbn [app init_loop]. rewrite Hq.
    destruct (push_models_plain (loaded_alias q) (model_name m) models
                (fun m' => Hplain q models m' (or_introl eq_refl) Hq) table)
      as (Hok & _ & Hkeys).
    destruct (push_models (loaded_alias q) models table) as [[[]|e] table'];
      [|discriminate Hok].
    cbn [snd] in Hkeys.
    apply IH; [exact (plain_models_tail _ _ Hplain)|exact Hrest|].
    now rewrite (Hkeys _ Hm).
Qed.

Lemma listed_under_In (name : string) (pm : ProviderModel) :
  forall plugins,
    In pm (listed_under getSupportedModels name plugins) ->
    exists p, In p plugins /\ loaded_alias p = provider pm /\
              supports getSupportedModels p name.
Proof.
  intros plugins. induction plugins as [|p rest IH]; cbn [listed_under];
    [intros Hin; inversion Hin|].
  destruct (getSupportedModels p) as [models|e] eqn:Hp;
    [|intros Hin; inversion Hin].
  intros Hin. apply in_app_or in Hin. destruct Hin as [Hin|Hin].
  - apply in_map_iff in Hin. destruct Hin as (m & <- & Hm).
    apply filter_In in Hm. destruct Hm as [Hm Hname].
    apply String.eqb_eq in Hname.
    exists p. split; [now left|]. split; [reflexivity|].
    exists models, m. auto.
  - destruct (IH Hin) as (q & Hq & Halias & Hsup).
    exists q. split; [now right|]. auto.
Qed.

Lemma well_keyed_value_stored (table : JsObject.t LoadedPlugin)
    (p : LoadedPlugin) :
  well_keyed table -> In p (JsObject.values table) ->
  JsObject.stored (loaded_alias p) table = Some p.
Proof.
  intros [Hnd Hkeys] Hin. apply values_bound in Hin. destruct Hin as [k Hk].
  rewrite (Hkeys _ _ Hk). now apply In_stored.
Qed.

(** X16.  On a model table whose prototype was not replaced, and while
    every model the generative plugins list has a plain name (not
    [__proto__] and not the name of a function of [Object.prototype]),
    [init] adds to every model name the providers
    that list it, one entry per listed model of that name, in the
    enumeration order of the generative table and after the entries that
    were there; so a second run of [init] lists every provider twice.
    It then ends without an error exactly when every plugin answers
    [getSupportedModels]; otherwise the error is that of the first
    plugin that does not, and the plugins after it are not listed.  The
    first listed model whose name is not plain, such as [constructor],
    ends [init] with the [TypeError] of [push]. *)
Theorem init_lists_providers_in_order (h : Host) (table : Models) :
  JsObject.proto table = None ->
  let plugins := JsObject.values (generative (registry h)) in
  (plain_models getSupportedModels plugins ->
   (forall name,
      providers_of name (snd (init getSupportedModels h table))
      = providers_of name table
        ++ listed_under getSupportedModels name plugins) /\
   (forall name,
      providers_of name
        (snd (init getSupportedModels h
                (snd (init getSupportedModels h []))))
      = listed_under getSupportedModels name plugins
        ++ listed_under getSupportedModels name plugins) /\
   match fst (init getSupportedModels h table) with
   | Ok _ => Forall (fun p => exists models,
                       getSupportedModels p = Ok models) plugins
   | Throw e => exists before p after,
       plugins = before ++ p :: after /\
       getSupportedModels p = Throw e /\
       Forall (fun q => exists models,
                 getSupportedModels q = Ok models) before /\
       forall name,
         providers_of name (snd (init getSupportedModels h table))
         = providers_of name table
           ++ listed_under getSupportedModels name before
   end) /\
  (forall before p after listed_before m listed_after,
     plugins = before ++ p :: after ->
     plain_models getSupportedModels before ->
     Forall (fun q => exists models, getSupportedModels q = Ok models)
       before ->
     getSupportedModels p = Ok (listed_before ++ m :: listed_after) ->
     (forall m', In m' listed_before ->
                 JsObject.plain (model_name m') = true) ->
     JsObject.plain (model_name m) = false ->
     JsObject.stored (model_name m) table = None ->
     fst (init getSupportedModels h table) = Throw TypeError_push).
Proof.
  intros _ plugins. unfold init. fold plugins.
  split.
  - intros Hplain.
    split; [intros name; now apply init_loop_providers|].
    split.
    { intros name. now rewrite !init_loop_providers. }
    pose proof (init_loop_outcome plugins Hplain table) as Hout.
    destruct (fst (init_loop getSupportedModels plugins table)) as [u|e];
      [exact Hout|].
    destruct Hout as (before & p & after & Hsplit & Hp & Hbefore).
    exists before, p, after.
    split; [exact Hsplit|]. split; [exact Hp|]. split; [exact Hbefore|].
    intros name. rewrite init_loop_providers by exact Hplain.
    rewrite Hsplit. f_equal.
    clear Hsplit. induction before as [|q before IH].
    + cbn [app listed_under]. now rewrite Hp.
    + cbn [app listed_under].
      inversion Hbefore as [|? ? [models Hq] Hrest]; subst.
      rewrite Hq, IH by exact Hrest. reflexivity.
  - intros before p after listed_before m listed_after Hsplit Hplain Hanswer
      Hp Hlisted Hm Hget.
    rewrite Hsplit.
    now apply (init_loop_not_plain before after p listed_before listed_after m).
Qed.

(** X17.  After [init] over a well keyed generative table whose plugins
    list models of plain names only, a request that names a model of a
    plain name and no alias is answered by a registered generative
    plugin that lists the model: the default provider of the settings if
    it lists it, otherwise the first plugin in enumeration order that
    does; if no plugin lists it, the request fails with "unknown model"
    and the host is not touched.  A request for a model whose name is
    not plain finds a member of [Object.prototype]: it fails with
    "unknown model" when the member is a function of [length] 0
    ([toString], [valueOf], [toLocaleString]), and otherwise, as for
    [constructor] and [__proto__], with the [TypeError] of [find]. *)
Theorem model_request_reaches_a_listing_plugin
    (h : Host) (config : Settings) (alias model : option string)
    (name : string) :
  well_keyed (generative (registry h)) ->
  truthy alias = None ->
  truthy model = Some name ->
  let plugins := JsObject.values (generative (registry h)) in
  let table := snd (init getSupportedModels h []) in
  let listed := listed_under getSupportedModels name plugins in
  plain_models getSupportedModels plugins ->
  (JsObject.plain name = true ->
   match listed with
   | [] =>
       Generative.getGenerative env (Some config) table alias model h
       = (Throw (OtherError ("unknown model: " ++ name)), h)
   | first :: _ =>
       exists plugin,
         Generative.getGenerative env (Some config) table alias model h
         = (Ok (InstanceOf
                  (new_instance env GenerativePluginInstance plugin [])), h) /\
         In plugin plugins /\
         supports getSupportedModels plugin name /\
         loaded_alias plugin
         = if existsb (fun m => String.eqb (provider m) (settings_name config))
                listed
           then settings_name config
           else provider first
   end) /\
  (JsObject.plain name = false ->
   Generative.getGenerative env (Some config) table alias model h
   = (Throw match JsObject.function_length name with
            | Some O => OtherError ("unknown model: " ++ name)
            | _ => TypeError_find
            end, h)).
Proof.
  intros Hwk Halias Hmodel plugins table listed Hmodels.
  split.
  - intros Hplain.
    assert (Htable : providers_of name table = listed).
    { unfold table, init. rewrite init_loop_providers by exact Hmodels.
      reflexivity. }
    assert (Hreach : forall pm, In pm listed ->
              exists plugin,
                _getPlugin env (provider pm) h
                = (Ok (InstanceOf
                         (new_instance env GenerativePluginInstance plugin [])),
                   h)
                /\ In plugin plugins
                /\ supports getSupportedModels plugin name
                /\ loaded_alias plugin = provider pm).
    { intros pm Hpm. apply listed_under_In in Hpm.
      destruct Hpm as (p & Hp & Hpa & Hsup).
      exists p. split; [|auto].
      apply _getPlugin_known. rewrite <- Hpa.
      now apply well_keyed_value_stored. }
    unfold Generative.getGenerative. rewrite Halias, Hmodel.
    rewrite (models_lookup_plain _ table Hplain).
    unfold providers_of in Htable.
    destruct listed as [|first others] eqn:Hlisted.
    + destruct (JsObject.stored name table) as [l|]; [subst l|]; reflexivity.
    + destruct (JsObject.stored name table) as [l|]; [subst l|discriminate].
      cbn [existsb find].
      destruct (String.eqb_spec (provider first) (settings_name config))
        as [Hfirst|Hfirst].
      * cbn [orb]. destruct (Hreach first (or_introl eq_refl))
          as (plugin & Hget & Hin & Hsup & Ha).
        exists plugin. rewrite <- Hfirst. auto.
      * cbn [orb].
        destruct (find (fun m => String.eqb (provider m) (settings_name config))
                    others) as [pm|] eqn:Hfind.
        -- apply find_some in Hfind. destruct Hfind as [Hpm Heq].
           apply String.eqb_eq in Heq.
           assert (Hex : existsb (fun m =>
                        String.eqb (provider m) (settings_name config)) others
                         = true).
           { apply existsb_exists. exists pm. split; [exact Hpm|].
             now apply String.eqb_eq. }
           rewrite Hex.
           destruct (Hreach pm (or_intror Hpm))
             as (plugin & Hget & Hin & Hsup & Ha).
           exists plugin. rewrite <- Heq. auto.
        -- assert (Hex : existsb (fun m =>
                        String.eqb (provider m) (settings_name config)) others
                         = false).
           { destruct (existsb _ others) eqn:E; [|reflexivity].
             apply existsb_exists in E. destruct E as (pm & Hpm & Heq).
             now rewrite (find_none _ _ Hfind pm Hpm) in Heq. }
           rewrite Hex.
           destruct (Hreach first (or_introl eq_refl))
             as (plugin & Hget & Hin & Hsup & Ha).
           exists plugin. auto.
  - intros Hplain.
    assert (Hget : JsObject.stored name table = None).
    { unfold table, init. now rewrite init_loop_keys. }
    unfold Generative.getGenerative. rewrite Halias, Hmodel.
    rewrite (models_lookup_not_plain _ table Hplain Hget).
    destruct (JsObject.function_length name)
      as [[|n]|] eqn:Hlength; cbv beta iota; rewrite ?Hlength; reflexivity.
Qed.

End GenerativeModels.

Section GenerativeRequests.

Variable env : Env.

Lemma truthy_nonempty (s : string) :
  s <> "" -> Generative.truthy (Some s) = Some s.
Proof.
  intros Hne. unfold Generative.truthy.
  destruct (String.eqb_spec s ""); congruence.
Qed.

Lemma deletePlugin_generative (alias : string) (h h' : Host) :
  deletePlugin env alias h = (Ok tt, h') ->
  generative (registry h') = generative (registry h).
Proof.
  intros Hdel.
  destruct (deletePlugin_registry env alias h h' (Ok tt) Hdel)
    as [[-> | ->] _]; reflexivity.
Qed.

(** X18.  A request that names an alias is answered from the generative
    table alone, whatever model it names and whatever [init] listed: a
    plugin just registered with the type generative is returned, and it
    is still returned after [deletePlugin] has removed it from the flat
    table.  After a plugin was registered with another type, the alias
    is an unknown generative plugin when no read of the generative table
    finds anything under it; when the alias is the name of a function of
    [Object.prototype], such as [constructor], the read finds that
    function and the request returns an instance constructed over it.
    Without generative settings every request fails before the alias is
    looked at. *)
Theorem alias_request_follows_the_generative_table
    (p : Registration) (h h' : Host) :
  registerPlugin env p h = (Ok tt, h') ->
  effective_alias env p <> "" ->
  let alias := effective_alias env p in
  exists loaded,
    JsObject.stored alias (plugins (registry h')) = Some loaded /\
    (forall table model,
       Generative.getGenerative env None table (Some alias) model h'
       = (Throw (OtherError "generative module not configured"), h')) /\
    (manifest_type (loaded_manifest loaded) = "generative" ->
     forall config table model,
       Generative.getGenerative env (Some config) table (Some alias) model h'
       = (Ok (Generative.InstanceOf
                (new_instance env GenerativePluginInstance loaded [])), h') /\
       forall h'',
         deletePlugin env alias h' = (Ok tt, h'') ->
         (alias <> "__proto__" ->
          JsObject.stored alias (plugins (registry h'')) = None) /\
         Generative.getGenerative env (Some config) table (Some alias) model
           h''
         = (Ok (Generative.InstanceOf
                  (new_instance env GenerativePluginInstance loaded [])),
            h'')) /\
    (manifest_type (loaded_manifest loaded) <> "generative" ->
     forall config table model,
       (plugin_lookup alias (generative (registry h)) = JsObject.Undefined ->
        Generative.getGenerative env (Some config) table (Some alias) model h'
        = (Throw (OtherError ("unknown generative plugin: " ++ alias)), h')) /\
       (forall name,
          plugin_lookup alias (generative (registry h))
          = JsObject.Builtin name ->
          Generative.getGenerative env (Some config) table (Some alias) model
            h'
          = (Ok (Generative.InstanceOver (JsObject.Builtin name)), h'))).
Proof.
  intros Hreg Hne alias.
  destruct (registerPlugin_tables env p h h' Hreg)
    as (loaded & Halias & Hman & Hflat & Hcap).
  specialize (Hcap "generative" generative eq_refl).
  fold alias in Hflat, Hcap, Hne.
  exists loaded.
  split; [rewrite Hflat; apply stored_set_same|].
  split; [reflexivity|].
  split.
  - intros Htype config table model.
    rewrite Htype in Hcap. cbn [String.eqb Ascii.eqb Bool.eqb] in Hcap.
    assert (Hget : JsObject.stored alias (generative (registry h'))
                   = Some loaded)
      by (rewrite Hcap; apply stored_set_same).
    split.
    + unfold Generative.getGenerative. rewrite (truthy_nonempty alias Hne).
      now apply _getPlugin_known.
    + intros h'' Hdel.
      pose proof (deletePlugin_generative alias h' h'' Hdel) as Hsame.
      split.
      * intros Hplain.
        assert (Hflat' : JsObject.stored alias (plugins (registry h'))
                         = Some loaded)
          by (rewrite Hflat; apply stored_set_same).
        rewrite (deletePlugin_known env alias loaded h' Hflat') in Hdel.
        destruct (runner_runTask env (loaded_runner loaded) "destroy");
          [|discriminate].
        injection Hdel as <-. cbn [registry with_registry plugins with_plugins].
        now apply stored_delete_same.
      * unfold Generative.getGenerative. rewrite (truthy_nonempty alias Hne).
        apply _getPlugin_known. now rewrite Hsame.
  - intros Htype config table model.
    destruct (String.eqb_spec "generative"
                (manifest_type (loaded_manifest loaded))) as [Heq|_];
      [now elim Htype|].
    unfold Generative.getGenerative. rewrite (truthy_nonempty alias Hne).
    split.
    + intros Hnone. apply _getPlugin_unknown. now rewrite Hcap.
    + intros name Hname. apply _getPlugin_builtin. now rewrite Hcap.
Qed.

End GenerativeRequests.

(* ===================================================================== *)
(** * Further properties: the source service *)
(* ===================================================================== *)

Section Sources.

Variable env : Env.
Variable co : SourceService.Collaborators.

Import SourceService.

Ltac service_unfold :=
  unfold serve, failure_of, thrown, connect, delete, verifyConnection,
    setEntrypoint, initSource, rebuildSource, updateSource, schedule,
    draw_uuid, SourceService.deleteOne, updateOne, record_call, record_job,
    sbind, stry, slift, sret, sthrow.

Ltac destruct_scrutinees :=
  repeat (match goal with
          | |- context [match ?x with _ => _ end] =>
              lazymatch x with
              | context [match _ with _ => _ end] => fail
              | _ => destruct x
              end
          end;
          cbn [snd fst jobs uuids_drawn host sources provider_calls]).

Lemma _getSource_app (sourceId : string) (app app' : App)
    (r : SRes Source) :
  _getSource co sourceId app = (r, app') -> app' = app.
Proof.
  unfold _getSource.
  destruct (findById sourceId (sources app)) as [doc|];
    [destruct (resolve_provider co (host app) doc)|];
    now intros [= _ <-].
Qed.

Lemma _getSource_found (sourceId : string) (app : App) (source : Source) :
  _getSource co sourceId app = (Returned source, app) ->
  findById sourceId (sources app) = Some source /\
  source_id source = sourceId /\
  resolve_provider co (host app) source = Returned tt.
Proof.
  unfold _getSource.
  destruct (findById sourceId (sources app)) as [doc|] eqn:Hfind;
    [|discriminate].
  destruct (resolve_provider co (host app) doc) as [[]|e] eqn:Hres;
    [|discriminate].
  intros [= <-]. split; [reflexivity|]. split; [|exact Hres].
  apply find_some in Hfind. now apply String.eqb_eq.
Qed.

Lemma findById_update (sourceId : string) (update : Source -> Source)
    (collection : list Source) (source : Source) :
  (forall s, source_id (update s) = source_id s) ->
  findById sourceId collection = Some source ->
  findById sourceId
    (map (fun s => if String.eqb (source_id s) sourceId then update s else s)
       collection)
  = Some (update source).
Proof.
  intros Hid. unfold findById.
  induction collection as [|s rest IH]; cbn [find map]; [discriminate|].
  destruct (String.eqb (source_id s) sourceId) eqn:E.
  - intros [= ->]. now rewrite Hid, E.
  - rewrite E. exact IH.
Qed.

Lemma findById_update_other (sourceId other : string)
    (update : Source -> Source) (collection : list Source) :
  other <> sourceId ->
  (forall s, source_id (update s) = source_id s) ->
  findById other
    (map (fun s => if String.eqb (source_id s) sourceId then update s else s)
       collection)
  = findById other collection.
Proof.
  intros Hne Hid. unfold findById.
  induction collection as [|s rest IH]; cbn [find map]; [reflexivity|].
  destruct (String.eqb_spec (source_id s) sourceId) as [Heq|Hs].
  - rewrite Hid.
    destruct (String.eqb_spec (source_id s) other); [congruence|exact IH].
  - destruct (String.eqb (source_id s) other); [reflexivity|exact IH].
Qed.

Lemma findById_removed (sourceId other : string) (collection : list Source) :
  findById other
    (filter (fun s => negb (String.eqb (source_id s) sourceId)) collection)
  = if String.eqb other sourceId then None else findById other collection.
Proof.
  unfold findById.
  induction collection as [|s rest IH]; cbn [find filter].
  - now destruct (String.eqb other sourceId).
  - destruct (String.eqb_spec (source_id s) sourceId) as [Heq|Hs];
      cbn [negb find].
    + rewrite IH.
      destruct (String.eqb_spec other sourceId) as [Ho|Ho]; [reflexivity|].
      destruct (String.eqb_spec (source_id s) other); congruence.
    + rewrite IH.
      destruct (String.eqb_spec other sourceId) as [Ho|Ho]; [|reflexivity].
      destruct (String.eqb_spec (source_id s) other); congruence.
Qed.

Lemma filter_absent (sourceId : string) (collection : list Source) :
  findById sourceId collection = None ->
  filter (fun s => negb (String.eqb (source_id s) sourceId)) collection
  = collection.
Proof.
  unfold findById.
  induction collection as [|s rest IH]; cbn [find filter]; [reflexivity|].
  destruct (String.eqb (source_id s) sourceId); [discriminate|].
  intros H. cbn [negb]. now rewrite IH.
Qed.

Lemma deletePlugin_providers (alias : string) (h h' : Host) :
  deletePlugin env alias h = (Ok tt, h') ->
  providers (registry h') = providers (registry h).
Proof.
  intros Hdel.
  destruct (deletePlugin_registry env alias h h' (Ok tt) Hdel)
    as [[-> | ->] _]; reflexivity.
Qed.

Lemma create_known (name provider : string) (app : App)
    (plugin : LoadedPlugin) :
  JsObject.stored provider (providers (registry (host app))) = Some plugin ->
  exists doc,
    create co name provider app
    = (Returned doc, with_sources (sources app ++ [doc]) app) /\
    source_id doc = source_id (new_document co (sources app)) /\
    source_name doc = name /\ source_provider doc = provider.
Proof.
  intros Hget. unfold create, getProvider, gets, plugin_lookup. cbn [fst].
  rewrite (lookup_found _ _ plugin_fields _ _ _ Hget).
  eexists. split; [reflexivity|]. split; [|split]; reflexivity.
Qed.

Lemma create_unknown (name provider : string) (app : App) :
  plugin_lookup provider (providers (registry (host app)))
  = JsObject.Undefined ->
  create co name provider app
  = (Thrown (BadRequestException "Provider not found"), app).
Proof.
  intros Hget. unfold create, getProvider, gets. cbn [fst].
  now rewrite Hget.
Qed.

Lemma create_builtin (name provider builtin : string) (app : App) :
  plugin_lookup provider (providers (registry (host app)))
  = JsObject.Builtin builtin ->
  exists doc,
    create co name provider app
    = (Returned doc, with_sources (sources app ++ [doc]) app) /\
    source_id doc = source_id (new_document co (sources app)) /\
    source_name doc = name /\ source_provider doc = provider.
Proof.
  intros Hget. unfold create, getProvider, gets. cbn [fst]. rewrite Hget.
  eexists. split; [reflexivity|]. split; [|split]; reflexivity.
Qed.

Lemma missing_source (req : Request) (sourceId : string) (app : App)
    (e : ServiceError) :
  target req = Some sourceId ->
  _getSource co sourceId app = (Thrown e, app) ->
  serve co req app = app /\ failure_of co req app = Some e.
Proof.
  intros Htarget Hget.
  destruct req; cbn [target] in Htarget; try discriminate;
    injection Htarget as ->; service_unfold; rewrite Hget; auto.
Qed.

(** X19.  [create] accepts what a read of the providers table finds
    under the name of the provider: a plugin just registered with the
    type provider can be given to a new source, which is appended to the
    collection with the name and the provider of the request, and it
    still can after [deletePlugin] removed the plugin from the flat
    table.  After a plugin was registered with another type, the alias
    is refused with "Provider not found" and nothing is stored when no
    read of the providers table finds anything under it; when the alias
    is the name of a function of [Object.prototype], such as
    [constructor], the read finds that function and the source is
    created. *)
Theorem create_follows_the_providers_table
    (p : Registration) (app : App) (h' : Host) (name : string) :
  registerPlugin env p (host app) = (Ok tt, h') ->
  let alias := effective_alias env p in
  exists loaded,
    JsObject.stored alias (plugins (registry h')) = Some loaded /\
    (manifest_type (loaded_manifest loaded) = "provider" ->
     forall h'',
       h'' = h' \/ deletePlugin env alias h' = (Ok tt, h'') ->
       exists doc,
         create co name alias (with_host h'' app)
         = (Returned doc,
            with_sources (sources app ++ [doc]) (with_host h'' app)) /\
         source_name doc = name /\ source_provider doc = alias) /\
    (manifest_type (loaded_manifest loaded) <> "provider" ->
     (plugin_lookup alias (providers (registry (host app)))
      = JsObject.Undefined ->
      create co name alias (with_host h' app)
      = (Thrown (BadRequestException "Provider not found"),
         with_host h' app)) /\
     (forall builtin,
        plugin_lookup alias (providers (registry (host app)))
        = JsObject.Builtin builtin ->
        exists doc,
          create co name alias (with_host h' app)
          = (Returned doc,
             with_sources (sources app ++ [doc]) (with_host h' app)) /\
          source_name doc = name /\ source_provider doc = alias)).
Proof.
  intros Hreg alias.
  destruct (registerPlugin_tables env p (host app) h' Hreg)
    as (loaded & Halias & Hman & Hflat & Hcap).
  specialize (Hcap "provider" providers eq_refl).
  fold alias in Hflat, Hcap.
  exists loaded.
  split; [rewrite Hflat; apply stored_set_same|].
  split.
  - intros Htype h'' Hh''.
    rewrite Htype in Hcap. cbn [String.eqb Ascii.eqb Bool.eqb] in Hcap.
    assert (Hget : JsObject.stored alias (providers (registry h''))
                   = Some loaded).
    { destruct Hh'' as [->|Hdel].
      - rewrite Hcap. apply stored_set_same.
      - rewrite (deletePlugin_providers alias h' h'' Hdel), Hcap.
        apply stored_set_same. }
    destruct (create_known name alias (with_host h'' app) loaded Hget)
      as (doc & Hcreate & _ & Hname & Hprov).
    exists doc. auto.
  - intros Htype.
    destruct (String.eqb_spec "provider"
                (manifest_type (loaded_manifest loaded))) as [Heq|_];
      [now elim Htype|].
    split.
    + intros Hnone. apply create_unknown.
      cbn [host with_host]. now rewrite Hcap.
    + intros builtin Hbuiltin.
      destruct (create_builtin name alias builtin (with_host h' app))
        as (doc & Hcreate & _ & Hname & Hprov).
      * cbn [host with_host]. now rewrite Hcap.
      * exists doc. auto.
Qed.

(** X20. An operation on a source stops where [_getSource] throws: the
    error reaches the caller as it is, also through the handlers of
    [verifyConnection] and [setEntrypoint], no provider is called, no
    job is scheduled, no uuid is drawn and the collection is not
    written.  When no document has the id the error is the
    [BadRequestException] "Source not found". *)
Theorem missing_source_stops_every_request
    (req : Request) (sourceId : string) (app app' : App)
    (e : ServiceError) :
  target req = Some sourceId ->
  _getSource co sourceId app = (Thrown e, app') ->
  app' = app /\
  serve co req app = app /\
  failure_of co req app = Some e /\
  (findById sourceId (sources app) = None ->
   e = BadRequestException "Source not found").
Proof.
  intros Htarget Hget.
  pose proof (_getSource_app _ _ _ _ Hget) as ->.
  split; [reflexivity|].
  destruct (missing_source req sourceId app e Htarget Hget) as [Hs Hf].
  split; [exact Hs|]. split; [exact Hf|].
  intros Hnone. unfold _getSource in Hget. rewrite Hnone in Hget.
  now injection Hget as <-.
Qed.

(** X21. [verifyConnection] on a source that was found calls the provider
    once and schedules nothing.  It returns only [true], and then the
    provider found the connection valid and the document is marked
    connected, with the credentials of the provider when it gave some
    and the stored ones otherwise, every other document being as it
    was.  Every error it throws is a [BadRequestException]: "Invalid
    connection" when the provider found it invalid, otherwise the
    message of what the provider threw; the collection is then not
    written. *)
Theorem verifyConnection_outcomes
    (sourceId : string) (reconnect : bool) (payload : string)
    (app app' : App) (source : Source) (r : SRes bool) :
  _getSource co sourceId app = (Returned source, app) ->
  verifyConnection co sourceId reconnect payload app = (r, app') ->
  host app' = host app /\ jobs app' = jobs app /\
  uuids_drawn app' = uuids_drawn app /\
  provider_calls app'
  = provider_calls app ++ [CallVerifyConnection sourceId] /\
  match r with
  | Returned answer =>
      answer = true /\
      exists res,
        provider_verifyConnection co source reconnect payload
        = Returned res /\
        isValid res = true /\
        findById sourceId (sources app')
        = Some (connected_update (credentials res) source) /\
        forall other, other <> sourceId ->
          findById other (sources app') = findById other (sources app)
  | Thrown e =>
      sources app' = sources app /\
      exists message,
        e = BadRequestException message /\
        match provider_verifyConnection co source reconnect payload with
        | Returned res => isValid res = false /\
                          message = "Invalid connection"
        | Thrown e0 => message = errorMessage e0
        end
  end.
Proof.
  intros Hget.
  destruct (_getSource_found _ _ _ Hget) as (Hfind & Hid & _).
  service_unfold. rewrite Hget. cbn [host sources jobs provider_calls
                                      uuids_drawn].
  destruct (provider_verifyConnection co source reconnect payload)
    as [res|e0].
  - destruct (isValid res) eqn:Hvalid; intros [= <- <-];
      cbn [host sources jobs provider_calls uuids_drawn with_sources];
      repeat (split; [reflexivity|]).
    + exists res. split; [reflexivity|]. split; [exact Hvalid|].
      rewrite Hid. split.
      * apply findById_update; [intros s; reflexivity|exact Hfind].
      * intros other Hother.
        apply findById_update_other; [exact Hother|intros s; reflexivity].
    + eexists. split; [reflexivity|]. auto.
  - intros [= <- <-].
    cbn [host sources jobs provider_calls uuids_drawn].
    repeat (split; [reflexivity|]).
    eexists. split; reflexivity.
Qed.

(** X22. [setEntrypoint] on a source that was found schedules nothing.
    When the source is not idle or is initialized it throws without
    calling the provider and without writing.  Otherwise it calls the
    provider once; it returns what the provider returned, stored as the
    entrypoint of the document together with the requested options,
    every other document being as it was, or throws the message of what
    the provider threw, as a [BadRequestException] and without writing. *)
Theorem setEntrypoint_outcomes
    (sourceId entrypoint : string) (app app' : App) (source : Source)
    (r : SRes string) :
  _getSource co sourceId app = (Returned source, app) ->
  setEntrypoint co sourceId entrypoint app = (r, app') ->
  host app' = host app /\ jobs app' = jobs app /\
  uuids_drawn app' = uuids_drawn app /\
  if negb (String.eqb (source_state source) "idle")
     || source_initialized source
  then
    app' = app /\
    r = Thrown (BadRequestException
      "Cannot set entrypoint while source is already initialized or being indexed.")
  else
    provider_calls app'
    = provider_calls app ++ [CallHandleEntrypointUpdate sourceId] /\
    match r with
    | Returned res =>
        provider_handleEntrypointUpdate co source entrypoint
        = Returned res /\
        findById sourceId (sources app')
        = Some (entrypoint_update res entrypoint source) /\
        forall other, other <> sourceId ->
          findById other (sources app') = findById other (sources app)
    | Thrown e =>
        sources app' = sources app /\
        exists e0,
          provider_handleEntrypointUpdate co source entrypoint
          = Thrown e0 /\
          e = BadRequestException (errorMessage e0)
    end.
Proof.
  intros Hget.
  destruct (_getSource_found _ _ _ Hget) as (Hfind & Hid & _).
  service_unfold. rewrite Hget.
  destruct (negb (String.eqb (source_state source) "idle")
            || source_initialized source).
  - intros [= <- <-]. auto.
  - cbn [host sources jobs provider_calls uuids_drawn].
    destruct (provider_handleEntrypointUpdate co source entrypoint)
      as [res|e0]; intros [= <- <-];
      cbn [host sources jobs provider_calls uuids_drawn with_sources];
      repeat (split; [reflexivity|]).
    + rewrite Hid. split.
      * apply findById_update; [intros s; reflexivity|exact Hfind].
      * intros other Hother.
        apply findById_update_other; [exact Hother|intros s; reflexivity].
    + exists e0. auto.
Qed.

Lemma indexing_job_ids_app (l l' : list Job) :
  indexing_job_ids (l ++ l') = indexing_job_ids l ++ indexing_job_ids l'.
Proof. unfold indexing_job_ids. apply flat_map_app. Qed.

Lemma serve_jobs (req : Request) (app : App) :
  (indexing_job_ids (jobs (serve co req app)) = indexing_job_ids (jobs app) /\
   uuids_drawn (serve co req app) = uuids_drawn app) \/
  (indexing_job_ids (jobs (serve co req app))
   = indexing_job_ids (jobs app) ++ [uuid_v4 co (uuids_drawn app)] /\
   uuids_drawn (serve co req app) = S (uuids_drawn app)).
Proof.
  destruct req; unfold serve.
  1: { unfold create.
       destruct (fst (getProvider provider (host app))) as [found|e];
         [destruct (JsObject.truthy field_truthy found)|];
         left; split; reflexivity. }
  all: service_unfold;
    destruct (_getSource co sourceId app) as [[source|e] app1] eqn:Hget;
    pose proof (_getSource_app _ _ _ _ Hget); subst app1;
    cbn [snd fst jobs uuids_drawn host sources provider_calls];
    destruct_scrutinees;
    cbn [snd fst jobs uuids_drawn host sources provider_calls with_sources];
    rewrite ?indexing_job_ids_app; cbn [indexing_job_ids flat_map List.app];
    rewrite ?app_nil_r;
    (left; split; reflexivity) || (right; split; reflexivity).
Qed.

Lemma serve_job_ids_as_drawn (req : Request) (app : App) :
  job_ids_as_drawn co app -> job_ids_as_drawn co (serve co req app).
Proof.
  unfold job_ids_as_drawn. intros Hinv.
  destruct (serve_jobs req app) as [[Hids Hn]|[Hids Hn]];
    rewrite Hids, Hn, Hinv; [reflexivity|].
  rewrite seq_S, map_app. reflexivity.
Qed.

Lemma NoDup_map_injective (A B : Type) (f : A -> B) (l : list A) :
  (forall a b, f a = f b -> a = b) -> NoDup l -> NoDup (map f l).
Proof.
  intros Hinj. induction 1 as [|a l Hnotin Hnd IH]; cbn [map];
    constructor; [|exact IH].
  intros Hin. apply in_map_iff in Hin. destruct Hin as (b & Heq & Hb).
  apply Hinj in Heq. now subst b.
Qed.

(** X23. Whatever requests are served, in whatever order and whether they
    return or throw, the i-th indexing job handed to the indexing
    service carries the i-th uuid drawn: a uuid is drawn only for a job
    that is scheduled, and a request stopped by a guard draws none.  So
    no two indexing jobs share a job id when [uuid.v4] never repeats. *)
Theorem job_ids_follow_the_draws (requests : list Request) (app : App) :
  job_ids_as_drawn co app ->
  job_ids_as_drawn co (serve_all co requests app) /\
  ((forall i j, uuid_v4 co i = uuid_v4 co j -> i = j) ->
   NoDup (indexing_job_ids (jobs (serve_all co requests app)))).
Proof.
  intros Hinv.
  assert (Hall : job_ids_as_drawn co (serve_all co requests app)).
  { unfold serve_all. revert app Hinv.
    induction requests as [|req rest IH]; intros app Hinv; cbn [fold_left];
      [exact Hinv|].
    apply IH. now apply serve_job_ids_as_drawn. }
  split; [exact Hall|].
  intros Hinj. rewrite Hall.
  apply NoDup_map_injective; [exact Hinj|apply seq_NoDup].
Qed.

Lemma map_fixed_update (sourceId : string) (update : Source -> Source)
    (collection : list Source) :
  (forall s, fixed_fields (update s) = fixed_fields s) ->
  map fixed_fields
    (map (fun s => if String.eqb (source_id s) sourceId then update s else s)
       collection)
  = map fixed_fields collection.
Proof.
  intros Hfixed. rewrite map_map. apply map_ext. intros s.
  destruct (String.eqb (source_id s) sourceId); auto.
Qed.

Lemma serve_fixed (req : Request) (app : App) :
  creates_or_deletes req = false ->
  host (serve co req app) = host app /\
  map fixed_fields (sources (serve co req app))
  = map fixed_fields (sources app).
Proof.
  destruct req; cbn [creates_or_deletes]; try discriminate; intros _;
    unfold serve; service_unfold;
    destruct (_getSource co sourceId app) as [[source|e] app1] eqn:Hget;
    pose proof (_getSource_app _ _ _ _ Hget); subst app1;
    cbn [snd fst jobs uuids_drawn host sources provider_calls];
    destruct_scrutinees;
    cbn [snd fst jobs uuids_drawn host sources provider_calls with_sources];
    (split; [reflexivity|]);
    reflexivity || (apply map_fixed_update; intros s; reflexivity).
Qed.

Lemma findById_fixed (sourceId : string) (l l' : list Source)
    (source : Source) :
  map fixed_fields l' = map fixed_fields l ->
  findById sourceId l = Some source ->
  exists source',
    findById sourceId l' = Some source' /\
    fixed_fields source' = fixed_fields source.
Proof.
  unfold findById. revert l'.
  induction l as [|s rest IH]; intros [|s' rest']; cbn [map find];
    try discriminate.
  intros Hmap.
  assert (Hs : fixed_fields s' = fixed_fields s) by congruence.
  assert (Hrest : map fixed_fields rest' = map fixed_fields rest)
    by congruence.
  assert (Hid : source_id s' = source_id s)
    by (unfold fixed_fields in Hs; congruence).
  rewrite Hid.
  destruct (String.eqb (source_id s) sourceId).
  - intros [= <-]. now exists s'.
  - now apply IH.
Qed.

(** X24. Requests other than [create] and [delete], in any number and
    order and whether they return or throw, leave the registry alone and
    keep the documents of the collection in place, each with its id,
    name, provider, state and initialized flag: the service never
    writes the fields its guards read, and a source never changes its
    provider. *)
Theorem requests_keep_fixed_fields (requests : list Request) (app : App) :
  forallb (fun req => negb (creates_or_deletes req)) requests = true ->
  let app' := serve_all co requests app in
  host app' = host app /\
  map fixed_fields (sources app') = map fixed_fields (sources app) /\
  forall sourceId source,
    findById sourceId (sources app) = Some source ->
    exists source',
      findById sourceId (sources app') = Some source' /\
      fixed_fields source' = fixed_fields source.
Proof.
  intros Hreqs app'.
  assert (Hfixed : host app' = host app /\
                   map fixed_fields (sources app')
                   = map fixed_fields (sources app)).
  { unfold app', serve_all. clear app'. revert app.
    induction requests as [|req rest IH]; intros app; cbn [fold_left];
      [split; reflexivity|].
    cbn [forallb] in Hreqs. apply andb_true_iff in Hreqs.
    destruct Hreqs as [Hreq Hrest]. apply negb_true_iff in Hreq.
    destruct (serve_fixed req app Hreq) as [Hh Hs].
    destruct (IH Hrest (serve co req app)) as [Hh' Hs'].
    split; congruence. }
  destruct Hfixed as [Hh Hs].
  split; [exact Hh|]. split; [exact Hs|].
  intros sourceId source Hfind. now apply (findById_fixed sourceId _ _ _ Hs).
Qed.

(** X25. [delete] on a source that was found hands one delete job to the
    indexing service, calls no provider and removes the document and no
    other; from then on every operation on the id fails with "Source
    not found" and changes nothing. *)
Theorem delete_forgets_the_source
    (sourceId : string) (app : App) (source : Source) :
  _getSource co sourceId app = (Returned source, app) ->
  exists app',
    delete co sourceId app = (Returned tt, app') /\
    jobs app' = jobs app ++ [DeleteSourceJob sourceId] /\
    provider_calls app' = provider_calls app /\
    findById sourceId (sources app') = None /\
    (forall other, other <> sourceId ->
       findById other (sources app') = findById other (sources app)) /\
    forall req, target req = Some sourceId ->
      serve co req app' = app' /\
      failure_of co req app'
      = Some (BadRequestException "Source not found").
Proof.
  intros Hget.
  destruct (_getSource_found _ _ _ Hget) as (Hfind & Hid & _).
  eexists. split.
  { service_unfold. rewrite Hget, Hid. reflexivity. }
  cbn [jobs provider_calls sources with_sources].
  split; [reflexivity|]. split; [reflexivity|].
  assert (Hgone : findById sourceId
            (filter (fun s => negb (String.eqb (source_id s) sourceId))
               (sources app)) = None)
    by (now rewrite findById_removed, String.eqb_refl).
  split; [exact Hgone|].
  split.
  - intros other Hother. rewrite findById_removed.
    now destruct (String.eqb_spec other sourceId).
  - intros req Htarget. apply (missing_source req sourceId); [exact Htarget|].
    unfold _getSource. cbn [sources with_sources]. now rewrite Hgone.
Qed.

Lemma findById_app (sourceId : string) (l : list Source) (doc : Source) :
  findById sourceId l = None -> source_id doc = sourceId ->
  findById sourceId (l ++ [doc]) = Some doc.
Proof.
  unfold findById. intros Hnone <-.
  induction l as [|s rest IH]; cbn [find app].
  - now rewrite String.eqb_refl.
  - cbn [find] in Hnone.
    destruct (String.eqb (source_id s) (source_id doc));
      [discriminate|auto].
Qed.

(** X26. A source created under an id no document had, and whose provider
    resolves, is removed again by [delete]: the collection is what it
    was before [create], and one delete job for the new id was
    scheduled. *)
Theorem create_then_delete
    (name provider : string) (app app1 : App) (doc : Source) :
  create co name provider app = (Returned doc, app1) ->
  findById (source_id doc) (sources app) = None ->
  resolve_provider co (host app) doc = Returned tt ->
  exists app2,
    delete co (source_id doc) app1 = (Returned tt, app2) /\
    sources app2 = sources app /\
    jobs app2 = jobs app ++ [DeleteSourceJob (source_id doc)] /\
    host app2 = host app.
Proof.
  intros Hcreate Hfresh Hres.
  assert (Happ1 : app1 = with_sources (sources app ++ [doc]) app).
  { unfold create in Hcreate.
    destruct (fst (getProvider provider (host app))) as [found|e];
      [destruct (JsObject.truthy field_truthy found)|];
      [|discriminate|discriminate].
    now injection Hcreate as <- <-. }
  subst app1.
  assert (Hget : _getSource co (source_id doc)
                   (with_sources (sources app ++ [doc]) app)
                 = (Returned doc, with_sources (sources app ++ [doc]) app)).
  { unfold _getSource. cbn [sources host with_sources].
    rewrite (findById_app _ _ doc Hfresh eq_refl), Hres. reflexivity. }
  eexists. split.
  { service_unfold. rewrite Hget. reflexivity. }
  cbn [jobs sources host with_sources].
  split; [|split; reflexivity].
  rewrite filter_app, (filter_absent _ _ Hfresh). cbn [filter].
  rewrite String.eqb_refl. cbn [negb]. apply app_nil_r.
Qed.

(** X27. The three indexing requests on a source that was found: each
    schedules at most one job, for the requested source and under a job
    id drawn for it.  [rebuildSource] always schedules a forced "init"
    and returns the result of the indexing service as it is;
    [updateSource] schedules an "update" only for an initialized source
    and otherwise throws before drawing a job id; [initSource]
    schedules an unforced "init" and turns a busy source into a
    [BadRequestException], while any other failure of the indexing
    service is returned as no value and not as an error. *)
Theorem indexing_requests_schedule_one_job
    (sourceId : string) (app : App) (source : Source) :
  _getSource co sourceId app = (Returned source, app) ->
  let jobId := uuid_v4 co (uuids_drawn app) in
  let scheduled job :=
    mkApp (host app) (sources app) (jobs app ++ [job]) (provider_calls app)
      (S (uuids_drawn app)) in
  rebuildSource co sourceId app
  = (Returned (scheduleIndexingJob co (IndexingJob sourceId "init" true jobId)),
     scheduled (IndexingJob sourceId "init" true jobId)) /\
  (exists answer,
     initSource co sourceId app
     = (answer, scheduled (IndexingJob sourceId "init" false jobId)) /\
     match scheduleIndexingJob co (IndexingJob sourceId "init" false jobId)
     with
     | ok value => answer = Returned (Some value)
     | err SOURCE_BUSY =>
         answer = Thrown (BadRequestException
                            "This source is already being indexed.")
     | err (OtherFailure _) => answer = Returned None
     end) /\
  updateSource co sourceId app
  = if source_initialized source
    then (Returned
            (scheduleIndexingJob co (IndexingJob sourceId "update" false jobId)),
          scheduled (IndexingJob sourceId "update" false jobId))
    else (Thrown (BadRequestException "Source not initialized"), app).
Proof.
  intros Hget jobId scheduled.
  split; [service_unfold; rewrite Hget; reflexivity|].
  split.
  - destruct (scheduleIndexingJob co
                (IndexingJob sourceId "init" false jobId))
      as [value|[|other]] eqn:Hjob;
      eexists;
      (split;
       [service_unfold; rewrite Hget;
        cbn [host sources jobs provider_calls uuids_drawn]; fold jobId;
        rewrite Hjob; reflexivity
       |reflexivity]).
  - service_unfold. rewrite Hget.
    destruct (source_initialized source); reflexivity.
Qed.

End Sources.

(* ===================================================================== *)
(** * The further properties on the sample environments *)
(* ===================================================================== *)

Lemma register_isolates_invalid_manifest_sample :
  exists h',
    register Sample.env [Sample.reranker; Sample.broken; Sample.drive]
      new_Host
    = (Ok [RegistryError "Failed to register plugin"
             (mkDetails "broken" "plugins/broken" JsObject.Undefined)
             (OtherError "ManifestError: cannot load module")],
       h') /\
    registered "rr" h' /\ registered "drive" h' /\
    indexed "rr" "reranker" h' /\ indexed "drive" "provider" h'.
Proof.
  destruct (register_isolates_invalid_manifest Sample.env
              [Sample.reranker] [Sample.drive] Sample.broken
              (OtherError "ManifestError: cannot load module") new_Host)
    as (h' & cached & Hrun & Hall).
  - reflexivity.
  - reflexivity.
  - intros p [<-|[<-|[]]]; eexists; (split; [reflexivity|]);
      intros lookup; eexists; split; reflexivity.
  - split.
    + intros p q [<-|[<-|[]]] [<-|[<-|[]]] Hid;
        first [reflexivity | discriminate Hid].
    + intros p _ d [].
  - exists h'. split.
    + assert (Hcached : cached = JsObject.Undefined).
      { pose proof Hrun as Hc. vm_compute in Hc. now inversion Hc. }
      subst cached. exact Hrun.
    + destruct (Hall Sample.reranker (or_introl eq_refl))
        as (Hrr & Hrr_indexed & _).
      destruct (Hall Sample.drive (or_intror (or_introl eq_refl)))
        as (Hdrive & Hdrive_indexed & _).
      split; [exact Hrr|]. split; [exact Hdrive|]. split.
      * exact (Hrr_indexed (Sample.manifest "reranker-x" "reranker" None)
                 eq_refl).
      * exact (Hdrive_indexed (Sample.manifest "drive" "provider" None)
                 eq_refl).
Defined.

(** The claim as first stated fails where the runner rejects the
    manifest with a [PluginRegistry.Error]: both loops of [register]
    push it, and the list has two entries for the one declaration. *)
Lemma register_reports_registry_error_twice :
  manifest_of Demo.strict_env Demo.rejected = Throw Demo.rejection /\
  (forall p, In p [Sample.reranker; Sample.drive] ->
             registers_cleanly Demo.strict_env p) /\
  no_identity_clash Demo.strict_env [Sample.reranker; Sample.drive]
    (pluginState new_Host) /\
  exists h',
    register Demo.strict_env
      [Sample.reranker; Demo.rejected; Sample.drive] new_Host
    = (Ok [Demo.rejection; Demo.rejection], h') /\
    registered "rr" h' /\ registered "drive" h'.
Proof.
  split; [reflexivity|]. split; [|split].
  - intros p [<-|[<-|[]]]; eexists; (split; [reflexivity|]);
      intros lookup; eexists; split; reflexivity.
  - split.
    + intros p q [<-|[<-|[]]] [<-|[<-|[]]] Hid;
        first [reflexivity | discriminate Hid].
    + intros p _ d [].
  - eexists. split; [vm_compute; reflexivity|].
    split; eexists; split; vm_compute; reflexivity.
Qed.

Lemma registerPlugin_indexes_by_type_sample :
  let h' := snd (registerPlugin Sample.env Sample.drive new_Host) in
  let proto := Sample.declaration "__proto__" "plugins/drive" in
  let h'' := snd (registerPlugin Sample.env proto new_Host) in
  (exists loaded,
     loaded_alias loaded = "drive" /\
     plugin_lookup "drive" (plugins (registry h')) = JsObject.Found loaded /\
     getProvider "drive" h' = (Ok (JsObject.Found loaded), h') /\
     rerankers (registry h') = []) /\
  JsObject.own (plugins (registry h'')) = [] /\
  plugin_lookup "id" (plugins (registry h''))
  = JsObject.Field (StringField "urn:uuid:__proto__").
Proof.
  intros h' proto h''. split.
  - destruct (registerPlugin_indexes_by_type Sample.env Sample.drive
                new_Host h' eq_refl)
      as (loaded & Halias & Hman & Hflat & _ & _ & Htables & _).
    assert (Htype : manifest_type (loaded_manifest loaded) = "provider").
    { assert (H : Ok (loaded_manifest loaded)
                  = Ok (Sample.manifest "drive" "provider" None))
        by (rewrite <- Hman; reflexivity).
      injection H as ->. reflexivity. }
    exists loaded. split; [exact Halias|].
    split; [exact Hflat|].
    unfold getProvider, gets.
    split.
    + destruct (Htables "provider" providers eq_refl) as [Hin _].
      rewrite <- Hin by now rewrite Htype. reflexivity.
    + destruct (Htables "reranker" rerankers eq_refl) as [_ Hout].
      rewrite Hout; [reflexivity|]. rewrite Htype. discriminate.
  - destruct (registerPlugin_indexes_by_type Sample.env proto
                new_Host h'' eq_refl)
      as (loaded & _ & _ & Hflat & _ & Hproto & _).
    destruct (Hproto eq_refl) as [Hown Hfields].
    split; [exact Hown|].
    assert (Hloaded : JsObject.Found loaded
                      = JsObject.Found
                          (mkLoaded "urn:uuid:__proto__" "__proto__"
                             (mkRunner "urn:uuid:__proto__" "plugins/drive" [])
                             (Sample.manifest "drive" "provider" None)))
      by (rewrite <- Hflat; reflexivity).
    injection Hloaded as ->.
    exact (Hfields "id" (StringField "urn:uuid:__proto__") eq_refl eq_refl).
Defined.

Lemma registerPlugin_failure_registers_nothing_sample :
  let h' := snd (registerPlugin Sample.env Sample.no_boot new_Host) in
  same_tables (registry new_Host) (registry h') /\
  pluginState h' = [] /\
  detached h' = [].
Proof.
  intros h'.
  exact (registerPlugin_failure_registers_nothing Sample.env Sample.no_boot
           new_Host h' (OtherError "bucket missing") eq_refl).
Defined.

Lemma registerPlugin_validates_config_sample :
  fst (registerPlugin Demo.env Demo.vault_unconfigured new_Host)
  = Throw (RegistryError
             ("Invalid plugin config: " ++ newline ++ "bucket: Required")
             (mkDetails "vault" "plugins/vault"
                (JsObject.Found (Sample.manifest "vault" "storage" None)))
             (ZodError ["bucket: Required"])) /\
  exists loaded,
    JsObject.stored "vault"
      (plugins (registry (snd (registerPlugin Demo.env Demo.vault new_Host))))
    = Some loaded /\
    loaded_runner loaded
    = mkRunner "urn:uuid:vault" "plugins/vault"
        [("bucket", "b1"); ("region", "auto")].
Proof.
  split.
  - destruct (registerPlugin_validates_config Demo.env
                Demo.vault_unconfigured new_Host
                (Sample.manifest "vault" "storage" None) []
                Demo.vault_schema eq_refl eq_refl eq_refl eq_refl)
      as (Hinvalid & _ & _).
    now rewrite (Hinvalid ["bucket: Required"] eq_refl).
  - destruct (registerPlugin_validates_config Demo.env Demo.vault new_Host
                (Sample.manifest "vault" "storage" None) [("bucket", "b1")]
                Demo.vault_schema eq_refl eq_refl eq_refl eq_refl)
      as (_ & _ & Hvalid).
    exact (Hvalid [("bucket", "b1"); ("region", "auto")]
             (snd (registerPlugin Demo.env Demo.vault new_Host))
             eq_refl eq_refl).
Defined.

Lemma register_clean_batch_sample :
  exists h',
    register Sample.env [Sample.drive; Sample.reranker] new_Host
    = (Ok [], h') /\
    registered "drive" h' /\ registered "rr" h'.
Proof.
  destruct (register_clean_batch Sample.env [Sample.drive; Sample.reranker]
              new_Host)
    as (h' & Hrun & Hall).
  - intros p [<-|[<-|[]]];
      (eexists; split; [reflexivity|]; intros lookup; eexists;
       split; reflexivity).
  - split.
    + intros p q [<-|[<-|[]]] [<-|[<-|[]]] H;
        reflexivity || discriminate H.
    + intros p _ d [].
  - exists h'. split; [exact Hrun|]. split.
    + exact (proj1 (Hall Sample.drive (or_introl eq_refl))).
    + exact (proj1 (Hall Sample.reranker (or_intror (or_introl eq_refl)))).
Defined.

Lemma register_caches_manifests_sample :
  let h' := Sample.after_register [Sample.drive; Sample.reranker] in
  getManifest "rr" h'
  = (Ok (JsObject.Found (Sample.manifest "reranker-x" "reranker" None)), h').
Proof.
  intros h'.
  destruct (register_caches_manifests Sample.env
              [Sample.drive; Sample.reranker] new_Host)
    as [_ Hcached].
  - repeat constructor; cbn; intuition discriminate.
  - assert (Hrun : register Sample.env [Sample.drive; Sample.reranker]
                     new_Host = (Ok [], h'))
      by (vm_compute; reflexivity).
    exact (Hcached [] h' Hrun Sample.reranker
             (Sample.manifest "reranker-x" "reranker" None)
             (or_intror (or_introl eq_refl)) eq_refl).
Defined.

Lemma reregistration_last_wins_sample :
  let h1 := snd (registerPlugin Sample.env Sample.drive new_Host) in
  let h2 := snd (registerPlugin Sample.env Sample.drive h1) in
  map fst (plugins (registry h2)) = ["drive"] /\
  trace h2 = [mkCall "drive" "bootstrap" true] /\
  map state_alias (pluginState h2) = ["drive"].
Proof.
  intros h1 h2.
  destruct (reregistration_last_wins Sample.env Sample.drive Sample.drive
              new_Host h1 h2 eq_refl eq_refl eq_refl)
    as (l2 & _ & _ & _ & Hkeys & Htrace & Hstate).
  rewrite Hkeys, Htrace, Hstate. repeat split.
Defined.

Lemma reregistration_keeps_old_capability_entry_sample :
  let first := Sample.declaration "x" "plugins/drive" in
  let second := Sample.declaration "x" "plugins/reranker" in
  let h1 := snd (registerPlugin Sample.env first new_Host) in
  let h2 := snd (registerPlugin Sample.env second h1) in
  exists l1 l2,
    manifest_type (loaded_manifest l1) = "provider" /\
    manifest_type (loaded_manifest l2) = "reranker" /\
    JsObject.stored "x" (providers (registry h2)) = Some l1 /\
    JsObject.stored "x" (rerankers (registry h2)) = Some l2 /\
    JsObject.stored "x" (plugins (registry h2)) = Some l2.
Proof.
  intros first second h1 h2.
  destruct (reregistration_keeps_old_capability_entry Sample.env first second
              new_Host h1 h2
              (Sample.manifest "drive" "provider" None)
              (Sample.manifest "reranker-x" "reranker" None)
              providers rerankers
              eq_refl eq_refl eq_refl eq_refl eq_refl eq_refl eq_refl)
    as (l1 & l2 & Hm1 & Hm2 & Hold & Hnew & Hflat).
  - discriminate.
  - exists l1, l2. rewrite Hm1, Hm2.
    split; [reflexivity|]. split; [reflexivity|].
    split; [exact Hold|]. split; [exact Hnew|exact Hflat].
Defined.

Lemma registry_stays_well_keyed_sample :
  registry_well_keyed
    (registry (Sample.after_register [Sample.drive; Sample.reranker])).
Proof.
  destruct (registry_stays_well_keyed Sample.env new_Host) as [Hnew Hkept].
  destruct (Hkept Hnew) as (_ & _ & Hregister & _).
  exact (Hregister [Sample.drive; Sample.reranker] _ _
           (surjective_pairing _)).
Defined.

Lemma getPluginById_finds_by_id_sample :
  let h := Sample.after_register [Sample.drive] in
  exists answer,
    getPluginById "urn:uuid:drive" h = (Ok answer, h) /\
    forall l, answer = Some l -> loaded_id l = "urn:uuid:drive".
Proof.
  intros h.
  destruct (getPluginById_finds_by_id Sample.env "urn:uuid:drive" h)
    as (answer & Hrun & Hsome & _).
  exists answer. split; [exact Hrun|].
  intros l Hl. exact (proj1 (Hsome l Hl)).
Defined.

Lemma getPlugins_catalog_sample :
  let h := Sample.after_register [Sample.drive; Sample.reranker] in
  exists all,
    getPlugins None h = (Ok all, h) /\ length all = 2.
Proof.
  intros h.
  destruct (getPlugins_catalog h) as (all & Hrun & _ & Hlength & _).
  exists all. split; [exact Hrun|exact Hlength].
Defined.

Lemma getStorage_first_registered_sample :
  let h := Demo.after_register [Demo.vault] in
  let h' := snd (registerPlugin Demo.env Demo.vault_0 h) in
  exists loaded,
    getStorage h' = (Ok (Some loaded), h') /\ loaded_alias loaded = "0".
Proof.
  intros h h'.
  destruct (getStorage_first_registered Demo.env h) as (_ & _ & _ & Hindex).
  apply (Hindex Demo.vault_0 h' (Sample.manifest "vault" "storage" None)
           0%N eq_refl eq_refl eq_refl).
  - intros k Hin. vm_compute in Hin. destruct Hin as [<-|[]]. reflexivity.
  - reflexivity.
Defined.

Lemma deletePlugin_twice_sample :
  let h := Sample.after_register [Sample.drive] in
  let h' := snd (deletePlugin Sample.env "drive" h) in
  deletePlugin Sample.env "drive" h' = (Ok tt, h') /\
  trace h' = trace h ++ [mkCall "drive" "destroy" true].
Proof.
  intros h h'.
  destruct (deletePlugin_twice Sample.env "drive"
              (mkLoaded "urn:uuid:drive" "drive"
                 (mkRunner "urn:uuid:drive" "plugins/drive" [])
                 (Sample.manifest "drive" "provider" None))
              h h' eq_refl eq_refl)
    as (Htrace & _ & Hother & _).
  destruct Hother as (Hagain & _); [discriminate|].
  split; [exact (Hagain eq_refl)|exact Htrace].
Defined.

Lemma deletePlugin_resets_bootstrap_sample :
  let h := Sample.after_register [Sample.drive] in
  let h1 := snd (deletePlugin Sample.env "drive" h) in
  let h2 := snd (registerPlugin Sample.env Sample.drive (settle h1)) in
  trace h2 = trace h1 ++ [mkCall "drive" "bootstrap" true] /\
  has_state_for_alias "drive" (pluginState h2).
Proof.
  intros h h1 h2.
  destruct (deletePlugin_resets_bootstrap Sample.env "drive"
              (mkLoaded "urn:uuid:drive" "drive"
                 (mkRunner "urn:uuid:drive" "plugins/drive" [])
                 (Sample.manifest "drive" "provider" None))
              Sample.drive h h1 h2)
    as (_ & Htrace & Hstate).
  - repeat constructor. intros [].
  - reflexivity.
  - reflexivity.
  - reflexivity.
  - reflexivity.
  - reflexivity.
  - split; [exact Htrace|exact Hstate].
Defined.

Lemma services_start_then_stop_sample :
  let h := Sample.after_register
             [Sample.svc_a; Sample.svc_c; Sample.drive] in
  exists h1 h2,
    startServices Sample.env h = (Ok tt, h1) /\
    stopServices Sample.env h1 = (Ok tt, h2) /\
    map call_alias (skipn (length (trace h1)) (trace h2)) = ["a"; "c"] /\
    registry h2 = registry h.
Proof.
  intros h.
  destruct (services_start_then_stop Sample.env h)
    as (h1 & h2 & Hstart & Hstop & Hstarted & _ & Hsame & Hregistry & _).
  - intros q Hq _. vm_compute in Hq.
    destruct Hq as [<-|[<-|[<-|[]]]]; reflexivity.
  - exists h1, h2. split; [exact Hstart|]. split; [exact Hstop|].
    split; [|exact Hregistry].
    rewrite Hsame, Hstarted, skipn_prefix. reflexivity.
Defined.

Lemma demo_plain_models :
  Generative.plain_models Demo.getSupportedModels
    (JsObject.values
       (generative
          (registry (Demo.after_register [Demo.openai; Demo.local])))).
Proof.
  intros plugin models m Hin Hmodels Hm. vm_compute in Hin.
  destruct Hin as [<-|[<-|[]]]; vm_compute in Hmodels;
    injection Hmodels as <-; destruct Hm as [<-|[<-|[]]]; reflexivity.
Defined.

Lemma init_lists_providers_in_order_sample :
  let h := Demo.after_register [Demo.openai; Demo.local] in
  Generative.providers_of "gpt"
    (snd (Generative.init Demo.getSupportedModels h []))
  = [Generative.mkProviderModel "openai" (Demo.model "gpt");
     Generative.mkProviderModel "local" (Demo.model "gpt")].
Proof.
  intros h.
  destruct (init_lists_providers_in_order Demo.getSupportedModels h []
              eq_refl)
    as [Hplain _].
  destruct (Hplain demo_plain_models) as (Hlisted & _).
  rewrite Hlisted. reflexivity.
Defined.

Lemma model_request_reaches_a_listing_plugin_sample :
  let h := Demo.after_register [Demo.openai; Demo.local] in
  let table := snd (Generative.init Demo.getSupportedModels h []) in
  (exists plugin,
     Generative.getGenerative Demo.env (Some Demo.settings) table None
       (Some "gpt") h
     = (Ok (Generative.InstanceOf
              (new_instance Demo.env GenerativePluginInstance plugin [])), h) /\
     loaded_alias plugin = "local") /\
  (exists plugin,
     Generative.getGenerative Demo.env (Some Demo.settings) table None
       (Some "embed") h
     = (Ok (Generative.InstanceOf
              (new_instance Demo.env GenerativePluginInstance plugin [])), h) /\
     loaded_alias plugin = "openai") /\
  Generative.getGenerative Demo.env (Some Demo.settings) table None
    (Some "claude") h
  = (Throw (OtherError "unknown model: claude"), h) /\
  Generative.getGenerative Demo.env (Some Demo.settings) table None
    (Some "constructor") h
  = (Throw Generative.TypeError_find, h) /\
  Generative.getGenerative Demo.env (Some Demo.settings) table None
    (Some "toString") h
  = (Throw (OtherError "unknown model: toString"), h).
Proof.
  intros h table.
  assert (Hwk : well_keyed (generative (registry h))).
  { split.
    - vm_compute. repeat constructor; simpl; intuition discriminate.
    - intros k v Hin. vm_compute in Hin.
      destruct Hin as [[= <- <-]|[[= <- <-]|[]]]; reflexivity. }
  split; [|split; [|split; [|split]]].
  - pose proof (proj1 (model_request_reaches_a_listing_plugin Demo.env
                  Demo.getSupportedModels h Demo.settings None (Some "gpt")
                  "gpt" Hwk eq_refl eq_refl demo_plain_models) eq_refl) as H.
    cbv zeta in H.
    change (Generative.listed_under Demo.getSupportedModels "gpt"
              (JsObject.values (generative (registry h))))
      with [Generative.mkProviderModel "openai" (Demo.model "gpt");
            Generative.mkProviderModel "local" (Demo.model "gpt")] in H.
    cbv beta iota in H.
    destruct H as (plugin & Hrun & _ & _ & Halias).
    exists plugin. split; [exact Hrun|exact Halias].
  - pose proof (proj1 (model_request_reaches_a_listing_plugin Demo.env
                  Demo.getSupportedModels h Demo.settings None (Some "embed")
                  "embed" Hwk eq_refl eq_refl demo_plain_models) eq_refl)
      as H.
    cbv zeta in H.
    change (Generative.listed_under Demo.getSupportedModels "embed"
              (JsObject.values (generative (registry h))))
      with [Generative.mkProviderModel "openai" (Demo.model "embed")] in H.
    cbv beta iota in H.
    destruct H as (plugin & Hrun & _ & _ & Halias).
    exists plugin. split; [exact Hrun|exact Halias].
  - exact (proj1 (model_request_reaches_a_listing_plugin Demo.env
             Demo.getSupportedModels h Demo.settings None (Some "claude")
             "claude" Hwk eq_refl eq_refl demo_plain_models) eq_refl).
  - exact (proj2 (model_request_reaches_a_listing_plugin Demo.env
             Demo.getSupportedModels h Demo.settings None
             (Some "constructor") "constructor" Hwk eq_refl eq_refl
             demo_plain_models) eq_refl).
  - exact (proj2 (model_request_reaches_a_listing_plugin Demo.env
             Demo.getSupportedModels h Demo.settings None
             (Some "toString") "toString" Hwk eq_refl eq_refl
             demo_plain_models) eq_refl).
Defined.

Lemma alias_request_follows_the_generative_table_sample :
  let h' := snd (registerPlugin Demo.env Demo.openai new_Host) in
  exists loaded,
    JsObject.stored "openai" (plugins (registry h')) = Some loaded /\
    forall table model,
      Generative.getGenerative Demo.env (Some Demo.settings) table
        (Some "openai") model h'
      = (Ok (Generative.InstanceOf
               (new_instance Demo.env GenerativePluginInstance loaded [])),
         h').
Proof.
  intros h'.
  destruct (alias_request_follows_the_generative_table Demo.env Demo.openai
              new_Host h' eq_refl)
    as (loaded & Hflat & _ & Hgenerative & _).
  - discriminate.
  - exists loaded. split; [exact Hflat|].
    assert (Hloaded :
              Some loaded
              = Some (mkLoaded "urn:uuid:openai" "openai"
                        (mkRunner "urn:uuid:openai" "plugins/gen-a" [])
                        (Sample.manifest "gen-a" "generative" None)))
      by (rewrite <- Hflat; reflexivity).
    injection Hloaded as Hloaded.
    intros table model.
    exact (proj1 (Hgenerative
                    (f_equal (fun l => manifest_type (loaded_manifest l))
                       Hloaded)
                    Demo.settings table model)).
Defined.

Lemma create_follows_the_providers_table_sample :
  let app := SourceService.mkApp new_Host [] [] [] 0 in
  let h' := snd (registerPlugin Sample.env Sample.drive new_Host) in
  exists doc,
    SourceService.create Demo.co "docs" "drive"
      (SourceService.with_host h' app)
    = (SourceService.Returned doc,
       SourceService.with_sources [doc] (SourceService.with_host h' app)) /\
    SourceService.source_name doc = "docs" /\
    SourceService.source_provider doc = "drive".
Proof.
  intros app h'.
  destruct (create_follows_the_providers_table Sample.env Demo.co
              Sample.drive app h' "docs" eq_refl)
    as (loaded & Hflat & Hprovider & _).
  assert (Hloaded :
            Some loaded
            = Some (mkLoaded "urn:uuid:drive" "drive"
                      (mkRunner "urn:uuid:drive" "plugins/drive" [])
                      (Sample.manifest "drive" "provider" None)))
    by (rewrite <- Hflat; reflexivity).
  injection Hloaded as Hloaded.
  exact (Hprovider (f_equal (fun l => manifest_type (loaded_manifest l))
                      Hloaded) h' (or_introl eq_refl)).
Defined.

Lemma missing_source_stops_every_request_sample :
  SourceService.serve Demo.co (SourceService.UpdateSource "nope") Demo.app
  = Demo.app /\
  SourceService.failure_of Demo.co (SourceService.UpdateSource "nope")
    Demo.app
  = Some (SourceService.BadRequestException "Source not found").
Proof.
  destruct (missing_source_stops_every_request Demo.co
              (SourceService.UpdateSource "nope") "nope" Demo.app Demo.app
              (SourceService.BadRequestException "Source not found")
              eq_refl eq_refl)
    as (_ & Hserve & Hfailure & _).
  split; [exact Hserve|exact Hfailure].
Defined.

Lemma verifyConnection_outcomes_sample :
  let source :=
    SourceService.mkSource "source-" "docs" "idle" "drive" false false
      None None None None in
  let app' :=
    snd (SourceService.verifyConnection Demo.co "source-" false "good"
           Demo.app_with_source) in
  SourceService.findById "source-" (SourceService.sources app')
  = Some (SourceService.connected_update (Some "token") source) /\
  SourceService.jobs app' = [].
Proof.
  intros source app'.
  destruct (verifyConnection_outcomes Demo.co "source-" false "good"
              Demo.app_with_source app' source
              (SourceService.Returned true) eq_refl eq_refl)
    as (_ & Hjobs & _ & _ & _ & res & Hres & _ & Hfind & _).
  split; [|exact Hjobs].
  injection Hres as <-. exact Hfind.
Defined.

Lemma setEntrypoint_outcomes_sample :
  let source :=
    SourceService.mkSource "source-" "docs" "idle" "drive" false false
      None None None None in
  let app' :=
    snd (SourceService.setEntrypoint Demo.co "source-" "folder"
           Demo.app_with_source) in
  SourceService.findById "source-" (SourceService.sources app')
  = Some (SourceService.entrypoint_update "entry:folder" "folder" source).
Proof.
  intros source app'.
  destruct (setEntrypoint_outcomes Demo.co "source-" "folder"
              Demo.app_with_source app' source
              (SourceService.Returned "entry:folder") eq_refl eq_refl)
    as (_ & _ & _ & Hout).
  cbn [SourceService.source_state SourceService.source_initialized
       String.eqb Ascii.eqb Bool.eqb negb orb] in Hout.
  destruct Hout as (_ & _ & Hfind & _). exact Hfind.
Defined.

Lemma job_ids_follow_the_draws_sample :
  SourceService.indexing_job_ids
    (SourceService.jobs
       (SourceService.serve_all Demo.co
          [SourceService.InitSource "source-";
           SourceService.UpdateSource "source-";
           SourceService.RebuildSource "source-";
           SourceService.Delete "source-"]
          Demo.app_with_source))
  = ["job-"; "job-i"].
Proof.
  pose proof (proj1 (job_ids_follow_the_draws Demo.co
                       [SourceService.InitSource "source-";
                        SourceService.UpdateSource "source-";
                        SourceService.RebuildSource "source-";
                        SourceService.Delete "source-"]
                       Demo.app_with_source eq_refl)) as Hdrawn.
  unfold SourceService.job_ids_as_drawn in Hdrawn. rewrite Hdrawn.
  vm_compute. reflexivity.
Defined.

Lemma requests_keep_fixed_fields_sample :
  map SourceService.fixed_fields
    (SourceService.sources
       (SourceService.serve_all Demo.co
          [SourceService.VerifyConnection "source-" false "good";
           SourceService.SetEntrypoint "source-" "folder";
           SourceService.InitSource "source-"]
          Demo.app_with_source))
  = [("source-", "docs", "drive", "idle", false)].
Proof.
  exact (proj1 (proj2 (requests_keep_fixed_fields Demo.co
                         [SourceService.VerifyConnection "source-" false
                            "good";
                          SourceService.SetEntrypoint "source-" "folder";
                          SourceService.InitSource "source-"]
                         Demo.app_with_source eq_refl))).
Defined.

Lemma delete_forgets_the_source_sample :
  exists app',
    SourceService.delete Demo.co "source-" Demo.app_with_source
    = (SourceService.Returned tt, app') /\
    SourceService.findById "source-" (SourceService.sources app') = None /\
    SourceService.failure_of Demo.co (SourceService.InitSource "source-")
      app'
    = Some (SourceService.BadRequestException "Source not found").
Proof.
  destruct (delete_forgets_the_source Demo.co "source-" Demo.app_with_source
              (SourceService.mkSource "source-" "docs" "idle" "drive" false
                 false None None None None)
              eq_refl)
    as (app' & Hrun & _ & _ & Hgone & _ & Hlater).
  exists app'. split; [exact Hrun|]. split; [exact Hgone|].
  exact (proj2 (Hlater (SourceService.InitSource "source-") eq_refl)).
Defined.

Lemma create_then_delete_sample :
  exists app2,
    SourceService.delete Demo.co "source-" Demo.app_with_source
    = (SourceService.Returned tt, app2) /\
    SourceService.sources app2 = [] /\
    SourceService.jobs app2 = [SourceService.DeleteSourceJob "source-"].
Proof.
  destruct (create_then_delete Demo.co "docs" "drive" Demo.app
              Demo.app_with_source
              (SourceService.mkSource "source-" "docs" "idle" "drive" false
                 false None None None None)
              eq_refl eq_refl eq_refl)
    as (app2 & Hrun & Hsources & Hjobs & _).
  exists app2. split; [exact Hrun|]. split; [exact Hsources|exact Hjobs].
Defined.

Lemma indexing_requests_schedule_one_job_sample :
  fst (SourceService.rebuildSource Demo.co "source-" Demo.app_with_source)
  = SourceService.Returned (SourceService.ok "job-") /\
  SourceService.updateSource Demo.co "source-" Demo.app_with_source
  = (SourceService.Thrown
       (SourceService.BadRequestException "Source not initialized"),
     Demo.app_with_source).
Proof.
  destruct (indexing_requests_schedule_one_job Demo.co "source-"
              Demo.app_with_source
              (SourceService.mkSource "source-" "docs" "idle" "drive" false
                 false None None None None)
              eq_refl)
    as (Hrebuild & _ & Hupdate).
  split; [now rewrite Hrebuild|exact Hupdate].
Defined.
